(** * METAR decoder: a shallow embedding of [metar.cpp] and its properties

    The report decoder of [src/metar.cpp] is transcribed function by
    function.  C strings are lists of characters without their terminator,
    [int] is [Z] with the 32-bit wrap-around written out, [double] is the
    binary64 type of the kernel ([PrimFloat]), so that quotients such as
    [3029 / 100.0] are the very values the program computes.

    The sub-parsers copy pieces of the token into a local array [val].  The
    functions [parse_ot], [parse_wind], ... give what a sub-parser stores when
    its copies stay inside [val]; the section on scratch buffers counts the
    bytes that the copies write, and the decoder with its arrays
    ([Metar_parse_checked]) returns a report only when every copy stays
    inside its array: a copy that leaves it has no defined behaviour in C. *)

From Stdlib Require Import String Ascii ZArith Bool Lia Floats List.
Import ListNotations.

(** ** C strings and the libc functions the decoder calls *)

Definition cstring := list ascii.

Definition NUL : ascii := Ascii.zero.

(** A string literal of the source. *)
Definition lit (s : string) : cstring := list_ascii_of_string s.

(** The characters a [const char *] argument denotes: everything before the
    first terminator. *)
Fixpoint c_str (s : cstring) : cstring :=
  match s with
  | [] => []
  | c :: r => if Ascii.eqb c NUL then [] else c :: c_str r
  end.

(** [isdigit], [isalpha] and [isspace] in the "C" locale. *)
Definition isdigit (c : ascii) : bool :=
  (48 <=? nat_of_ascii c)%nat && (nat_of_ascii c <=? 57)%nat.

Definition isalpha (c : ascii) : bool :=
  ((65 <=? nat_of_ascii c)%nat && (nat_of_ascii c <=? 90)%nat)
  || ((97 <=? nat_of_ascii c)%nat && (nat_of_ascii c <=? 122)%nat).

Definition isspace (c : ascii) : bool :=
  (nat_of_ascii c =? 32)%nat
  || ((9 <=? nat_of_ascii c)%nat && (nat_of_ascii c <=? 13)%nat).

(** [strcmp(a, b) == 0]. *)
Fixpoint streq (a b : cstring) : bool :=
  match a, b with
  | [], [] => true
  | x :: a', y :: b' => Ascii.eqb x y && streq a' b'
  | _, _ => false
  end.

(** [needle] is an initial segment of [hay]. *)
Fixpoint is_prefix (needle hay : cstring) : bool :=
  match needle, hay with
  | [], _ => true
  | x :: n', y :: h' => Ascii.eqb x y && is_prefix n' h'
  | _ :: _, [] => false
  end.

(** [strstr(hay, needle)]: the offset of the first occurrence, [None] for a
    null result. *)
Fixpoint strstr (hay needle : cstring) : option nat :=
  if is_prefix needle hay then Some 0%nat
  else match hay with
       | [] => None
       | _ :: h' => option_map S (strstr h' needle)
       end.

(** [strncpy(val, src, n); val[n] = '\0'] leaves the first [n] characters of
    [src] in [val]; [src + k] is [skipn k src]. *)
Definition strncpy (src : cstring) (n : nat) : cstring := firstn n src.

(** Two's-complement [int]. *)
Definition INT_MIN : Z := - 2 ^ 31.

Definition wrap32 (z : Z) : Z := (z + 2 ^ 31) mod 2 ^ 32 - 2 ^ 31.

Definition digit_val (c : ascii) : Z := Z.of_nat (nat_of_ascii c) - 48.

(** The value of the longest run of decimal digits that starts [s]. *)
Fixpoint digits_val (acc : Z) (s : cstring) : Z :=
  match s with
  | c :: r => if isdigit c then digits_val (acc * 10 + digit_val c) r else acc
  | [] => acc
  end.

Fixpoint skip_space (s : cstring) : cstring :=
  match s with
  | c :: r => if isspace c then skip_space r else s
  | [] => []
  end.

(** Sign and magnitude read by [atoi]/[atof]: white space, an optional sign,
    decimal digits. *)
Definition scan_number (s : cstring) : bool * Z :=
  match skip_space s with
  | c :: r =>
      if Ascii.eqb c "-" then (true, digits_val 0 r)
      else if Ascii.eqb c "+" then (false, digits_val 0 r)
      else (false, digits_val 0 (c :: r))
  | [] => (false, 0%Z)
  end.

(** [strtol(s, NULL, 10)] with a [long] of 64 bits: a value outside [long]
    is replaced by [LONG_MIN] or [LONG_MAX]. *)
Definition LONG_MAX : Z := 2 ^ 63 - 1.
Definition LONG_MIN : Z := - 2 ^ 63.

Definition strtol (s : cstring) : Z :=
  let '(neg, v) := scan_number s in
  if neg then Z.max LONG_MIN (- v) else Z.min LONG_MAX v.

(** [atoi] is [(int) strtol(s, NULL, 10)]: the [long] is reduced modulo
    2^32. *)
Definition atoi (s : cstring) : Z := wrap32 (strtol s).

(** ** binary64 *)

(** The double nearest to an integer: the integers below 2^53 in absolute
    value are doubles and are converted exactly; beyond, the conversion
    rounds to nearest, ties to even, and overflows to infinity. *)
Definition float_of_Z (z : Z) : float :=
  if (Z.abs z <? 2 ^ 53)%Z
  then if (z <? 0)%Z
       then PrimFloat.opp (PrimFloat.of_uint63 (Uint63.of_Z (- z)))
       else PrimFloat.of_uint63 (Uint63.of_Z z)
  else SF2Prim (binary_normalize prec emax z 0 false).

Definition DBL_MAX : float := 0x1.fffffffffffffp+1023%float.

(** [atof] on the syntax that reaches it in the decoder: every string the
    decoder hands to [atof] is made of digits, ['/'], ['S'], ['M'] and a
    leading ['-'], so the fraction, exponent, hexadecimal and non-finite forms
    of [strtod] never start; the converted prefix is a signed decimal
    integer. *)
Definition atof (s : cstring) : float :=
  let '(neg, v) := scan_number s in
  if neg then PrimFloat.opp (float_of_Z v) else float_of_Z v.

(** [a != b] on doubles. *)
Definition float_neq (a b : float) : bool := negb (PrimFloat.eqb a b).

(** ** Pattern matching: [match_character], [match], [starts_with] *)

Definition match_character (p c : ascii) : bool :=
  if Ascii.eqb p "#" then isdigit c
  else if Ascii.eqb p "$" then isalpha c
  else Ascii.eqb p c.

(** [match(pattern, str, len)]: the first [len] positions agree.  An index at
    the end of a string reads its terminator. *)
Fixpoint match_n (pattern str : cstring) (len : nat) : bool :=
  match len with
  | O => true
  | S n =>
      if match_character (hd NUL pattern) (hd NUL str)
      then match_n (tl pattern) (tl str) n
      else false
  end.

(** [match(pattern, str)] for a non-null [str]. *)
Definition match_ (pattern str : cstring) : bool :=
  if (length pattern =? length str)%nat
  then match_n pattern str (length pattern)
  else false.

Definition starts_with (pattern str : cstring) : bool :=
  if (length pattern <=? length str)%nat
  then match_n pattern str (length pattern)
  else false.

(** ** Tables *)

Definition WIND_SPEED_KT : cstring := lit "KT".
Definition WIND_SPEED_MPS : cstring := lit "MPS".
Definition WIND_SPEED_KPH : cstring := lit "KPH".

Definition VIS_UNITS_M : cstring := lit "M".
Definition VIS_UNITS_SM : cstring := lit "SM".

Definition sky_conditions : list cstring :=
  [lit "SKC"; lit "CLR"; lit "NSC"; lit "FEW"; lit "SCT"; lit "BKN"; lit "OVC"].

Definition cloud_types : list cstring := [lit "TCU"; lit "CB"; lit "ACC"].

Definition _MAX_CLOUD_LAYERS : nat := 3.

(** ** Shape predicates *)

Definition is_metar (str : cstring) : bool :=
  streq str (lit "METAR") || streq str (lit "SPECI").

Definition is_icao (str : cstring) : bool := match_ (lit "$$$$") str.

Definition is_ot (str : cstring) : bool := match_ (lit "######Z") str.

Definition is_wind (str : cstring) : bool :=
  starts_with (lit "#####") str
  || starts_with (lit "#####G##") str
  || starts_with (lit "######G###") str
  || starts_with (lit "VRB") str.

Definition is_wind_var (str : cstring) : bool := match_ (lit "###V###") str.

(** The loop of [is_vis] over the positions [1 .. len - 3]. *)
Definition vis_body_ok (str : cstring) : bool :=
  forallb (fun c => isdigit c || Ascii.eqb c "/")
          (firstn (length str - 3) (skipn 1 str)).

Definition is_vis (str : cstring) : bool :=
  if streq str (lit "CAVOK") then true
  else match strstr str VIS_UNITS_SM with
       | None => match_ (lit "####") str
       | Some p =>
           if (length str - p =? 2)%nat
           then if negb (isdigit (hd NUL str)) && negb (Ascii.eqb (hd NUL str) "M")
                then false
                else vis_body_ok str
           else false
       end.

Definition is_cloud_layer (str : cstring) : bool :=
  existsb (fun sc => starts_with sc str) sky_conditions.

Definition is_vert_vis (str : cstring) : bool := match_ (lit "VV###") str.

Definition is_temp (str : cstring) : bool :=
  match_ (lit "##/##") str
  || match_ (lit "##/M##") str
  || match_ (lit "M##/M##") str
  || match_ (lit "##/") str
  || match_ (lit "M##/") str.

Definition is_altA (str : cstring) : bool := match_ (lit "A####") str.

Definition is_altQ (str : cstring) : bool := match_ (lit "Q####") str.

Definition is_slp (str : cstring) : bool := match_ (lit "SLP###") str.

Definition is_tempNA (str : cstring) : bool := match_ (lit "T########") str.

(** ** The decoded report *)

(** [SkyConditionImpl]: the cover is a pointer into [sky_conditions], the
    cloud type a pointer into [cloud_types] or null. *)
Record SkyConditionImpl := mkSky {
  _cond : cstring;
  _alt : Z;
  _type : option cstring
}.

Definition hasAltitude (l : SkyConditionImpl) : bool := negb (_alt l =? INT_MIN)%Z.

Definition hasCloudType (l : SkyConditionImpl) : bool :=
  match _type l with Some _ => true | None => false end.

Definition _INTEGER_UNDEFINED : Z := INT_MIN.
Definition _DOUBLE_UNDEFINED : float := DBL_MAX.

(** The data members of [Metar].  [_layers] together with [_num_layers] is the
    list of the layers stored so far. *)
Record Metar := mkMetar {
  _metar : cstring;
  _icao : cstring;
  _day : Z;
  _hour : Z;
  _min : Z;
  _wind_dir : Z;
  _wind_spd : Z;
  _gust : Z;
  _wind_speed_units : option cstring;
  _min_wind_dir : Z;
  _max_wind_dir : Z;
  _vrb : bool;
  _vis : float;
  _vis_units : option cstring;
  _vis_lt : bool;
  _cavok : bool;
  _layers : list SkyConditionImpl;
  _vert_vis : Z;
  _temp : Z;
  _dew : Z;
  _altimeterA : float;
  _altimeterQ : Z;
  _slp : float;
  _ftemp : float;
  _fdew : float;
  _previous_element : option cstring
}.

Definition _num_layers (m : Metar) : nat := length (_layers m).

(** Assignments to one data member. *)
Definition set_metar (v : cstring) (m : Metar) : Metar :=
  {| _metar := v; _icao := _icao m; _day := _day m; _hour := _hour m;
     _min := _min m; _wind_dir := _wind_dir m; _wind_spd := _wind_spd m;
     _gust := _gust m; _wind_speed_units := _wind_speed_units m;
     _min_wind_dir := _min_wind_dir m; _max_wind_dir := _max_wind_dir m;
     _vrb := _vrb m; _vis := _vis m; _vis_units := _vis_units m;
     _vis_lt := _vis_lt m; _cavok := _cavok m; _layers := _layers m;
     _vert_vis := _vert_vis m; _temp := _temp m; _dew := _dew m;
     _altimeterA := _altimeterA m; _altimeterQ := _altimeterQ m;
     _slp := _slp m; _ftemp := _ftemp m; _fdew := _fdew m;
     _previous_element := _previous_element m |}.

Definition set_icao (v : cstring) (m : Metar) : Metar :=
  {| _metar := _metar m; _icao := v; _day := _day m; _hour := _hour m;
     _min := _min m; _wind_dir := _wind_dir m; _wind_spd := _wind_spd m;
     _gust := _gust m; _wind_speed_units := _wind_speed_units m;
     _min_wind_dir := _min_wind_dir m; _max_wind_dir := _max_wind_dir m;
     _vrb := _vrb m; _vis := _vis m; _vis_units := _vis_units m;
     _vis_lt := _vis_lt m; _cavok := _cavok m; _layers := _layers m;
     _vert_vis := _vert_vis m; _temp := _temp m; _dew := _dew m;
     _altimeterA := _altimeterA m; _altimeterQ := _altimeterQ m;
     _slp := _slp m; _ftemp := _ftemp m; _fdew := _fdew m;
     _previous_element := _previous_element m |}.

Definition set_day (v : Z) (m : Metar) : Metar :=
  {| _metar := _metar m; _icao := _icao m; _day := v; _hour := _hour m;
     _min := _min m; _wind_dir := _wind_dir m; _wind_spd := _wind_spd m;
     _gust := _gust m; _wind_speed_units := _wind_speed_units m;
     _min_wind_dir := _min_wind_dir m; _max_wind_dir := _max_wind_dir m;
     _vrb := _vrb m; _vis := _vis m; _vis_units := _vis_units m;
     _vis_lt := _vis_lt m; _cavok := _cavok m; _layers := _layers m;
     _vert_vis := _vert_vis m; _temp := _temp m; _dew := _dew m;
     _altimeterA := _altimeterA m; _altimeterQ := _altimeterQ m;
     _slp := _slp m; _ftemp := _ftemp m; _fdew := _fdew m;
     _previous_element := _previous_element m |}.

Definition set_hour (v : Z) (m : Metar) : Metar :=
  {| _metar := _metar m; _icao := _icao m; _day := _day m; _hour := v;
     _min := _min m; _wind_dir := _wind_dir m; _wind_spd := _wind_spd m;
     _gust := _gust m; _wind_speed_units := _wind_speed_units m;
     _min_wind_dir := _min_wind_dir m; _max_wind_dir := _max_wind_dir m;
     _vrb := _vrb m; _vis := _vis m; _vis_units := _vis_units m;
     _vis_lt := _vis_lt m; _cavok := _cavok m; _layers := _layers m;
     _vert_vis := _vert_vis m; _temp := _temp m; _dew := _dew m;
     _altimeterA := _altimeterA m; _altimeterQ := _altimeterQ m;
     _slp := _slp m; _ftemp := _ftemp m; _fdew := _fdew m;
     _previous_element := _previous_element m |}.

Definition set_min (v : Z) (m : Metar) : Metar :=
  {| _metar := _metar m; _icao := _icao m; _day := _day m; _hour := _hour m;
     _min := v; _wind_dir := _wind_dir m; _wind_spd := _wind_spd m;
     _gust := _gust m; _wind_speed_units := _wind_speed_units m;
     _min_wind_dir := _min_wind_dir m; _max_wind_dir := _max_wind_dir m;
     _vrb := _vrb m; _vis := _vis m; _vis_units := _vis_units m;
     _vis_lt := _vis_lt m; _cavok := _cavok m; _layers := _layers m;
     _vert_vis := _vert_vis m; _temp := _temp m; _dew := _dew m;
     _altimeterA := _altimeterA m; _altimeterQ := _altimeterQ m;
     _slp := _slp m; _ftemp := _ftemp m; _fdew := _fdew m;
     _previous_element := _previous_element m |}.

Definition set_wind_dir (v : Z) (m : Metar) : Metar :=
  {| _metar := _metar m; _icao := _icao m; _day := _day m; _hour := _hour m;
     _min := _min m; _wind_dir := v; _wind_spd := _wind_spd m;
     _gust := _gust m; _wind_speed_units := _wind_speed_units m;
     _min_wind_dir := _min_wind_dir m; _max_wind_dir := _max_wind_dir m;
     _vrb := _vrb m; _vis := _vis m; _vis_units := _vis_units m;
     _vis_lt := _vis_lt m; _cavok := _cavok m; _layers := _layers m;
     _vert_vis := _vert_vis m; _temp := _temp m; _dew := _dew m;
     _altimeterA := _altimeterA m; _altimeterQ := _altimeterQ m;
     _slp := _slp m; _ftemp := _ftemp m; _fdew := _fdew m;
     _previous_element := _previous_element m |}.

Definition set_wind_spd (v : Z) (m : Metar) : Metar :=
  {| _metar := _metar m; _icao := _icao m; _day := _day m; _hour := _hour m;
     _min := _min m; _wind_dir := _wind_dir m; _wind_spd := v;
     _gust := _gust m; _wind_speed_units := _wind_speed_units m;
     _min_wind_dir := _min_wind_dir m; _max_wind_dir := _max_wind_dir m;
     _vrb := _vrb m; _vis := _vis m; _vis_units := _vis_units m;
     _vis_lt := _vis_lt m; _cavok := _cavok m; _layers := _layers m;
     _vert_vis := _vert_vis m; _temp := _temp m; _dew := _dew m;
     _altimeterA := _altimeterA m; _altimeterQ := _altimeterQ m;
     _slp := _slp m; _ftemp := _ftemp m; _fdew := _fdew m;
     _previous_element := _previous_element m |}.

Definition set_gust (v : Z) (m : Metar) : Metar :=
  {| _metar := _metar m; _icao := _icao m; _day := _day m; _hour := _hour m;
     _min := _min m; _wind_dir := _wind_dir m; _wind_spd := _wind_spd m;
     _gust := v; _wind_speed_units := _wind_speed_units m;
     _min_wind_dir := _min_wind_dir m; _max_wind_dir := _max_wind_dir m;
     _vrb := _vrb m; _vis := _vis m; _vis_units := _vis_units m;
     _vis_lt := _vis_lt m; _cavok := _cavok m; _layers := _layers m;
     _vert_vis := _vert_vis m; _temp := _temp m; _dew := _dew m;
     _altimeterA := _altimeterA m; _altimeterQ := _altimeterQ m;
     _slp := _slp m; _ftemp := _ftemp m; _fdew := _fdew m;
     _previous_element := _previous_element m |}.

Definition set_wind_speed_units (v : option cstring) (m : Metar) : Metar :=
  {| _metar := _metar m; _icao := _icao m; _day := _day m; _hour := _hour m;
     _min := _min m; _wind_dir := _wind_dir m; _wind_spd := _wind_spd m;
     _gust := _gust m; _wind_speed_units := v;
     _min_wind_dir := _min_wind_dir m; _max_wind_dir := _max_wind_dir m;
     _vrb := _vrb m; _vis := _vis m; _vis_units := _vis_units m;
     _vis_lt := _vis_lt m; _cavok := _cavok m; _layers := _layers m;
     _vert_vis := _vert_vis m; _temp := _temp m; _dew := _dew m;
     _altimeterA := _altimeterA m; _altimeterQ := _altimeterQ m;
     _slp := _slp m; _ftemp := _ftemp m; _fdew := _fdew m;
     _previous_element := _previous_element m |}.

Definition set_min_wind_dir (v : Z) (m : Metar) : Metar :=
  {| _metar := _metar m; _icao := _icao m; _day := _day m; _hour := _hour m;
     _min := _min m; _wind_dir := _wind_dir m; _wind_spd := _wind_spd m;
     _gust := _gust m; _wind_speed_units := _wind_speed_units m;
     _min_wind_dir := v; _max_wind_dir := _max_wind_dir m; _vrb := _vrb m;
     _vis := _vis m; _vis_units := _vis_units m; _vis_lt := _vis_lt m;
     _cavok := _cavok m; _layers := _layers m; _vert_vis := _vert_vis m;
     _temp := _temp m; _dew := _dew m; _altimeterA := _altimeterA m;
     _altimeterQ := _altimeterQ m; _slp := _slp m; _ftemp := _ftemp m;
     _fdew := _fdew m; _previous_element := _previous_element m |}.

Definition set_max_wind_dir (v : Z) (m : Metar) : Metar :=
  {| _metar := _metar m; _icao := _icao m; _day := _day m; _hour := _hour m;
     _min := _min m; _wind_dir := _wind_dir m; _wind_spd := _wind_spd m;
     _gust := _gust m; _wind_speed_units := _wind_speed_units m;
     _min_wind_dir := _min_wind_dir m; _max_wind_dir := v; _vrb := _vrb m;
     _vis := _vis m; _vis_units := _vis_units m; _vis_lt := _vis_lt m;
     _cavok := _cavok m; _layers := _layers m; _vert_vis := _vert_vis m;
     _temp := _temp m; _dew := _dew m; _altimeterA := _altimeterA m;
     _altimeterQ := _altimeterQ m; _slp := _slp m; _ftemp := _ftemp m;
     _fdew := _fdew m; _previous_element := _previous_element m |}.

Definition set_vrb (v : bool) (m : Metar) : Metar :=
  {| _metar := _metar m; _icao := _icao m; _day := _day m; _hour := _hour m;
     _min := _min m; _wind_dir := _wind_dir m; _wind_spd := _wind_spd m;
     _gust := _gust m; _wind_speed_units := _wind_speed_units m;
     _min_wind_dir := _min_wind_dir m; _max_wind_dir := _max_wind_dir m;
     _vrb := v; _vis := _vis m; _vis_units := _vis_units m;
     _vis_lt := _vis_lt m; _cavok := _cavok m; _layers := _layers m;
     _vert_vis := _vert_vis m; _temp := _temp m; _dew := _dew m;
     _altimeterA := _altimeterA m; _altimeterQ := _altimeterQ m;
     _slp := _slp m; _ftemp := _ftemp m; _fdew := _fdew m;
     _previous_element := _previous_element m |}.

Definition set_vis (v : float) (m : Metar) : Metar :=
  {| _metar := _metar m; _icao := _icao m; _day := _day m; _hour := _hour m;
     _min := _min m; _wind_dir := _wind_dir m; _wind_spd := _wind_spd m;
     _gust := _gust m; _wind_speed_units := _wind_speed_units m;
     _min_wind_dir := _min_wind_dir m; _max_wind_dir := _max_wind_dir m;
     _vrb := _vrb m; _vis := v; _vis_units := _vis_units m;
     _vis_lt := _vis_lt m; _cavok := _cavok m; _layers := _layers m;
     _vert_vis := _vert_vis m; _temp := _temp m; _dew := _dew m;
     _altimeterA := _altimeterA m; _altimeterQ := _altimeterQ m;
     _slp := _slp m; _ftemp := _ftemp m; _fdew := _fdew m;
     _previous_element := _previous_element m |}.

Definition set_vis_units (v : option cstring) (m : Metar) : Metar :=
  {| _metar := _metar m; _icao := _icao m; _day := _day m; _hour := _hour m;
     _min := _min m; _wind_dir := _wind_dir m; _wind_spd := _wind_spd m;
     _gust := _gust m; _wind_speed_units := _wind_speed_units m;
     _min_wind_dir := _min_wind_dir m; _max_wind_dir := _max_wind_dir m;
     _vrb := _vrb m; _vis := _vis m; _vis_units := v; _vis_lt := _vis_lt m;
     _cavok := _cavok m; _layers := _layers m; _vert_vis := _vert_vis m;
     _temp := _temp m; _dew := _dew m; _altimeterA := _altimeterA m;
     _altimeterQ := _altimeterQ m; _slp := _slp m; _ftemp := _ftemp m;
     _fdew := _fdew m; _previous_element := _previous_element m |}.

Definition set_vis_lt (v : bool) (m : Metar) : Metar :=
  {| _metar := _metar m; _icao := _icao m; _day := _day m; _hour := _hour m;
     _min := _min m; _wind_dir := _wind_dir m; _wind_spd := _wind_spd m;
     _gust := _gust m; _wind_speed_units := _wind_speed_units m;
     _min_wind_dir := _min_wind_dir m; _max_wind_dir := _max_wind_dir m;
     _vrb := _vrb m; _vis := _vis m; _vis_units := _vis_units m;
     _vis_lt := v; _cavok := _cavok m; _layers := _layers m;
     _vert_vis := _vert_vis m; _temp := _temp m; _dew := _dew m;
     _altimeterA := _altimeterA m; _altimeterQ := _altimeterQ m;
     _slp := _slp m; _ftemp := _ftemp m; _fdew := _fdew m;
     _previous_element := _previous_element m |}.

Definition set_cavok (v : bool) (m : Metar) : Metar :=
  {| _metar := _metar m; _icao := _icao m; _day := _day m; _hour := _hour m;
     _min := _min m; _wind_dir := _wind_dir m; _wind_spd := _wind_spd m;
     _gust := _gust m; _wind_speed_units := _wind_speed_units m;
     _min_wind_dir := _min_wind_dir m; _max_wind_dir := _max_wind_dir m;
     _vrb := _vrb m; _vis := _vis m; _vis_units := _vis_units m;
     _vis_lt := _vis_lt m; _cavok := v; _layers := _layers m;
     _vert_vis := _vert_vis m; _temp := _temp m; _dew := _dew m;
     _altimeterA := _altimeterA m; _altimeterQ := _altimeterQ m;
     _slp := _slp m; _ftemp := _ftemp m; _fdew := _fdew m;
     _previous_element := _previous_element m |}.

Definition set_layers (v : list SkyConditionImpl) (m : Metar) : Metar :=
  {| _metar := _metar m; _icao := _icao m; _day := _day m; _hour := _hour m;
     _min := _min m; _wind_dir := _wind_dir m; _wind_spd := _wind_spd m;
     _gust := _gust m; _wind_speed_units := _wind_speed_units m;
     _min_wind_dir := _min_wind_dir m; _max_wind_dir := _max_wind_dir m;
     _vrb := _vrb m; _vis := _vis m; _vis_units := _vis_units m;
     _vis_lt := _vis_lt m; _cavok := _cavok m; _layers := v;
     _vert_vis := _vert_vis m; _temp := _temp m; _dew := _dew m;
     _altimeterA := _altimeterA m; _altimeterQ := _altimeterQ m;
     _slp := _slp m; _ftemp := _ftemp m; _fdew := _fdew m;
     _previous_element := _previous_element m |}.

Definition set_vert_vis (v : Z) (m : Metar) : Metar :=
  {| _metar := _metar m; _icao := _icao m; _day := _day m; _hour := _hour m;
     _min := _min m; _wind_dir := _wind_dir m; _wind_spd := _wind_spd m;
     _gust := _gust m; _wind_speed_units := _wind_speed_units m;
     _min_wind_dir := _min_wind_dir m; _max_wind_dir := _max_wind_dir m;
     _vrb := _vrb m; _vis := _vis m; _vis_units := _vis_units m;
     _vis_lt := _vis_lt m; _cavok := _cavok m; _layers := _layers m;
     _vert_vis := v; _temp := _temp m; _dew := _dew m;
     _altimeterA := _altimeterA m; _altimeterQ := _altimeterQ m;
     _slp := _slp m; _ftemp := _ftemp m; _fdew := _fdew m;
     _previous_element := _previous_element m |}.

Definition set_temp (v : Z) (m : Metar) : Metar :=
  {| _metar := _metar m; _icao := _icao m; _day := _day m; _hour := _hour m;
     _min := _min m; _wind_dir := _wind_dir m; _wind_spd := _wind_spd m;
     _gust := _gust m; _wind_speed_units := _wind_speed_units m;
     _min_wind_dir := _min_wind_dir m; _max_wind_dir := _max_wind_dir m;
     _vrb := _vrb m; _vis := _vis m; _vis_units := _vis_units m;
     _vis_lt := _vis_lt m; _cavok := _cavok m; _layers := _layers m;
     _vert_vis := _vert_vis m; _temp := v; _dew := _dew m;
     _altimeterA := _altimeterA m; _altimeterQ := _altimeterQ m;
     _slp := _slp m; _ftemp := _ftemp m; _fdew := _fdew m;
     _previous_element := _previous_element m |}.

Definition set_dew (v : Z) (m : Metar) : Metar :=
  {| _metar := _metar m; _icao := _icao m; _day := _day m; _hour := _hour m;
     _min := _min m; _wind_dir := _wind_dir m; _wind_spd := _wind_spd m;
     _gust := _gust m; _wind_speed_units := _wind_speed_units m;
     _min_wind_dir := _min_wind_dir m; _max_wind_dir := _max_wind_dir m;
     _vrb := _vrb m; _vis := _vis m; _vis_units := _vis_units m;
     _vis_lt := _vis_lt m; _cavok := _cavok m; _layers := _layers m;
     _vert_vis := _vert_vis m; _temp := _temp m; _dew := v;
     _altimeterA := _altimeterA m; _altimeterQ := _altimeterQ m;
     _slp := _slp m; _ftemp := _ftemp m; _fdew := _fdew m;
     _previous_element := _previous_element m |}.

Definition set_altimeterA (v : float) (m : Metar) : Metar :=
  {| _metar := _metar m; _icao := _icao m; _day := _day m; _hour := _hour m;
     _min := _min m; _wind_dir := _wind_dir m; _wind_spd := _wind_spd m;
     _gust := _gust m; _wind_speed_units := _wind_speed_units m;
     _min_wind_dir := _min_wind_dir m; _max_wind_dir := _max_wind_dir m;
     _vrb := _vrb m; _vis := _vis m; _vis_units := _vis_units m;
     _vis_lt := _vis_lt m; _cavok := _cavok m; _layers := _layers m;
     _vert_vis := _vert_vis m; _temp := _temp m; _dew := _dew m;
     _altimeterA := v; _altimeterQ := _altimeterQ m; _slp := _slp m;
     _ftemp := _ftemp m; _fdew := _fdew m;
     _previous_element := _previous_element m |}.

Definition set_altimeterQ (v : Z) (m : Metar) : Metar :=
  {| _metar := _metar m; _icao := _icao m; _day := _day m; _hour := _hour m;
     _min := _min m; _wind_dir := _wind_dir m; _wind_spd := _wind_spd m;
     _gust := _gust m; _wind_speed_units := _wind_speed_units m;
     _min_wind_dir := _min_wind_dir m; _max_wind_dir := _max_wind_dir m;
     _vrb := _vrb m; _vis := _vis m; _vis_units := _vis_units m;
     _vis_lt := _vis_lt m; _cavok := _cavok m; _layers := _layers m;
     _vert_vis := _vert_vis m; _temp := _temp m; _dew := _dew m;
     _altimeterA := _altimeterA m; _altimeterQ := v; _slp := _slp m;
     _ftemp := _ftemp m; _fdew := _fdew m;
     _previous_element := _previous_element m |}.

Definition set_slp (v : float) (m : Metar) : Metar :=
  {| _metar := _metar m; _icao := _icao m; _day := _day m; _hour := _hour m;
     _min := _min m; _wind_dir := _wind_dir m; _wind_spd := _wind_spd m;
     _gust := _gust m; _wind_speed_units := _wind_speed_units m;
     _min_wind_dir := _min_wind_dir m; _max_wind_dir := _max_wind_dir m;
     _vrb := _vrb m; _vis := _vis m; _vis_units := _vis_units m;
     _vis_lt := _vis_lt m; _cavok := _cavok m; _layers := _layers m;
     _vert_vis := _vert_vis m; _temp := _temp m; _dew := _dew m;
     _altimeterA := _altimeterA m; _altimeterQ := _altimeterQ m; _slp := v;
     _ftemp := _ftemp m; _fdew := _fdew m;
     _previous_element := _previous_element m |}.

Definition set_ftemp (v : float) (m : Metar) : Metar :=
  {| _metar := _metar m; _icao := _icao m; _day := _day m; _hour := _hour m;
     _min := _min m; _wind_dir := _wind_dir m; _wind_spd := _wind_spd m;
     _gust := _gust m; _wind_speed_units := _wind_speed_units m;
     _min_wind_dir := _min_wind_dir m; _max_wind_dir := _max_wind_dir m;
     _vrb := _vrb m; _vis := _vis m; _vis_units := _vis_units m;
     _vis_lt := _vis_lt m; _cavok := _cavok m; _layers := _layers m;
     _vert_vis := _vert_vis m; _temp := _temp m; _dew := _dew m;
     _altimeterA := _altimeterA m; _altimeterQ := _altimeterQ m;
     _slp := _slp m; _ftemp := v; _fdew := _fdew m;
     _previous_element := _previous_element m |}.

Definition set_fdew (v : float) (m : Metar) : Metar :=
  {| _metar := _metar m; _icao := _icao m; _day := _day m; _hour := _hour m;
     _min := _min m; _wind_dir := _wind_dir m; _wind_spd := _wind_spd m;
     _gust := _gust m; _wind_speed_units := _wind_speed_units m;
     _min_wind_dir := _min_wind_dir m; _max_wind_dir := _max_wind_dir m;
     _vrb := _vrb m; _vis := _vis m; _vis_units := _vis_units m;
     _vis_lt := _vis_lt m; _cavok := _cavok m; _layers := _layers m;
     _vert_vis := _vert_vis m; _temp := _temp m; _dew := _dew m;
     _altimeterA := _altimeterA m; _altimeterQ := _altimeterQ m;
     _slp := _slp m; _ftemp := _ftemp m; _fdew := v;
     _previous_element := _previous_element m |}.

Definition set_previous_element (v : option cstring) (m : Metar) : Metar :=
  {| _metar := _metar m; _icao := _icao m; _day := _day m; _hour := _hour m;
     _min := _min m; _wind_dir := _wind_dir m; _wind_spd := _wind_spd m;
     _gust := _gust m; _wind_speed_units := _wind_speed_units m;
     _min_wind_dir := _min_wind_dir m; _max_wind_dir := _max_wind_dir m;
     _vrb := _vrb m; _vis := _vis m; _vis_units := _vis_units m;
     _vis_lt := _vis_lt m; _cavok := _cavok m; _layers := _layers m;
     _vert_vis := _vert_vis m; _temp := _temp m; _dew := _dew m;
     _altimeterA := _altimeterA m; _altimeterQ := _altimeterQ m;
     _slp := _slp m; _ftemp := _ftemp m; _fdew := _fdew m;
     _previous_element := v |}.

(** The constructor [Metar::Metar()]. *)
Definition Metar_init : Metar :=
  {| _metar := []; _icao := [];
     _day := _INTEGER_UNDEFINED; _hour := _INTEGER_UNDEFINED;
     _min := _INTEGER_UNDEFINED;
     _wind_dir := _INTEGER_UNDEFINED; _wind_spd := _INTEGER_UNDEFINED;
     _gust := _INTEGER_UNDEFINED; _wind_speed_units := None;
     _min_wind_dir := _INTEGER_UNDEFINED; _max_wind_dir := _INTEGER_UNDEFINED;
     _vrb := false;
     _vis := _DOUBLE_UNDEFINED; _vis_units := None; _vis_lt := false;
     _cavok := false;
     _layers := [];
     _vert_vis := _INTEGER_UNDEFINED;
     _temp := _INTEGER_UNDEFINED; _dew := _INTEGER_UNDEFINED;
     _altimeterA := _DOUBLE_UNDEFINED; _altimeterQ := _INTEGER_UNDEFINED;
     _slp := _DOUBLE_UNDEFINED;
     _ftemp := _DOUBLE_UNDEFINED; _fdew := _DOUBLE_UNDEFINED;
     _previous_element := None |}.

(** ** Presence predicates *)

Definition int_defined (z : Z) : bool := negb (z =? _INTEGER_UNDEFINED)%Z.
Definition double_defined (x : float) : bool := float_neq x _DOUBLE_UNDEFINED.
Definition nonempty (s : cstring) : bool :=
  match s with [] => false | _ :: _ => true end.

(** Modelled from the spec: the header [metar.h], which declares the [has...]
    accessors used by [Metar::parse], is missing.  Each field is "present or
    absent", and the members are initialised to the sentinels
    [_INTEGER_UNDEFINED], [_DOUBLE_UNDEFINED] and the empty string, so a field
    is present when it differs from its sentinel, as [hasAltitude] of
    [SkyConditionImpl] does in [metar.cpp]. *)
Definition hasMETAR (m : Metar) : bool := nonempty (_metar m).
Definition hasICAO (m : Metar) : bool := nonempty (_icao m).
Definition hasDay (m : Metar) : bool := int_defined (_day m).
Definition hasHour (m : Metar) : bool := int_defined (_hour m).
Definition hasMinute (m : Metar) : bool := int_defined (_min m).
Definition hasWindDirection (m : Metar) : bool := int_defined (_wind_dir m).
Definition hasWindSpeed (m : Metar) : bool := int_defined (_wind_spd m).
Definition hasWindGust (m : Metar) : bool := int_defined (_gust m).
Definition hasMinWindDirection (m : Metar) : bool := int_defined (_min_wind_dir m).
Definition hasMaxWindDirection (m : Metar) : bool := int_defined (_max_wind_dir m).
Definition hasVisibility (m : Metar) : bool := double_defined (_vis m).
Definition hasVerticalVisibility (m : Metar) : bool := int_defined (_vert_vis m).
Definition hasTemperature (m : Metar) : bool := int_defined (_temp m).
Definition hasDewPoint (m : Metar) : bool := int_defined (_dew m).
Definition hasAltimeterA (m : Metar) : bool := double_defined (_altimeterA m).
Definition hasAltimeterQ (m : Metar) : bool := int_defined (_altimeterQ m).
Definition hasSeaLevelPressure (m : Metar) : bool := double_defined (_slp m).
Definition hasTemperatureNA (m : Metar) : bool := double_defined (_ftemp m).
Definition hasDewPointNA (m : Metar) : bool := double_defined (_fdew m).

(** ** Tokens *)

(** What [el] points to inside the buffer that [strtok] cuts up: the token,
    and the bytes that lie behind its terminator.  Only [parse_cloud_layer]
    looks there. *)
Record elem := mkElem {
  tok : cstring;
  beyond : nat -> ascii
}.

(** [str[i]]. *)
Definition char_at (el : elem) (i : nat) : ascii :=
  if (i <? length (tok el))%nat then nth i (tok el) NUL
  else if (i =? length (tok el))%nat then NUL
  else beyond el (i - length (tok el) - 1).

(** [strcmp(str + off, s) == 0]. *)
Definition streq_at (el : elem) (off : nat) (s : cstring) : bool :=
  forallb (fun i => Ascii.eqb (char_at el (off + i)) (nth i s NUL))
          (seq 0 (S (length s))).

(** The bytes behind the terminator that [strtok] writes over the delimiter
    in front of [rest]: the rest of the string, its terminator, and whatever
    memory follows the string. *)
Definition mem_after (rest : cstring) (past : nat -> ascii) : nat -> ascii :=
  fun i =>
    if (i <? length rest)%nat then nth i rest NUL
    else if (i =? length rest)%nat then NUL
    else past (i - length rest - 1).

(** The successive results of [strtok(..., " ")] on the string [s]; [cur]
    collects the token being scanned. *)
Fixpoint tokenize (past : nat -> ascii) (cur s : cstring) : list elem :=
  match s with
  | [] => match cur with
          | [] => []
          | _ :: _ => [mkElem cur past]
          end
  | c :: r =>
      if Ascii.eqb c " " then
        match cur with
        | [] => tokenize past [] r
        | _ :: _ => mkElem cur (mem_after r past) :: tokenize past [] r
        end
      else tokenize past (cur ++ [c]) r
  end.

(** ** Field sub-parsers *)

Definition parse_metar (m : Metar) (str : cstring) : Metar := set_metar str m.

Definition parse_icao (m : Metar) (str : cstring) : Metar := set_icao str m.

(** [parse_ot] when its copies stay inside [val]: the day and the hour are
    read from two copies of two characters, the minute from a copy of what
    follows the fourth character.  The array that the source declares,
    [char val[3]], is too small for that last copy ([parse_ot_need] below). *)
Definition parse_ot (m : Metar) (str : cstring) : Metar :=
  let m := set_day (atoi (strncpy str 2)) m in
  let m := set_hour (atoi (strncpy (skipn 2 str) 2)) m in
  set_min (atoi (skipn 4 str)) m.

Definition found (r : option nat) : bool :=
  match r with Some _ => true | None => false end.

Definition parse_wind (m : Metar) (str : cstring) : Metar :=
  let m :=
    if found (strstr str WIND_SPEED_MPS)
    then set_wind_speed_units (Some WIND_SPEED_MPS) m
    else if found (strstr str WIND_SPEED_KPH)
         then set_wind_speed_units (Some WIND_SPEED_KPH) m
         else set_wind_speed_units (Some WIND_SPEED_KT) m in
  let m :=
    if negb (found (strstr str (lit "VRB")))
    then set_wind_dir (atoi (strncpy str 3)) m
    else set_vrb true m in
  let m := set_wind_spd (atoi (strncpy (skipn 3 str) 3)) m in
  match strstr str (lit "G") with
  | Some g => set_gust (atoi (strncpy (skipn (g + 1) str) 3)) m
  | None => m
  end.

Definition parse_wind_var (m : Metar) (str : cstring) : Metar :=
  let m := set_min_wind_dir (atoi (strncpy str 3)) m in
  set_max_wind_dir (atoi (skipn 4 str)) m.

(** [match("#", _previous_element)], null pointer included. *)
Definition previous_is_digit (m : Metar) : bool :=
  match _previous_element m with
  | Some prev => match_ (lit "#") prev
  | None => false
  end.

Definition atof_previous (m : Metar) : float :=
  match _previous_element m with
  | Some prev => atof prev
  | None => 0%float
  end.

(** [parse_vis] when its copies stay inside [val].  It runs on tokens
    accepted by [is_vis], where a ['/'] lies in front of the unit marker, so
    the pointer difference [u - p] is positive.  The copies of the numerator
    and of the denominator have the lengths [p - str] and [u - p], which the
    source does not compare with the size of [char val[4]]
    ([parse_vis_need] below). *)
Definition parse_vis (m : Metar) (str : cstring) : Metar :=
  if streq str (lit "CAVOK") then set_cavok true m
  else
    match strstr str VIS_UNITS_SM with
    | None => set_vis_units (Some VIS_UNITS_M) (set_vis (atof str) m)
    | Some u =>
        let m :=
          match strstr str (lit "/") with
          | None => set_vis (atof str) m
          | Some p =>
              let len := p in
              let val := if Ascii.eqb (hd NUL str) "M"
                         then strncpy (skipn 1 str) len
                         else strncpy str len in
              let m := if Ascii.eqb (hd NUL str) "M"
                       then set_vis_lt true m else m in
              let numerator := atof val in
              let len := (u - p)%nat in
              let denominator := atof (strncpy (skipn (p + 1) str) len) in
              let m := set_vis (numerator / denominator)%float m in
              if previous_is_digit m
              then set_vis (_vis m + atof_previous m)%float m
              else m
          end in
        set_vis_units (Some VIS_UNITS_SM) m
    end.

(** The layer built for a token that starts with the cover code [sc]. *)
Definition new_layer (sc : cstring) (el : elem) : SkyConditionImpl :=
  if Ascii.eqb (char_at el 3) NUL then mkSky sc INT_MIN None
  else if Ascii.eqb (char_at el 6) NUL
       then mkSky sc (wrap32 (atoi (skipn 3 (tok el)) * 100)) None
       else mkSky sc (wrap32 (atoi (skipn 3 (tok el)) * 100))
                  (find (fun t => streq_at el 6 t) cloud_types).

Definition parse_cloud_layer (m : Metar) (el : elem) : Metar :=
  fold_left
    (fun m sc =>
       if starts_with sc (tok el)
       then set_layers (_layers m ++ [new_layer sc el]) m
       else m)
    sky_conditions m.

Definition parse_vert_vis (m : Metar) (str : cstring) : Metar :=
  set_vert_vis (wrap32 (atoi (skipn 2 str) * 100)) m.

Definition temp (val : cstring) : Z :=
  if Ascii.eqb (hd NUL val) "M" then atoi ("-"%char :: tl val) else atoi val.

(** [parse_temp] runs on tokens accepted by [is_temp], which contain a
    ['/']. *)
Definition parse_temp (m : Metar) (str : cstring) : Metar :=
  match strstr str (lit "/") with
  | Some p =>
      let m := set_temp (temp (strncpy str p)) m in
      if negb (Ascii.eqb (nth (p + 1) str NUL) NUL)
      then set_dew (temp (skipn (p + 1) str)) m
      else m
  | None => m
  end.

Definition parse_alt (m : Metar) (str : cstring) : Metar :=
  let val := atoi (skipn 1 str) in
  if Ascii.eqb (hd NUL str) "Q"
  then set_altimeterQ val m
  else set_altimeterA (float_of_Z val / 100)%float m.

Definition parse_slp (m : Metar) (str : cstring) : Metar :=
  set_slp (atof (skipn 3 str) / 10 + 1000)%float m.

Definition tempNA (val : cstring) : float :=
  if Ascii.eqb (hd NUL val) "1"
  then (atof ("-"%char :: tl val) / 10)%float
  else (atof val / 10)%float.

Definition parse_tempNA (m : Metar) (str : cstring) : Metar :=
  let m := set_ftemp (tempNA (strncpy (skipn 1 str) 4)) m in
  set_fdew (tempNA (skipn 5 str)) m.

(** ** Scratch buffers

    The sub-parsers copy pieces of the token into a local array [val].
    [strncpy(val, src, n); val[n] = '\0'] writes the bytes [val[0]] to
    [val[n]], and [strcpy(val, src)] the bytes [val[0]] to
    [val[strlen(src)]].  For each sub-parser that has one: the size of [val]
    as declared, and the number of bytes of [val] that its copies write on
    the token [str]. *)

Definition strncpy_need (n : nat) : nat := S n.

Definition strcpy_need (src : cstring) : nat := S (length src).

Definition parse_ot_val : nat := 3.

Definition parse_ot_need (str : cstring) : nat :=
  Nat.max (strncpy_need 2)
    (Nat.max (strncpy_need 2) (strcpy_need (skipn 4 str))).

Definition parse_wind_val : nat := 4.

Definition parse_wind_need (str : cstring) : nat :=
  Nat.max (if negb (found (strstr str (lit "VRB")))
           then strncpy_need 3 else 0%nat)
    (Nat.max (strncpy_need 3)
       match strstr str (lit "G") with
       | Some _ => strncpy_need 3
       | None => 0%nat
       end).

Definition parse_wind_var_val : nat := 4.

Definition parse_wind_var_need (str : cstring) : nat :=
  Nat.max (strncpy_need 3) (strcpy_need (skipn 4 str)).

Definition parse_vis_val : nat := 4.

Definition parse_vis_need (str : cstring) : nat :=
  if streq str (lit "CAVOK") then 0%nat
  else
    match strstr str VIS_UNITS_SM with
    | None => 0%nat
    | Some u =>
        match strstr str (lit "/") with
        | None => 0%nat
        | Some p => Nat.max (strncpy_need p) (strncpy_need (u - p))
        end
    end.

Definition parse_temp_val : nat := 4.

Definition parse_temp_need (str : cstring) : nat :=
  match strstr str (lit "/") with
  | Some p =>
      Nat.max (strncpy_need p)
        (if negb (Ascii.eqb (nth (p + 1) str NUL) NUL)
         then strcpy_need (skipn (p + 1) str) else 0%nat)
  | None => 0%nat
  end.

Definition parse_tempNA_val : nat := 5.

Definition parse_tempNA_need (str : cstring) : nat :=
  Nat.max (strncpy_need 4) (strcpy_need (skipn 5 str)).

(** ** The decoding loop *)

(** One turn of the [while] loop of [Metar::parse]. *)
Definition parse_element (m : Metar) (el : elem) : Metar :=
  let str := tok el in
  let m :=
    if negb (hasMETAR m) && is_metar str then parse_metar m str
    else if negb (hasICAO m) && is_icao str then parse_icao m str
    else if negb (hasMinute m) && is_ot str then parse_ot m str
    else if negb (hasWindSpeed m) && is_wind str then parse_wind m str
    else if negb (hasMinWindDirection m) && is_wind_var str
         then parse_wind_var m str
    else if negb (hasVisibility m) && negb (_cavok m) && is_vis str
         then parse_vis m str
    else if (_num_layers m <? _MAX_CLOUD_LAYERS)%nat && is_cloud_layer str
         then parse_cloud_layer m el
    else if negb (hasVerticalVisibility m) && is_vert_vis str
         then parse_vert_vis m str
    else if negb (hasTemperature m) && is_temp str then parse_temp m str
    else if negb (hasAltimeterA m) && is_altA str then parse_alt m str
    else if negb (hasAltimeterQ m) && is_altQ str then parse_alt m str
    else if negb (hasSeaLevelPressure m) && is_slp str then parse_slp m str
    else if negb (hasTemperatureNA m) && is_tempNA str then parse_tempNA m str
    else m in
  set_previous_element (Some str) m.

Definition parse_tokens (m : Metar) (els : list elem) : Metar :=
  fold_left parse_element els m.

(** [Metar::Metar] on a string: the loop over the tokens of the string.
    [past] is the memory behind the terminator of the string. *)
Definition tokens_of (past : nat -> ascii) (s : string) : list elem :=
  tokenize past [] (c_str (lit s)).

Definition Metar_parse (past : nat -> ascii) (s : string) : Metar :=
  parse_tokens Metar_init (tokens_of past s).

(** ** The dispatch of [Metar::parse] as a table

    The [if]/[else if] chain of [parse_element] tests, in a fixed order, a
    presence guard and a shape predicate, and runs the sub-parser of the
    first branch whose test succeeds. *)

Inductive branch :=
| BMetar | BIcao | BOt | BWind | BWindVar | BVis | BCloud | BVertVis
| BTemp | BAltA | BAltQ | BSlp | BTempNA.

Definition branches : list branch :=
  [BMetar; BIcao; BOt; BWind; BWindVar; BVis; BCloud; BVertVis;
   BTemp; BAltA; BAltQ; BSlp; BTempNA].

(** The guard of a branch is the negation of [closed]. *)
Definition closed (b : branch) (m : Metar) : bool :=
  match b with
  | BMetar => hasMETAR m
  | BIcao => hasICAO m
  | BOt => hasMinute m
  | BWind => hasWindSpeed m
  | BWindVar => hasMinWindDirection m
  | BVis => hasVisibility m || _cavok m
  | BCloud => negb (_num_layers m <? _MAX_CLOUD_LAYERS)%nat
  | BVertVis => hasVerticalVisibility m
  | BTemp => hasTemperature m
  | BAltA => hasAltimeterA m
  | BAltQ => hasAltimeterQ m
  | BSlp => hasSeaLevelPressure m
  | BTempNA => hasTemperatureNA m
  end.

Definition shape (b : branch) (str : cstring) : bool :=
  match b with
  | BMetar => is_metar str
  | BIcao => is_icao str
  | BOt => is_ot str
  | BWind => is_wind str
  | BWindVar => is_wind_var str
  | BVis => is_vis str
  | BCloud => is_cloud_layer str
  | BVertVis => is_vert_vis str
  | BTemp => is_temp str
  | BAltA => is_altA str
  | BAltQ => is_altQ str
  | BSlp => is_slp str
  | BTempNA => is_tempNA str
  end.

Definition sub_parser (b : branch) (m : Metar) (el : elem) : Metar :=
  match b with
  | BMetar => parse_metar m (tok el)
  | BIcao => parse_icao m (tok el)
  | BOt => parse_ot m (tok el)
  | BWind => parse_wind m (tok el)
  | BWindVar => parse_wind_var m (tok el)
  | BVis => parse_vis m (tok el)
  | BCloud => parse_cloud_layer m el
  | BVertVis => parse_vert_vis m (tok el)
  | BTemp => parse_temp m (tok el)
  | BAltA => parse_alt m (tok el)
  | BAltQ => parse_alt m (tok el)
  | BSlp => parse_slp m (tok el)
  | BTempNA => parse_tempNA m (tok el)
  end.

(** The branch that the chain takes in state [m] on the token [str]. *)
Definition dispatch (m : Metar) (str : cstring) : option branch :=
  find (fun b => negb (closed b m) && shape b str) branches.

(** The data members that a branch owns. *)
Inductive fieldval :=
| FText (s : cstring)
| FTime (day hour minute : Z)
| FWind (dir spd gust : Z) (units : option cstring) (vrb : bool)
| FRange (lo hi : Z)
| FVis (vis : float) (units : option cstring) (lt cavok : bool)
| FLayers (l : list SkyConditionImpl)
| FInt (z : Z)
| FTemp (t d : Z)
| FReal (x : float)
| FTempNA (t d : float).

Definition field (b : branch) (m : Metar) : fieldval :=
  match b with
  | BMetar => FText (_metar m)
  | BIcao => FText (_icao m)
  | BOt => FTime (_day m) (_hour m) (_min m)
  | BWind => FWind (_wind_dir m) (_wind_spd m) (_gust m)
                   (_wind_speed_units m) (_vrb m)
  | BWindVar => FRange (_min_wind_dir m) (_max_wind_dir m)
  | BVis => FVis (_vis m) (_vis_units m) (_vis_lt m) (_cavok m)
  | BCloud => FLayers (_layers m)
  | BVertVis => FInt (_vert_vis m)
  | BTemp => FTemp (_temp m) (_dew m)
  | BAltA => FReal (_altimeterA m)
  | BAltQ => FInt (_altimeterQ m)
  | BSlp => FReal (_slp m)
  | BTempNA => FTempNA (_ftemp m) (_fdew m)
  end.

(** The tokens of a report, as strings. *)
Definition token_strings (past : nat -> ascii) (s : string) : list cstring :=
  map tok (tokens_of past s).

(** ** The decoder with its arrays

    The sub-parsers above give what is stored when every copy stays inside
    the array [val] of its sub-parser.  A copy that writes beyond the array
    has no defined behaviour, whatever the function above computes.  The
    decoder below takes the sizes of the arrays as a parameter and returns a
    report only when no copy leaves its array. *)

(** The sizes of the arrays [val], one for each sub-parser that has one. *)
Record arrays := mkArrays {
  ot_val : nat;
  wind_val : nat;
  wind_var_val : nat;
  vis_val : nat;
  temp_val : nat;
  tempNA_val : nat
}.

(** The sizes that [metar.cpp] declares. *)
Definition declared : arrays :=
  {| ot_val := parse_ot_val;
     wind_val := parse_wind_val;
     wind_var_val := parse_wind_var_val;
     vis_val := parse_vis_val;
     temp_val := parse_temp_val;
     tempNA_val := parse_tempNA_val |}.

(** The declared sizes, but for the array of [parse_ot]. *)
Definition with_ot_val (n : nat) : arrays :=
  {| ot_val := n;
     wind_val := parse_wind_val;
     wind_var_val := parse_wind_var_val;
     vis_val := parse_vis_val;
     temp_val := parse_temp_val;
     tempNA_val := parse_tempNA_val |}.

(** Whether the copies of the sub-parser of a branch stay inside its array
    on the token [str].  The other sub-parsers have no array of their own.
    [parse_metar] and [parse_icao] copy the token, of five and of four
    characters, into the data members [_metar] and [_icao]; these are
    declared in [metar.h], which is missing, and are taken to hold the
    token. *)
Definition copies_fit (a : arrays) (b : branch) (str : cstring) : bool :=
  match b with
  | BOt => (parse_ot_need str <=? ot_val a)%nat
  | BWind => (parse_wind_need str <=? wind_val a)%nat
  | BWindVar => (parse_wind_var_need str <=? wind_var_val a)%nat
  | BVis => (parse_vis_need str <=? vis_val a)%nat
  | BTemp => (parse_temp_need str <=? temp_val a)%nat
  | BTempNA => (parse_tempNA_need str <=? tempNA_val a)%nat
  | BMetar | BIcao | BCloud | BVertVis | BAltA | BAltQ | BSlp => true
  end.

(** One turn of the loop: [None] when the sub-parser that takes the token
    writes outside its array. *)
Definition parse_element_checked (a : arrays) (m : Metar) (el : elem)
  : option Metar :=
  match dispatch m (tok el) with
  | Some b =>
      if copies_fit a b (tok el) then Some (parse_element m el) else None
  | None => Some (parse_element m el)
  end.

Fixpoint parse_tokens_checked (a : arrays) (m : Metar) (els : list elem)
  : option Metar :=
  match els with
  | [] => Some m
  | el :: rest =>
      match parse_element_checked a m el with
      | Some m' => parse_tokens_checked a m' rest
      | None => None
      end
  end.

Definition Metar_parse_checked (a : arrays) (past : nat -> ascii) (s : string)
  : option Metar :=
  parse_tokens_checked a Metar_init (tokens_of past s).

(** ** Notions used to state the properties *)




(** The report of the test [real_METAR_1], and the same report without the
    tokens of its remarks that no predicate accepts. *)
Definition real_METAR_1_text : string :=
  "KSTL 231751Z 27009KT 10SM OVC015 09/06 A3029 RMK AO2 SLP260 T00940061 10100 20078 53002".

Definition real_METAR_1_without_remarks : string :=
  "KSTL 231751Z 27009KT 10SM OVC015 09/06 A3029 SLP260 T00940061".

(** The number written by two digits. *)
Definition two_digits (a b : ascii) : Z := (digit_val a * 10 + digit_val b)%Z.

(** The number written by three digits. *)
Definition three_digits (a b c : ascii) : Z :=
  (digit_val a * 100 + digit_val b * 10 + digit_val c)%Z.

(** The number written by a string of digits. *)
Definition decimal (s : cstring) : Z := digits_val 0 s.

Definition all_digits (s : cstring) : Prop :=
  Forall (fun c => isdigit c = true) s.

(** The token "N/DSM", with a leading "M" when [lt] is set. *)
Definition fraction_token (lt : bool) (N D : cstring) : cstring :=
  (if lt then ["M"%char] else []) ++ N ++ "/"%char :: D ++ VIS_UNITS_SM.

(** The integers [start], [start + 1], ... ([len] of them). *)
Fixpoint zseq (start : Z) (len : nat) : list Z :=
  match len with
  | O => []
  | S l => start :: zseq (start + 1) l
  end.

(** [l1] is [l2] with some elements left out. *)
Inductive subseq {A : Type} : list A -> list A -> Prop :=
| subseq_nil : subseq [] []
| subseq_skip (x : A) (l1 l2 : list A) : subseq l1 l2 -> subseq l1 (x :: l2)
| subseq_take (x : A) (l1 l2 : list A) :
    subseq l1 l2 -> subseq (x :: l1) (x :: l2).

(** The layers that [parse_cloud_layer] adds for a token. *)
Definition layer_of (el : elem) : list SkyConditionImpl :=
  _layers (parse_cloud_layer Metar_init el).

(** ** Notions used to state further properties *)

(** The words [ts] separated by single blanks. *)
Fixpoint unwords (ts : list cstring) : cstring :=
  match ts with
  | [] => []
  | [t] => t
  | t :: (_ :: _) as r => t ++ " "%char :: unwords r
  end.

(** A word that [strtok] returns whole: not empty, without blank and without
    terminator. *)
Definition word (t : cstring) : Prop :=
  t <> [] /\ ~ In " "%char t /\ ~ In NUL t.

(** The branches whose tokens no branch of higher priority accepts. *)
Definition decided_by_first_token : list branch :=
  [BMetar; BIcao; BOt; BWindVar; BVertVis; BTemp; BAltA; BAltQ; BSlp; BTempNA].

(** A wind token: the direction [D] or "VRB", the speed [S], the gust [g]
    behind a "G" if there is one, the unit [u]. *)
Definition wind_token (dir : option cstring) (S : cstring) (G : option cstring)
    (u : cstring) : cstring :=
  match dir with Some D => D | None => lit "VRB" end
  ++ S ++ match G with Some g => "G"%char :: g | None => [] end ++ u.

(** Two or three digits. *)
Definition two_or_three_digits (s : cstring) : Prop :=
  all_digits s /\ (length s = 2%nat \/ length s = 3%nat).

(** The wind members agree with each other: either all are as the
    constructor left them, or the speed and the unit are present and the
    direction is present exactly when the wind is not variable. *)
Definition wind_consistent (m : Metar) : Prop :=
  field BWind m = field BWind Metar_init
  \/ (hasWindSpeed m = true
      /\ (exists u, _wind_speed_units m = Some u /\
                    In u [WIND_SPEED_KT; WIND_SPEED_MPS; WIND_SPEED_KPH])
      /\ hasWindDirection m = negb (_vrb m)).

(** [x] is plus infinity. *)
Definition is_plus_infinity (x : float) : bool :=
  match Prim2SF x with
  | S754_infinity false => true
  | _ => false
  end.

(** A cloud-shaped token is safe when [parse_cloud_layer] reads nothing
    behind its terminator. *)
Definition reads_inside (t : cstring) : Prop :=
  is_cloud_layer t = true -> length t <> 4%nat /\ length t <> 5%nat.

(** ** Values checked by the unit tests *)

(** The groups of accessors that the cases of [src/tests/metar_test.cpp]
    check together. *)

Definition message (m : Metar) : cstring * cstring := (_metar m, _icao m).

Definition observation_time (m : Metar) : Z * Z * Z := (_day m, _hour m, _min m).

Definition wind (m : Metar) : Z * Z * Z * option cstring * bool :=
  (_wind_dir m, _wind_spd m, _gust m, _wind_speed_units m, _vrb m).

Definition wind_var (m : Metar) : Z * Z := (_min_wind_dir m, _max_wind_dir m).

Definition visibility (m : Metar) : float * option cstring * bool * bool :=
  (_vis m, _vis_units m, _vis_lt m, _cavok m).

Definition temperature (m : Metar) : Z * Z := (_temp m, _dew m).

Definition pressure (m : Metar) : float * Z * float :=
  (_altimeterA m, _altimeterQ m, _slp m).

Definition temperatureNA (m : Metar) : float * float := (_ftemp m, _fdew m).

(** ** The phenomena of [Phenom.h]

    Of the phenomena decoder the sources hold the header [Phenom.h] only: the
    two enumerations and the accessors of the abstract class.
    [Phenom::Create] is declared there without a body, and [metar.cpp] never
    mentions the class. *)

Module Phenom.

(** [enum class phenom]. *)
Inductive phenom :=
| NONE | MIST | DUST_STORM | DUST | DRIZZLE | FUNNEL_CLOUD | FOG | SMOKE
| HAIL | SMALL_HAIL | HAZE | ICE_CRYSTALS | ICE_PELLETS | DUST_SAND_WHORLS
| SPRAY | RAIN | SAND | SNOW_GRAINS | SHOWER | SNOW | SQUALLS | SAND_STORM
| UNKNOWN_PRECIP | VOLCANIC_ASH.


(** [enum class intensity], with the values of its enumerators. *)
Inductive intensity := LIGHT | NORMAL | HEAVY.

Definition intensity_value (i : intensity) : Z :=
  match i with
  | LIGHT => -1
  | NORMAL => 0
  | HEAVY => 1
  end.

(** What the pure virtual accessors of the class return: [NumPhenom] and
    [operator[]] give the length and the entries of [phenoms]. *)
Record Phenom := mkPhenom {
  phenoms : list phenom;
  Intensity : intensity;
  Blowing : bool;
  Freezing : bool;
  Drifting : bool;
  Vicinity : bool;
  Partial : bool;
  Shallow : bool;
  Patches : bool;
  ThunderStorm : bool;
  Temporary : bool
}.

Definition NumPhenom (p : Phenom) : nat := length (phenoms p).

End Phenom.

(** Memory filled with zero bytes behind the string, for closed examples. *)
Definition no_past : nat -> ascii := fun _ => NUL.

(** * Auxiliary results *)

(** ** Characters *)

Lemma isdigit_iff (c : ascii) :
  isdigit c = true <-> (48 <= nat_of_ascii c <= 57)%nat.
Proof.
  unfold isdigit. rewrite andb_true_iff, !Nat.leb_le. tauto.
Qed.

(** A digit differs from every character that is not a digit. *)
Lemma digit_neq (c a : ascii) :
  isdigit a = true -> isdigit c = false -> Ascii.eqb c a = false.
Proof.
  intros Ha Hc. destruct (Ascii.eqb_spec c a) as [->|]; congruence.
Qed.

Lemma digit_neq_r (c a : ascii) :
  isdigit a = true -> isdigit c = false -> Ascii.eqb a c = false.
Proof.
  intros Ha Hc. destruct (Ascii.eqb_spec a c) as [->|]; congruence.
Qed.

Lemma digit_not_alpha (a : ascii) : isdigit a = true -> isalpha a = false.
Proof.
  rewrite isdigit_iff. unfold isalpha. intros H.
  apply orb_false_iff. split; apply andb_false_iff.
  - left. apply Nat.leb_gt. lia.
  - left. apply Nat.leb_gt. lia.
Qed.

Lemma digit_not_space (a : ascii) : isdigit a = true -> isspace a = false.
Proof.
  rewrite isdigit_iff. unfold isspace. intros H.
  apply orb_false_iff. split.
  - apply Nat.eqb_neq. lia.
  - apply andb_false_iff. right. apply Nat.leb_gt. lia.
Qed.

Lemma digit_val_range (a : ascii) :
  isdigit a = true -> (0 <= digit_val a <= 9)%Z.
Proof. rewrite isdigit_iff. unfold digit_val. lia. Qed.

(** Rewriting with the digits at hand. *)
Ltac digits :=
  repeat match goal with
         | H : isdigit ?a = true |- context [Ascii.eqb ?c ?a] =>
             rewrite (digit_neq c a H eq_refl)
         | H : isdigit ?a = true |- context [Ascii.eqb ?a ?c] =>
             rewrite (digit_neq_r c a H eq_refl)
         | H : isdigit ?a = true |- context [isdigit ?a] => rewrite H
         | H : isdigit ?a = true |- context [isalpha ?a] =>
             rewrite (digit_not_alpha a H)
         | H : isdigit ?a = true |- context [isspace ?a] =>
             rewrite (digit_not_space a H)
         end.

(** ** Numbers *)

Lemma wrap32_small (z : Z) :
  (-2147483648 <= z < 2147483648)%Z -> wrap32 z = z.
Proof.
  intros H. unfold wrap32.
  change (2 ^ 31)%Z with 2147483648%Z. change (2 ^ 32)%Z with 4294967296%Z.
  rewrite Z.mod_small; lia.
Qed.

Lemma digits_val_bound (s : cstring) : forall acc,
  (0 <= acc)%Z ->
  (0 <= digits_val acc s < (acc + 1) * 10 ^ Z.of_nat (length s))%Z.
Proof.
  induction s as [|c r IH]; intros acc Hacc.
  - cbn. lia.
  - cbn [digits_val length]. rewrite Nat2Z.inj_succ, Z.pow_succ_r by lia.
    assert (0 < 10 ^ Z.of_nat (length r))%Z by (apply Z.pow_pos_nonneg; lia).
    destruct (isdigit c) eqn:Hc.
    + pose proof (digit_val_range c Hc) as Hd.
      specialize (IH (acc * 10 + digit_val c)%Z ltac:(lia)). nia.
    + nia.
Qed.

Lemma skip_space_length (s : cstring) :
  (length (skip_space s) <= length s)%nat.
Proof.
  induction s as [|c r IH]; cbn; [lia|].
  destruct (isspace c); cbn; lia.
Qed.

Lemma scan_number_bound (s : cstring) :
  (0 <= snd (scan_number s) < 10 ^ Z.of_nat (length s))%Z.
Proof.
  unfold scan_number. pose proof (skip_space_length s) as Hl.
  assert (Hmono : forall n, (n <= length s)%nat ->
            (10 ^ Z.of_nat n <= 10 ^ Z.of_nat (length s))%Z)
    by (intros n Hn; apply Z.pow_le_mono_r; lia).
  destruct (skip_space s) as [|c r].
  - cbn. assert (0 < 10 ^ Z.of_nat (length s))%Z
      by (apply Z.pow_pos_nonneg; lia). lia.
  - cbn [length] in Hl.
    pose proof (digits_val_bound r 0 ltac:(lia)) as B1.
    pose proof (digits_val_bound (c :: r) 0 ltac:(lia)) as B2.
    pose proof (Hmono (length r) ltac:(lia)) as M1.
    pose proof (Hmono (length (c :: r)) ltac:(cbn [length]; lia)) as M2.
    destruct (Ascii.eqb c "-"); [cbn [snd]; lia|].
    destruct (Ascii.eqb c "+"); cbn [snd]; lia.
Qed.

(** [atoi] of at most [n <= 9] characters is less than [10^n] in absolute
    value, so it is not reduced and it is not [INT_MIN]. *)
Lemma atoi_bound (s : cstring) (n : nat) :
  (length s <= n)%nat -> (n <= 9)%nat ->
  (- 10 ^ Z.of_nat n < atoi s < 10 ^ Z.of_nat n)%Z.
Proof.
  intros Hl Hn. unfold atoi, strtol, LONG_MAX, LONG_MIN.
  change (2 ^ 63)%Z with 9223372036854775808%Z.
  pose proof (scan_number_bound s) as B.
  destruct (scan_number s) as [neg v]. cbn [snd] in B.
  assert (10 ^ Z.of_nat (length s) <= 10 ^ Z.of_nat n)%Z
    by (apply Z.pow_le_mono_r; lia).
  assert (10 ^ Z.of_nat n <= 10 ^ 9)%Z by (apply Z.pow_le_mono_r; lia).
  change (10 ^ 9)%Z with 1000000000%Z in *.
  rewrite wrap32_small; destruct neg; lia.
Qed.

Lemma atoi_defined (s : cstring) :
  (length s <= 9)%nat -> int_defined (atoi s) = true.
Proof.
  intros Hl. pose proof (atoi_bound s 9 Hl ltac:(lia)) as B.
  unfold int_defined, _INTEGER_UNDEFINED, INT_MIN.
  apply negb_true_iff, Z.eqb_neq.
  change (10 ^ Z.of_nat 9)%Z with 1000000000%Z in B.
  change (- 2 ^ 31)%Z with (-2147483648)%Z. lia.
Qed.

Lemma temp_defined (s : cstring) :
  (length s <= 9)%nat -> int_defined (temp s) = true.
Proof.
  intros Hl. unfold temp. destruct (Ascii.eqb (hd NUL s) "M").
  - apply atoi_defined. destruct s; cbn [length tl] in *; lia.
  - apply atoi_defined. exact Hl.
Qed.

(** A string that starts with a digit is read as its run of digits. *)
Lemma scan_number_digit (c : ascii) (r : cstring) :
  isdigit c = true -> scan_number (c :: r) = (false, digits_val 0 (c :: r)).
Proof.
  intros Hc. unfold scan_number. cbn [skip_space]. digits. reflexivity.
Qed.

Lemma atof_digit (c : ascii) (r : cstring) :
  isdigit c = true -> atof (c :: r) = float_of_Z (digits_val 0 (c :: r)).
Proof. intros Hc. unfold atof. rewrite scan_number_digit by exact Hc. reflexivity. Qed.

Lemma atoi_digit (c : ascii) (r : cstring) :
  isdigit c = true -> (digits_val 0 (c :: r) < 10 ^ 18)%Z ->
  atoi (c :: r) = wrap32 (digits_val 0 (c :: r)).
Proof.
  intros Hc B. unfold atoi, strtol. rewrite scan_number_digit by exact Hc.
  rewrite Z.min_r; [reflexivity|].
  unfold LONG_MAX. change (2 ^ 63)%Z with 9223372036854775808%Z.
  change (10 ^ 18)%Z with 1000000000000000000%Z in B. lia.
Qed.

Lemma atof_minus (r : cstring) :
  atof ("-"%char :: r) = PrimFloat.opp (float_of_Z (digits_val 0 r)).
Proof. reflexivity. Qed.

(** ** Checking a property of every integer below a bound by evaluation *)

Lemma in_zseq (len : nat) : forall start z,
  (start <= z < start + Z.of_nat len)%Z -> In z (zseq start len).
Proof.
  induction len as [|len IH]; intros start z Hz.
  - cbn in Hz. lia.
  - cbn [zseq]. destruct (Z.eq_dec start z) as [->|Hne]; [left; reflexivity|].
    right. apply IH. lia.
Qed.

Lemma below_forallb (P : Z -> bool) (n : nat) (bound : Z) :
  Z.of_nat n = bound ->
  forallb P (zseq 0 n) = true ->
  forall z, (0 <= z < bound)%Z -> P z = true.
Proof.
  intros <- H z Hz. rewrite forallb_forall in H. apply H.
  apply in_zseq. lia.
Qed.

Lemma altA_defined (z : Z) :
  (0 <= z < 10000)%Z -> double_defined (float_of_Z z / 100)%float = true.
Proof.
  apply (below_forallb (fun z => double_defined (float_of_Z z / 100)%float)
           (10 * 10 * 10 * 10) 10000 eq_refl).
  vm_compute. reflexivity.
Qed.

Lemma slp_defined (z : Z) :
  (0 <= z < 1000)%Z -> double_defined (float_of_Z z / 10 + 1000)%float = true.
Proof.
  apply (below_forallb (fun z => double_defined (float_of_Z z / 10 + 1000)%float)
           (10 * 10 * 10) 1000 eq_refl).
  vm_compute. reflexivity.
Qed.

Lemma tenth_defined (z : Z) :
  (0 <= z < 10000)%Z -> double_defined (float_of_Z z / 10)%float = true.
Proof.
  apply (below_forallb (fun z => double_defined (float_of_Z z / 10)%float)
           (10 * 10 * 10 * 10) 10000 eq_refl).
  vm_compute. reflexivity.
Qed.

Lemma minus_tenth_defined (z : Z) :
  (0 <= z < 1000)%Z ->
  double_defined (PrimFloat.opp (float_of_Z z) / 10)%float = true.
Proof.
  apply (below_forallb
           (fun z => double_defined (PrimFloat.opp (float_of_Z z) / 10)%float)
           (10 * 10 * 10) 1000 eq_refl).
  vm_compute. reflexivity.
Qed.

(** ** Patterns *)

Lemma match_length (p str : cstring) :
  match_ p str = true -> length str = length p.
Proof.
  unfold match_. destruct (Nat.eqb_spec (length p) (length str)); congruence.
Qed.

Lemma match_n_cons (p c : ascii) (ps cs : cstring) (n : nat) :
  match_n (p :: ps) (c :: cs) (S n) = match_character p c && match_n ps cs n.
Proof. cbn. destruct (match_character p c); reflexivity. Qed.

Lemma match_cons (p c : ascii) (ps cs : cstring) :
  match_ (p :: ps) (c :: cs) = match_character p c && match_ ps cs.
Proof.
  unfold match_. cbn [length]. rewrite match_n_cons.
  change (S (length ps) =? S (length cs))%nat with (length ps =? length cs)%nat.
  destruct (length ps =? length cs)%nat; [reflexivity|].
  symmetry. apply andb_false_r.
Qed.

Lemma match_nil_l (cs : cstring) :
  match_ [] cs = match cs with [] => true | _ :: _ => false end.
Proof. destruct cs; reflexivity. Qed.

Lemma match_nil_r (p : ascii) (ps : cstring) : match_ (p :: ps) [] = false.
Proof. reflexivity. Qed.

Lemma match_character_digit (c : ascii) : match_character "#" c = isdigit c.
Proof. reflexivity. Qed.

Lemma match_character_alpha (c : ascii) : match_character "$" c = isalpha c.
Proof. reflexivity. Qed.

Lemma match_character_lit (p c : ascii) :
  Ascii.eqb p "#" = false -> Ascii.eqb p "$" = false ->
  match_character p c = Ascii.eqb p c.
Proof. intros H1 H2. unfold match_character. rewrite H1, H2. reflexivity. Qed.

(** Decomposing a successful [match] against a literal pattern: the string
    is replaced by its characters, with a fact for every position. *)
Ltac invert_match H :=
  unfold is_icao, is_ot, is_wind_var, is_vert_vis, is_altA, is_altQ, is_slp,
    is_tempNA, lit in H;
  cbn [list_ascii_of_string] in H;
  repeat match type of H with
         | match_ (_ :: _) ?s = true =>
             let c := fresh "c" in
             destruct s as [|c s]; [rewrite match_nil_r in H; discriminate H|];
             rewrite match_cons in H;
             let E := fresh "E" in
             apply andb_true_iff in H; destruct H as [E H];
             lazymatch type of E with
             | match_character "#" _ = true =>
                 rewrite match_character_digit in E
             | match_character "$" _ = true =>
                 rewrite match_character_alpha in E
             | match_character ?p _ = true =>
                 rewrite (match_character_lit p _ eq_refl eq_refl) in E;
                 apply Ascii.eqb_eq in E; subst c
             end
         | match_ [] ?s = true =>
             destruct s; [clear H|rewrite match_nil_l in H; discriminate H]
         end.

Lemma is_slp_inv (str : cstring) :
  is_slp str = true ->
  exists a b c, str = lit "SLP" ++ [a; b; c] /\
    isdigit a = true /\ isdigit b = true /\ isdigit c = true.
Proof.
  intros H. invert_match H. do 3 eexists. split; [reflexivity|auto].
Qed.

Lemma is_altA_inv (str : cstring) :
  is_altA str = true ->
  exists a b c d, str = "A"%char :: [a; b; c; d] /\
    isdigit a = true /\ isdigit b = true /\ isdigit c = true /\ isdigit d = true.
Proof.
  intros H. invert_match H. do 4 eexists. split; [reflexivity|auto].
Qed.

Lemma is_tempNA_inv (str : cstring) :
  is_tempNA str = true ->
  exists a b c d e f g h, str = "T"%char :: [a; b; c; d; e; f; g; h] /\
    Forall (fun x => isdigit x = true) [a; b; c; d; e; f; g; h].
Proof.
  intros H. invert_match H. do 8 eexists. split; [reflexivity|].
  repeat constructor; assumption.
Qed.

(** The value of a run of digits. *)
Lemma digits_val_all (s : cstring) : forall acc,
  Forall (fun x => isdigit x = true) s ->
  (0 <= acc)%Z ->
  (acc * 10 ^ Z.of_nat (length s) <= digits_val acc s
   < (acc + 1) * 10 ^ Z.of_nat (length s))%Z.
Proof.
  induction s as [|c r IH]; intros acc Hs Hacc.
  - cbn. lia.
  - inversion Hs as [|? ? Hc Hr]; subst.
    cbn [digits_val length]. rewrite Hc.
    rewrite Nat2Z.inj_succ, Z.pow_succ_r by lia.
    pose proof (digit_val_range c Hc) as Hd.
    assert (0 < 10 ^ Z.of_nat (length r))%Z by (apply Z.pow_pos_nonneg; lia).
    specialize (IH (acc * 10 + digit_val c)%Z Hr ltac:(lia)). nia.
Qed.

(** A literal character of the pattern occurs in every string that matches. *)
Lemma match_literal_in (c : ascii) (p str : cstring) :
  Ascii.eqb c "#" = false -> Ascii.eqb c "$" = false ->
  In c p -> match_ p str = true -> In c str.
Proof.
  intros H1 H2. revert str. induction p as [|x p IH]; intros str Hin Hm.
  - destruct Hin.
  - destruct str as [|y str]; [discriminate Hm|].
    rewrite match_cons in Hm. apply andb_true_iff in Hm. destruct Hm as [Hx Hm].
    destruct Hin as [->|Hin].
    + unfold match_character in Hx. rewrite H1, H2 in Hx.
      apply Ascii.eqb_eq in Hx. left. symmetry. exact Hx.
    + right. apply IH; assumption.
Qed.

Lemma strstr_char_in (c : ascii) (str : cstring) :
  In c str -> exists p, strstr str [c] = Some p /\ (p < length str)%nat.
Proof.
  induction str as [|x r IH]; intros Hin; [destruct Hin|].
  cbn [strstr is_prefix].
  destruct (Ascii.eqb_spec c x) as [->|Hne].
  - exists 0%nat. cbn. split; [reflexivity|lia].
  - destruct Hin as [->|Hin]; [congruence|].
    destruct (IH Hin) as [p [Hp Hl]]. exists (S p).
    cbn [andb]. rewrite Hp. cbn. split; [reflexivity|lia].
Qed.

Lemma is_temp_slash (str : cstring) :
  is_temp str = true ->
  (exists p, strstr str (lit "/") = Some p) /\ (length str <= 7)%nat.
Proof.
  unfold is_temp. rewrite !orb_true_iff.
  intros H.
  assert (exists p, In "/"%char p /\ (length p <= 7)%nat /\ match_ p str = true)
    as [p [Hin [Hl Hm]]].
  { destruct H as [[[[H|H]|H]|H]|H];
      (eexists; split; [|split; [|exact H]]); cbn; auto 10. }
  split.
  - destruct (strstr_char_in "/" str) as [q [Hq _]].
    + apply (match_literal_in "/" p); auto.
    + exists q. exact Hq.
  - rewrite (match_length _ _ Hm). exact Hl.
Qed.

Lemma starts_with_cons (p c : ascii) (ps cs : cstring) :
  starts_with (p :: ps) (c :: cs) = match_character p c && starts_with ps cs.
Proof.
  unfold starts_with. cbn [length]. rewrite match_n_cons.
  change (S (length ps) <=? S (length cs))%nat with (length ps <=? length cs)%nat.
  destruct (length ps <=? length cs)%nat; [reflexivity|].
  symmetry. apply andb_false_r.
Qed.

Lemma starts_with_nil_r (p : ascii) (ps : cstring) :
  starts_with (p :: ps) [] = false.
Proof. reflexivity. Qed.

Lemma starts_with_nil_l (cs : cstring) : starts_with [] cs = true.
Proof. reflexivity. Qed.

Lemma match_first (p : ascii) (ps str : cstring) :
  match_ (p :: ps) str = true -> match_character p (hd NUL str) = true.
Proof.
  destruct str as [|c str]; [rewrite match_nil_r; discriminate|].
  rewrite match_cons. intros H. apply andb_true_iff in H. apply H.
Qed.

Lemma starts_with_first (p : ascii) (ps str : cstring) :
  starts_with (p :: ps) str = true -> match_character p (hd NUL str) = true.
Proof.
  destruct str as [|c str]; [rewrite starts_with_nil_r; discriminate|].
  rewrite starts_with_cons. intros H. apply andb_true_iff in H. apply H.
Qed.

(** What the shapes of higher priority than the cloud layer require of the
    first character. *)
Lemma is_ot_first (str : cstring) :
  is_ot str = true -> isdigit (hd NUL str) = true.
Proof. intros H. apply match_first in H. exact H. Qed.

Lemma is_wind_var_first (str : cstring) :
  is_wind_var str = true -> isdigit (hd NUL str) = true.
Proof. intros H. apply match_first in H. exact H. Qed.

Lemma is_wind_first (str : cstring) :
  is_wind str = true ->
  isdigit (hd NUL str) = true \/ Ascii.eqb "V" (hd NUL str) = true.
Proof.
  unfold is_wind. rewrite !orb_true_iff.
  intros [[[H|H]|H]|H]; apply starts_with_first in H; auto.
Qed.

Lemma is_vis_first (str : cstring) :
  is_vis str = true ->
  streq str (lit "CAVOK") = true \/ isdigit (hd NUL str) = true
  \/ Ascii.eqb (hd NUL str) "M" = true.
Proof.
  unfold is_vis. destruct (streq str (lit "CAVOK")); [auto|].
  destruct (strstr str VIS_UNITS_SM) as [p|].
  - destruct (length str - p =? 2)%nat; [|discriminate].
    destruct (isdigit (hd NUL str)); [auto|].
    destruct (Ascii.eqb (hd NUL str) "M"); [auto|discriminate].
  - intros H. apply match_first in H. auto.
Qed.

Lemma streq_length (a b : cstring) : streq a b = true -> length a = length b.
Proof.
  revert b. induction a as [|x a IH]; intros [|y b] H; try discriminate H.
  - reflexivity.
  - cbn in H. apply andb_true_iff in H. destruct H as [_ H].
    cbn [length]. f_equal. apply IH. exact H.
Qed.

Lemma streq_eq (a b : cstring) : streq a b = true -> a = b.
Proof.
  revert b. induction a as [|x a IH]; intros [|y b] H; try discriminate H.
  - reflexivity.
  - cbn in H. apply andb_true_iff in H. destruct H as [H1 H2].
    apply Ascii.eqb_eq in H1. subst. f_equal. apply IH. exact H2.
Qed.

Lemma starts_with_nth (p str : cstring) :
  starts_with p str = true ->
  forall i, (i < length p)%nat ->
       match_character (nth i p NUL) (nth i str NUL) = true.
Proof.
  revert str. induction p as [|x p IH]; intros str H i Hi.
  - cbn in Hi. lia.
  - destruct str as [|y str]; [rewrite starts_with_nil_r in H; discriminate H|].
    rewrite starts_with_cons in H. apply andb_true_iff in H.
    destruct H as [H1 H2]. destruct i as [|i]; cbn [nth].
    + exact H1.
    + apply IH; [exact H2|]. cbn [length] in Hi. lia.
Qed.

Lemma is_icao_iff (t : cstring) :
  is_icao t = true <->
  length t = 4%nat /\ Forall (fun c => isalpha c = true) t.
Proof.
  split.
  - intros H. invert_match H. split; [reflexivity|].
    repeat constructor; assumption.
  - intros [Hl Hall].
    destruct t as [|a [|b [|c [|d [|e t]]]]]; try discriminate Hl.
    inversion Hall as [|? ? Ha H1]; subst.
    inversion H1 as [|? ? Hb H2]; subst.
    inversion H2 as [|? ? Hc H3]; subst.
    inversion H3 as [|? ? Hd H4]; subst.
    unfold is_icao, lit. cbn [list_ascii_of_string].
    rewrite !match_cons, (match_character_alpha a), (match_character_alpha b),
      (match_character_alpha c), (match_character_alpha d), Ha, Hb, Hc, Hd.
    reflexivity.
Qed.

(** ** Sub-parsers and the dispatch *)

(** Reading a data member after assignments. *)
Ltac fields :=
  cbn [_metar _icao _day _hour _min _wind_dir _wind_spd _gust
       _wind_speed_units _min_wind_dir _max_wind_dir _vrb _vis _vis_units
       _vis_lt _cavok _layers _vert_vis _temp _dew _altimeterA _altimeterQ
       _slp _ftemp _fdew _previous_element set_metar set_icao set_day
       set_hour set_min set_wind_dir set_wind_spd set_gust
       set_wind_speed_units set_min_wind_dir set_max_wind_dir set_vrb set_vis
       set_vis_units set_vis_lt set_cavok set_layers set_vert_vis set_temp
       set_dew set_altimeterA set_altimeterQ set_slp set_ftemp set_fdew
       set_previous_element].

Ltac split_ifs :=
  repeat match goal with
         | |- context [if ?c then _ else _] => destruct c
         | |- context [match ?c with Some _ => _ | None => _ end] => destruct c
         end.



Lemma parse_element_dispatch (m : Metar) (el : elem) :
  parse_element m el =
  set_previous_element (Some (tok el))
    match dispatch m (tok el) with
    | Some b => sub_parser b m el
    | None => m
    end.
Proof.
  unfold parse_element, dispatch, branches. cbn [find closed shape].
  rewrite negb_orb, negb_involutive.
  repeat match goal with
         | |- context [if ?c then _ else _] =>
             destruct c; cbn [sub_parser]; try reflexivity
         end.
Qed.

Lemma fold_layers_frame (el : elem) (l : list cstring) (m : Metar) :
  let r := fold_left
             (fun m sc =>
                if starts_with sc (tok el)
                then set_layers (_layers m ++ [new_layer sc el]) m
                else m) l m in
  r = set_layers (_layers r) m.
Proof.
  revert m. induction l as [|sc l IH]; intros m; cbn [fold_left].
  - destruct m; reflexivity.
  - destruct (starts_with sc (tok el)).
    + cbn zeta in IH. rewrite IH at 1. reflexivity.
    + apply IH.
Qed.

Lemma parse_cloud_layer_frame (m : Metar) (el : elem) :
  parse_cloud_layer m el = set_layers (_layers (parse_cloud_layer m el)) m.
Proof. apply fold_layers_frame. Qed.

Lemma match_hd (c : ascii) (p str : cstring) :
  match_ (c :: p) str = true ->
  Ascii.eqb c "#" = false -> Ascii.eqb c "$" = false ->
  hd NUL str = c.
Proof.
  unfold match_. destruct (length (c :: p) =? length str)%nat; [|discriminate].
  cbn [length match_n hd]. unfold match_character. intros H H1 H2.
  rewrite H1, H2 in H.
  destruct (Ascii.eqb_spec c (hd NUL str)); [auto|discriminate].
Qed.

Lemma parse_alt_A (m : Metar) (str : cstring) :
  is_altA str = true ->
  parse_alt m str = set_altimeterA (float_of_Z (atoi (skipn 1 str)) / 100)%float m.
Proof.
  intros H. apply match_hd in H; [|reflexivity|reflexivity].
  unfold parse_alt. rewrite H. reflexivity.
Qed.

Lemma parse_alt_Q (m : Metar) (str : cstring) :
  is_altQ str = true ->
  parse_alt m str = set_altimeterQ (atoi (skipn 1 str)) m.
Proof.
  intros H. apply match_hd in H; [|reflexivity|reflexivity].
  unfold parse_alt. rewrite H. reflexivity.
Qed.



Lemma sub_parser_frame (b b' : branch) (m : Metar) (el : elem) :
  b <> b' -> shape b (tok el) = true ->
  field b' (sub_parser b m el) = field b' m.
Proof.
  intros Hne Hs.
  destruct b; cbn [sub_parser shape] in *;
    try match goal with
        | H : is_altA _ = true |- _ => rewrite (parse_alt_A m _ H)
        | H : is_altQ _ = true |- _ => rewrite (parse_alt_Q m _ H)
        | |- context [parse_cloud_layer] => rewrite parse_cloud_layer_frame
        end;
    destruct b'; try (exfalso; apply Hne; reflexivity); clear Hne Hs;
    unfold parse_metar, parse_icao, parse_ot, parse_wind, parse_wind_var,
      parse_vis, parse_vert_vis, parse_temp, parse_slp, parse_tempNA;
    cbv zeta; split_ifs; reflexivity.
Qed.

Lemma closed_field (b : branch) (m1 m2 : Metar) :
  field b m1 = field b m2 -> closed b m1 = closed b m2.
Proof.
  destruct b; cbn [field closed]; intros H; injection H as H;
    unfold hasMETAR, hasICAO, hasMinute, hasWindSpeed, hasMinWindDirection,
      hasVisibility, hasVerticalVisibility, hasTemperature, hasAltimeterA,
      hasAltimeterQ, hasSeaLevelPressure, hasTemperatureNA, _num_layers;
    congruence.
Qed.

Lemma dispatch_Some (m : Metar) (str : cstring) (b : branch) :
  dispatch m str = Some b -> closed b m = false /\ shape b str = true.
Proof.
  unfold dispatch. intros H. apply find_some in H. destruct H as [_ H].
  apply andb_true_iff in H. destruct H as [H1 H2].
  apply negb_true_iff in H1. auto.
Qed.

Lemma field_set_previous (b : branch) (v : option cstring) (m : Metar) :
  field b (set_previous_element v m) = field b m.
Proof. destruct b; reflexivity. Qed.

Lemma parse_element_dispatched (m : Metar) (el : elem) (b : branch) :
  dispatch m (tok el) = Some b ->
  field b (parse_element m el) = field b (sub_parser b m el).
Proof.
  intros H. rewrite parse_element_dispatch, H. apply field_set_previous.
Qed.

(** A branch other than the dispatched one keeps its data members. *)
Lemma parse_element_other (m : Metar) (el : elem) (b : branch) :
  dispatch m (tok el) <> Some b ->
  field b (parse_element m el) = field b m.
Proof.
  intros H. rewrite parse_element_dispatch, field_set_previous.
  destruct (dispatch m (tok el)) as [b0|] eqn:E; [|reflexivity].
  apply sub_parser_frame.
  - intros ->. apply H. reflexivity.
  - apply (dispatch_Some _ _ _ E).
Qed.

Lemma parse_element_closed (m : Metar) (el : elem) (b : branch) :
  closed b m = true -> field b (parse_element m el) = field b m.
Proof.
  intros H. apply parse_element_other. intros E.
  apply dispatch_Some in E. destruct E as [E _]. congruence.
Qed.

Lemma parse_element_no_shape (m : Metar) (el : elem) (b : branch) :
  shape b (tok el) = false -> field b (parse_element m el) = field b m.
Proof.
  intros H. apply parse_element_other. intros E.
  apply dispatch_Some in E. destruct E as [_ E]. congruence.
Qed.

Lemma parse_tokens_app (m : Metar) (pre post : list elem) :
  parse_tokens m (pre ++ post) = parse_tokens (parse_tokens m pre) post.
Proof. apply fold_left_app. Qed.

(** Once the guard of a branch is closed, its data members are final. *)
Lemma parse_tokens_closed (b : branch) (els : list elem) (m : Metar) :
  closed b m = true -> field b (parse_tokens m els) = field b m.
Proof.
  revert m. induction els as [|el els IH]; intros m H; [reflexivity|].
  cbn [parse_tokens fold_left]. fold (parse_tokens (parse_element m el) els).
  pose proof (parse_element_closed m el b H) as E.
  rewrite IH.
  - exact E.
  - rewrite (closed_field b _ _ E). exact H.
Qed.


Lemma digits_val_lt (s : cstring) (n : nat) :
  Forall (fun x => isdigit x = true) s -> length s = n ->
  (0 <= digits_val 0 s < 10 ^ Z.of_nat n)%Z.
Proof.
  intros Hs <-. pose proof (digits_val_all s 0 Hs ltac:(lia)). lia.
Qed.

(** Every sub-parser but those of visibility and cloud layers leaves its own
    presence predicate true. *)
Lemma sub_parser_closes (b : branch) (m : Metar) (el : elem) :
  b <> BVis -> b <> BCloud -> shape b (tok el) = true ->
  closed b (sub_parser b m el) = true.
Proof.
  intros Hv Hc Hs. destruct el as [str bey]. cbn [tok] in *.
  destruct b; try congruence; clear Hv Hc; cbn [shape closed sub_parser tok] in *.
  - (* message type *)
    unfold is_metar in Hs. destruct str; [discriminate Hs|reflexivity].
  - (* station *)
    apply match_length in Hs. destruct str; [discriminate Hs|reflexivity].
  - (* observation time *)
    apply match_length in Hs. unfold hasMinute, parse_ot. fields.
    apply atoi_defined. rewrite length_skipn, Hs. cbn. lia.
  - (* wind *)
    unfold hasWindSpeed, parse_wind. cbv zeta.
    destruct (strstr str (lit "G")); fields;
      apply atoi_defined; unfold strncpy;
      (etransitivity; [apply firstn_le_length|lia]).
  - (* variable wind direction *)
    unfold hasMinWindDirection, parse_wind_var. fields.
    apply atoi_defined. unfold strncpy.
    etransitivity; [apply firstn_le_length|lia].
  - (* vertical visibility *)
    apply match_length in Hs. unfold hasVerticalVisibility, parse_vert_vis. fields.
    pose proof (atoi_bound (skipn 2 str) 3) as B.
    rewrite length_skipn, Hs in B.
    specialize (B ltac:(cbn; lia) ltac:(lia)).
    change (10 ^ Z.of_nat 3)%Z with 1000%Z in B.
    unfold int_defined, _INTEGER_UNDEFINED, INT_MIN.
    apply negb_true_iff, Z.eqb_neq.
    change (- 2 ^ 31)%Z with (-2147483648)%Z.
    rewrite wrap32_small; lia.
  - (* temperature *)
    destruct (is_temp_slash _ Hs) as [[p Hp] Hl].
    unfold hasTemperature, parse_temp. rewrite Hp.
    assert (int_defined (temp (strncpy str p)) = true).
    { apply temp_defined. unfold strncpy. rewrite length_firstn. lia. }
    destruct (negb (Ascii.eqb (nth (p + 1) str NUL) NUL)); fields; assumption.
  - (* altimeter, inches *)
    rewrite (parse_alt_A m _ Hs). unfold hasAltimeterA. fields.
    destruct (is_altA_inv _ Hs) as (a & b & c & d & -> & Ha & Hb & Hc & Hd).
    cbn [skipn].
    pose proof (digits_val_lt [a; b; c; d] 4
                  ltac:(repeat constructor; assumption) eq_refl) as B.
    change (10 ^ Z.of_nat 4)%Z with 10000%Z in B.
    rewrite (atoi_digit a _ Ha)
      by (change (10 ^ 18)%Z with 1000000000000000000%Z; lia).
    rewrite wrap32_small by lia. apply altA_defined. exact B.
  - (* altimeter, hectopascals *)
    rewrite (parse_alt_Q m _ Hs). unfold hasAltimeterQ. fields.
    apply match_length in Hs.
    apply atoi_defined. rewrite length_skipn, Hs. cbn. lia.
  - (* sea-level pressure *)
    destruct (is_slp_inv _ Hs) as (a & b & c & -> & Ha & Hb & Hc).
    unfold hasSeaLevelPressure, parse_slp. cbn [_slp set_slp lit
      list_ascii_of_string app skipn].
    rewrite (atof_digit a _ Ha). apply slp_defined.
    exact (digits_val_lt [a; b; c] 3
             ltac:(repeat constructor; assumption) eq_refl).
  - (* precise temperature *)
    destruct (is_tempNA_inv _ Hs) as (a & b & c & d & e & f & g & h & -> & Hall).
    unfold hasTemperatureNA, parse_tempNA. cbn [_ftemp set_ftemp set_fdew
      skipn strncpy firstn].
    inversion Hall as [|? ? Ha Hall1]; subst.
    unfold tempNA. cbn [hd tl].
    destruct (Ascii.eqb a "1").
    + rewrite atof_minus.
      apply (minus_tenth_defined (digits_val 0 [b; c; d])).
      pose proof (digits_val_lt [b; c; d] 3) as B.
      change (10 ^ Z.of_nat 3)%Z with 1000%Z in B.
      apply B; [|reflexivity].
      inversion Hall1 as [|? ? ? F1]; subst.
      inversion F1 as [|? ? ? F2]; subst.
      inversion F2 as [|? ? ? F3]; subst. repeat constructor; assumption.
    + rewrite (atof_digit a _ Ha).
      apply (tenth_defined (digits_val 0 [a; b; c; d])).
      pose proof (digits_val_lt [a; b; c; d] 4) as B.
      change (10 ^ Z.of_nat 4)%Z with 10000%Z in B.
      apply B; [|reflexivity].
      inversion Hall1 as [|? ? ? F1]; subst.
      inversion F1 as [|? ? ? F2]; subst.
      inversion F2 as [|? ? ? F3]; subst. repeat constructor; assumption.
Qed.

(** ** Visibility and CAVOK *)

Lemma field_vis_eq (m1 m2 : Metar) :
  field BVis m1 = field BVis m2 ->
  _vis m1 = _vis m2 /\ _cavok m1 = _cavok m2 /\
  hasVisibility m1 = hasVisibility m2.
Proof.
  cbn [field]. intros H. injection H as E1 E2 E3 E4.
  unfold hasVisibility. rewrite E1. auto.
Qed.







(** ** The station identifier *)

Lemma is_icao_not_metar (t : cstring) : is_icao t = true -> is_metar t = false.
Proof.
  intros H. apply match_length in H. unfold is_metar.
  apply orb_false_iff. split.
  - destruct (streq t (lit "METAR")) eqn:E; [|reflexivity].
    apply streq_length in E. rewrite H in E. discriminate E.
  - destruct (streq t (lit "SPECI")) eqn:E; [|reflexivity].
    apply streq_length in E. rewrite H in E. discriminate E.
Qed.

Lemma dispatch_icao (m : Metar) (str : cstring) :
  hasICAO m = false -> is_icao str = true -> dispatch m str = Some BIcao.
Proof.
  intros Hm Hs. unfold dispatch, branches. cbn [find closed shape].
  rewrite (is_icao_not_metar str Hs), andb_false_r, Hm, Hs. reflexivity.
Qed.

Lemma field_icao_eq (m1 m2 : Metar) :
  field BIcao m1 = field BIcao m2 -> _icao m1 = _icao m2.
Proof. cbn [field]. intros H. injection H as E. exact E. Qed.

(** The station identifier after the loop: the first token of four letters,
    if the field was absent before. *)
Lemma icao_of_tokens (els : list elem) : forall m,
  hasICAO m = false ->
  _icao (parse_tokens m els)
  = match find is_icao (map tok els) with
    | Some t => t
    | None => _icao m
    end.
Proof.
  induction els as [|el els IH]; intros m Hm; [reflexivity|].
  cbn [parse_tokens fold_left map find].
  fold (parse_tokens (parse_element m el) els).
  destruct (is_icao (tok el)) eqn:Hs.
  - pose proof (dispatch_icao m (tok el) Hm Hs) as Hd.
    pose proof (parse_element_dispatched m el BIcao Hd) as E.
    assert (C : closed BIcao (parse_element m el) = true).
    { rewrite (closed_field BIcao _ _ E).
      apply sub_parser_closes; [discriminate|discriminate|exact Hs]. }
    rewrite (field_icao_eq _ _ (parse_tokens_closed BIcao els _ C)).
    rewrite (field_icao_eq _ _ E). reflexivity.
  - pose proof (parse_element_no_shape m el BIcao Hs) as E.
    rewrite IH.
    + rewrite (field_icao_eq _ _ E). reflexivity.
    + pose proof (closed_field BIcao _ _ E) as C. cbn [closed] in C.
      rewrite C. exact Hm.
Qed.

Lemma find_first (A : Type) (f : A -> bool) (pre post : list A) (x : A) :
  Forall (fun y => f y = false) pre -> f x = true ->
  find f (pre ++ x :: post) = Some x.
Proof.
  intros Hpre Hx. induction Hpre as [|y pre Hy _ IH]; cbn.
  - rewrite Hx. reflexivity.
  - rewrite Hy. exact IH.
Qed.

(** Evaluating comparisons between two character constants. *)
Ltac const_chars :=
  repeat match goal with
         | |- context [Ascii.eqb (Ascii ?a0 ?a1 ?a2 ?a3 ?a4 ?a5 ?a6 ?a7)
                                 (Ascii ?b0 ?b1 ?b2 ?b3 ?b4 ?b5 ?b6 ?b7)] =>
             let v := eval vm_compute in
                        (Ascii.eqb (Ascii a0 a1 a2 a3 a4 a5 a6 a7)
                                   (Ascii b0 b1 b2 b3 b4 b5 b6 b7)) in
             change (Ascii.eqb (Ascii a0 a1 a2 a3 a4 a5 a6 a7)
                               (Ascii b0 b1 b2 b3 b4 b5 b6 b7)) with v
         | |- context [isdigit (Ascii ?a0 ?a1 ?a2 ?a3 ?a4 ?a5 ?a6 ?a7)] =>
             let v := eval vm_compute in
                        (isdigit (Ascii a0 a1 a2 a3 a4 a5 a6 a7)) in
             change (isdigit (Ascii a0 a1 a2 a3 a4 a5 a6 a7)) with v
         | |- context [isalpha (Ascii ?a0 ?a1 ?a2 ?a3 ?a4 ?a5 ?a6 ?a7)] =>
             let v := eval vm_compute in
                        (isalpha (Ascii a0 a1 a2 a3 a4 a5 a6 a7)) in
             change (isalpha (Ascii a0 a1 a2 a3 a4 a5 a6 a7)) with v
         end.

(** Evaluating a shape predicate on a string whose characters are constants
    or digits of the context. *)
Ltac eval_shape :=
  cbv - [Ascii.eqb isdigit isalpha];
  repeat (progress (const_chars; digits; cbv - [Ascii.eqb isdigit isalpha])).


(** ** Tokens that only one branch can take *)

Lemma dispatch_only_shape (m : Metar) (str : cstring) (b : branch) :
  (forall b', b' <> b -> shape b' str = false) ->
  shape b str = true -> closed b m = false ->
  dispatch m str = Some b.
Proof.
  intros H Hs Hc. unfold dispatch, branches. cbn [find].
  destruct b;
    repeat match goal with
           | |- context [shape ?b' str] =>
               first [ rewrite (H b' ltac:(discriminate)) | rewrite Hs ]
           end;
    rewrite ?andb_false_r, Hc; reflexivity.
Qed.

(** For a branch whose tokens have no other shape, the presence predicate
    after the loop tells whether such a token occurred. *)
Lemma closed_iff_token (b : branch) (els : list elem) :
  b <> BVis -> b <> BCloud ->
  (forall str, shape b str = true -> forall b', b' <> b -> shape b' str = false) ->
  forall m, closed b m = false ->
  closed b (parse_tokens m els) = existsb (shape b) (map tok els).
Proof.
  intros Hv Hc Hex. induction els as [|el els IH]; intros m Hm; [exact Hm|].
  cbn [parse_tokens fold_left map existsb].
  fold (parse_tokens (parse_element m el) els).
  destruct (shape b (tok el)) eqn:Hs.
  - pose proof (dispatch_only_shape m (tok el) b (Hex _ Hs) Hs Hm) as Hd.
    pose proof (parse_element_dispatched m el b Hd) as E.
    assert (C : closed b (parse_element m el) = true).
    { rewrite (closed_field b _ _ E).
      apply sub_parser_closes; assumption. }
    rewrite (closed_field b _ _ (parse_tokens_closed b els _ C)).
    exact C.
  - cbn [orb]. apply IH.
    rewrite (closed_field b _ _ (parse_element_no_shape m el b Hs)). exact Hm.
Qed.

Lemma is_altQ_inv (str : cstring) :
  is_altQ str = true ->
  exists a b c d, str = "Q"%char :: [a; b; c; d] /\
    isdigit a = true /\ isdigit b = true /\ isdigit c = true /\ isdigit d = true.
Proof.
  intros H. invert_match H. do 4 eexists. split; [reflexivity|auto].
Qed.

Lemma altA_exclusive (str : cstring) :
  shape BAltA str = true -> forall b', b' <> BAltA -> shape b' str = false.
Proof.
  intros H b' Hb'.
  destruct (is_altA_inv _ H) as (a & b & c & d & -> & Ha & Hb & Hc & Hd).
  destruct b'; try congruence; eval_shape; reflexivity.
Qed.

Lemma altQ_exclusive (str : cstring) :
  shape BAltQ str = true -> forall b', b' <> BAltQ -> shape b' str = false.
Proof.
  intros H b' Hb'.
  destruct (is_altQ_inv _ H) as (a & b & c & d & -> & Ha & Hb & Hc & Hd).
  destruct b'; try congruence; eval_shape; reflexivity.
Qed.

Lemma slp_exclusive (str : cstring) :
  shape BSlp str = true -> forall b', b' <> BSlp -> shape b' str = false.
Proof.
  intros H b' Hb'.
  destruct (is_slp_inv _ H) as (a & b & c & -> & Ha & Hb & Hc).
  destruct b'; try congruence; eval_shape; reflexivity.
Qed.

(** ** Temperature *)

Lemma atoi_two (a b : ascii) :
  isdigit a = true -> isdigit b = true -> atoi [a; b] = two_digits a b.
Proof.
  intros Ha Hb.
  pose proof (digit_val_range a Ha). pose proof (digit_val_range b Hb).
  assert (E : digits_val 0 [a; b] = two_digits a b).
  { cbn [digits_val]. rewrite Ha, Hb. reflexivity. }
  rewrite (atoi_digit a _ Ha);
    rewrite E; unfold two_digits;
    [apply wrap32_small; lia
    |change (10 ^ 18)%Z with 1000000000000000000%Z; lia].
Qed.

Lemma atoi_minus_two (a b : ascii) :
  isdigit a = true -> isdigit b = true ->
  atoi ["-"%char; a; b] = (- two_digits a b)%Z.
Proof.
  intros Ha Hb. unfold atoi, strtol, scan_number. cbn [skip_space isspace].
  change (isspace "-") with false. cbn iota.
  change (Ascii.eqb "-" "-") with true. cbn iota.
  cbn [digits_val]. rewrite Ha, Hb.
  pose proof (digit_val_range a Ha). pose proof (digit_val_range b Hb).
  unfold two_digits, LONG_MIN. change (2 ^ 63)%Z with 9223372036854775808%Z.
  rewrite Z.max_r by lia. apply wrap32_small. lia.
Qed.

(** The five forms that [is_temp] lists are decoded side by side. *)
Lemma recognized_temperature_forms (m : Metar) (a b c d : ascii) :
  isdigit a = true -> isdigit b = true -> isdigit c = true -> isdigit d = true ->
  let t := two_digits a b in
  let dw := two_digits c d in
  let result (str : cstring) :=
    (is_temp str, _temp (parse_temp m str), _dew (parse_temp m str)) in
  result ([a; b] ++ lit "/" ++ [c; d]) = (true, t, dw) /\
  result ([a; b] ++ lit "/M" ++ [c; d]) = (true, t, - dw)%Z /\
  result (lit "M" ++ [a; b] ++ lit "/M" ++ [c; d]) = (true, - t, - dw)%Z /\
  result ([a; b] ++ lit "/") = (true, t, _dew m) /\
  result (lit "M" ++ [a; b] ++ lit "/") = (true, (- t)%Z, _dew m).
Proof.
  intros Ha Hb Hc Hd t dw result. subst result. cbv beta.
  unfold parse_temp, is_temp, temp, lit.
  cbn [list_ascii_of_string app].
  repeat split;
    rewrite ?match_cons, ?match_nil_l, ?match_nil_r;
    repeat rewrite ?match_character_digit,
      ?(match_character_lit "/" _ eq_refl eq_refl),
      ?(match_character_lit "M" _ eq_refl eq_refl);
    cbn [strstr is_prefix option_map];
    digits; const_chars; cbn [andb orb option_map hd tl strncpy firstn skipn
                                 Nat.add nth negb];
    digits; const_chars; fields;
    rewrite ?atoi_two, ?atoi_minus_two by assumption;
    unfold NUL, Ascii.zero;
    repeat (progress (rewrite ?match_character_digit; digits; const_chars;
                      cbn [andb orb negb]; fields));
    reflexivity.
Qed.

(** ** Sea-level pressure *)

Lemma field_slp_eq (m1 m2 : Metar) :
  field BSlp m1 = field BSlp m2 ->
  _slp m1 = _slp m2 /\ hasSeaLevelPressure m1 = hasSeaLevelPressure m2.
Proof.
  cbn [field]. intros H. injection H as E.
  unfold hasSeaLevelPressure. rewrite E. auto.
Qed.

Lemma digits_val_three (a b c : ascii) :
  isdigit a = true -> isdigit b = true -> isdigit c = true ->
  digits_val 0 [a; b; c] = three_digits a b c /\
  (0 <= three_digits a b c < 1000)%Z.
Proof.
  intros Ha Hb Hc. cbn [digits_val]. rewrite Ha, Hb, Hc.
  pose proof (digit_val_range a Ha). pose proof (digit_val_range b Hb).
  pose proof (digit_val_range c Hc). unfold three_digits. lia.
Qed.

Lemma tokens_of_SLP (past : nat -> ascii) (a b c : ascii) :
  isdigit a = true -> isdigit b = true -> isdigit c = true ->
  tokens_of past (string_of_list_ascii (lit "SLP" ++ [a; b; c]))
  = [mkElem (lit "SLP" ++ [a; b; c]) past].
Proof.
  intros Ha Hb Hc. unfold tokens_of, lit.
  rewrite list_ascii_of_string_of_list_ascii.
  eval_shape. reflexivity.
Qed.

(** ** Fractional visibility *)

Lemma firstn_app_length (A : Type) (a b : list A) (n : nat) :
  firstn (length a + n) (a ++ b) = a ++ firstn n b.
Proof. induction a as [|x a IH]; cbn; [reflexivity|]. f_equal. exact IH. Qed.

Lemma skipn_app_length (A : Type) (a b : list A) (n : nat) :
  skipn (length a + n) (a ++ b) = skipn n b.
Proof. induction a as [|x a IH]; cbn; [reflexivity|exact IH]. Qed.

(** The first occurrence of a needle behind a prefix that does not contain
    its first character. *)
Lemma strstr_behind (c : ascii) (needle pre rest : cstring) :
  Forall (fun x => Ascii.eqb c x = false) pre ->
  is_prefix (c :: needle) rest = true ->
  strstr (pre ++ rest) (c :: needle) = Some (length pre).
Proof.
  intros Hpre Hrest. induction Hpre as [|x pre Hx _ IH].
  - cbn [app length]. destruct rest as [|y rest]; [discriminate Hrest|].
    cbn [strstr]. rewrite Hrest. reflexivity.
  - cbn [app length strstr is_prefix]. rewrite Hx. cbn [andb].
    rewrite IH. reflexivity.
Qed.

Lemma digits_val_stop (s r : cstring) (c : ascii) : forall acc,
  all_digits s -> isdigit c = false ->
  digits_val acc (s ++ c :: r) = digits_val acc s.
Proof.
  induction s as [|x s IH]; intros acc Hs Hc.
  - cbn. rewrite Hc. reflexivity.
  - inversion Hs as [|? ? Hx Hs']; subst. cbn [app digits_val].
    rewrite Hx. apply IH; assumption.
Qed.

(** [atof] of a run of digits, alone or followed by another character. *)
Lemma atof_digits (s : cstring) :
  s <> [] -> all_digits s -> atof s = float_of_Z (decimal s).
Proof.
  intros Hne Hs. destruct s as [|x s]; [contradiction Hne; reflexivity|].
  inversion Hs; subst. apply atof_digit. assumption.
Qed.

Lemma atof_digits_stop (s r : cstring) (c : ascii) :
  s <> [] -> all_digits s -> isdigit c = false ->
  atof (s ++ c :: r) = float_of_Z (decimal s).
Proof.
  intros Hne Hs Hc. destruct s as [|x s]; [contradiction Hne; reflexivity|].
  inversion Hs as [|? ? Hx Hs']; subst. cbn [app].
  rewrite (atof_digit x _ Hx). unfold decimal.
  change (x :: s ++ c :: r) with ((x :: s) ++ c :: r).
  rewrite digits_val_stop by assumption. reflexivity.
Qed.

Lemma all_digits_not (c : ascii) (s : cstring) :
  isdigit c = false -> all_digits s -> Forall (fun x => Ascii.eqb c x = false) s.
Proof.
  intros Hc Hs. induction Hs as [|x s Hx _ IH]; constructor.
  - apply digit_neq; assumption.
  - exact IH.
Qed.

Section Fraction.

Variables (lt : bool) (N D : cstring).
Hypothesis N_nonempty : N <> [].
Hypothesis D_nonempty : D <> [].
Hypothesis N_digits : all_digits N.
Hypothesis D_digits : all_digits D.

Let pre : cstring := (if lt then ["M"%char] else []) ++ N.
Let str : cstring := fraction_token lt N D.

Lemma fraction_split : str = pre ++ "/"%char :: D ++ VIS_UNITS_SM.
Proof. unfold str, pre, fraction_token. rewrite <- app_assoc. reflexivity. Qed.

Lemma fraction_pre_no_slash : Forall (fun x => Ascii.eqb "/" x = false) pre.
Proof.
  unfold pre. apply Forall_app. split.
  - destruct lt; repeat constructor.
  - apply all_digits_not; [reflexivity|exact N_digits].
Qed.

Lemma fraction_slash : strstr str (lit "/") = Some (length pre).
Proof.
  rewrite fraction_split. apply strstr_behind.
  - exact fraction_pre_no_slash.
  - reflexivity.
Qed.

Lemma fraction_unit : strstr str VIS_UNITS_SM = Some (length pre + 1 + length D)%nat.
Proof.
  rewrite fraction_split.
  change (pre ++ "/"%char :: D ++ VIS_UNITS_SM)
    with (pre ++ ("/"%char :: D) ++ VIS_UNITS_SM).
  rewrite app_assoc.
  replace (length pre + 1 + length D)%nat with (length (pre ++ "/"%char :: D))
    by (rewrite length_app; cbn [length]; lia).
  apply strstr_behind; [|reflexivity].
  apply Forall_app. split.
  - unfold pre. apply Forall_app. split.
    + destruct lt; repeat constructor.
    + apply all_digits_not; [reflexivity|exact N_digits].
  - constructor; [reflexivity|].
    apply all_digits_not; [reflexivity|exact D_digits].
Qed.

Lemma fraction_hd : hd NUL str = hd NUL pre /\
  Ascii.eqb (hd NUL str) "M" = lt /\
  (isdigit (hd NUL str) || Ascii.eqb (hd NUL str) "M") = true.
Proof.
  unfold str, pre, fraction_token. destruct lt; cbn [app hd].
  - auto.
  - destruct N as [|x N']; [contradiction N_nonempty; reflexivity|].
    inversion N_digits as [|? ? Hx _]; subst. cbn [app hd].
    rewrite (digit_neq_r "M" x Hx eq_refl), Hx. auto.
Qed.

Lemma fraction_not_CAVOK : streq str (lit "CAVOK") = false.
Proof.
  unfold str, fraction_token. destruct lt; cbn [app]; [reflexivity|].
  destruct N as [|x N']; [contradiction N_nonempty; reflexivity|].
  inversion N_digits as [|? ? Hx _]; subst.
  cbn [app lit list_ascii_of_string streq].
  rewrite (digit_neq_r "C" x Hx eq_refl). reflexivity.
Qed.

Lemma fraction_numerator :
  atof (if Ascii.eqb (hd NUL str) "M"
        then strncpy (skipn 1 str) (length pre)
        else strncpy str (length pre))
  = float_of_Z (decimal N).
Proof.
  destruct fraction_hd as (_ & -> & _). unfold strncpy.
  unfold str, pre, fraction_token. destruct lt; cbn [app length skipn].
  - change (S (length N)) with (1 + length N)%nat.
    rewrite Nat.add_comm, firstn_app_length. cbn [firstn].
    apply atof_digits_stop; auto.
  - rewrite <- (Nat.add_0_r (length N)), firstn_app_length. cbn [firstn].
    rewrite app_nil_r. apply atof_digits; auto.
Qed.

Lemma fraction_denominator :
  atof (strncpy (skipn (length pre + 1) str)
                (length pre + 1 + length D - length pre))
  = float_of_Z (decimal D).
Proof.
  rewrite fraction_split. unfold strncpy.
  change (pre ++ "/"%char :: D ++ VIS_UNITS_SM)
    with (pre ++ ["/"%char] ++ D ++ VIS_UNITS_SM).
  rewrite skipn_app_length. cbn [skipn app].
  replace (length pre + 1 + length D - length pre)%nat
    with (length D + 1)%nat by lia.
  rewrite firstn_app_length. cbn [firstn lit list_ascii_of_string VIS_UNITS_SM].
  apply atof_digits_stop; auto.
Qed.

Lemma fraction_is_vis : is_vis str = true.
Proof.
  unfold is_vis. rewrite fraction_not_CAVOK, fraction_unit.
  assert (Hlen : length str = (length pre + 1 + length D + 2)%nat).
  { rewrite fraction_split, !length_app. cbn [length]. rewrite length_app.
    cbn. lia. }
  rewrite Hlen.
  replace (length pre + 1 + length D + 2 - (length pre + 1 + length D))%nat
    with 2%nat by lia.
  cbn [Nat.eqb].
  destruct fraction_hd as (_ & _ & Hhd).
  apply orb_true_iff in Hhd.
  assert (negb (isdigit (hd NUL str)) && negb (Ascii.eqb (hd NUL str) "M") = false)
    as ->.
  { destruct Hhd as [-> | ->]; [reflexivity|apply andb_false_r]. }
  unfold vis_body_ok. rewrite Hlen.
  apply forallb_forall. intros c Hc.
  assert (Hin : In c (N ++ "/"%char :: D)).
  { revert Hc. rewrite fraction_split. unfold pre.
    replace (length ((if lt then ["M"%char] else []) ++ N) + 1 + length D + 2 - 3)%nat
      with (length (tl ((if lt then ["M"%char] else []) ++ N) ++ "/"%char :: D) + 0)%nat.
    2:{ destruct lt; cbn [app tl length].
        - rewrite length_app. cbn [length]. lia.
        - destruct N; [contradiction N_nonempty; reflexivity|].
          cbn [app tl length]. rewrite length_app. cbn [length]. lia. }
    assert (E : skipn 1 (((if lt then ["M"%char] else []) ++ N)
                           ++ "/"%char :: D ++ VIS_UNITS_SM)
                = (tl ((if lt then ["M"%char] else []) ++ N) ++ "/"%char :: D)
                    ++ VIS_UNITS_SM).
    { destruct lt; cbn [app tl skipn].
      - rewrite <- app_assoc. reflexivity.
      - destruct N; [contradiction N_nonempty; reflexivity|].
        cbn [app tl skipn]. rewrite <- app_assoc. reflexivity. }
    rewrite E, firstn_app_length. cbn [firstn]. rewrite app_nil_r.
    intros H. apply in_app_or in H. apply in_or_app.
    destruct H as [H|H]; [left|right; exact H].
    destruct lt; cbn [app tl] in H; [exact H|].
    destruct N; [destruct H|]. right. exact H. }
  apply in_app_or in Hin. destruct Hin as [Hin|[<-|Hin]].
  - rewrite (proj1 (Forall_forall _ _) N_digits c Hin). reflexivity.
  - reflexivity.
  - rewrite (proj1 (Forall_forall _ _) D_digits c Hin). reflexivity.
Qed.

Lemma fraction_parse (m : Metar) :
  parse_vis m str
  = set_vis_units (Some VIS_UNITS_SM)
      (let m0 := if lt then set_vis_lt true m else m in
       let q := (float_of_Z (decimal N) / float_of_Z (decimal D))%float in
       let m1 := set_vis q m0 in
       if previous_is_digit m
       then set_vis (q + atof_previous m)%float m1
       else m1).
Proof.
  unfold parse_vis.
  rewrite fraction_not_CAVOK, fraction_unit, fraction_slash.
  cbv zeta. rewrite fraction_numerator, fraction_denominator.
  destruct fraction_hd as (_ & -> & _).
  f_equal. destruct lt; reflexivity.
Qed.

End Fraction.

(** ** Which branch takes a fraction token *)

Section FractionDispatch.

Variables (lt : bool) (N D : cstring).
Hypothesis N_nonempty : N <> [].
Hypothesis D_nonempty : D <> [].
Hypothesis N_digits : all_digits N.
Hypothesis D_digits : all_digits D.

Let str : cstring := fraction_token lt N D.

Lemma fraction_chars (c : ascii) :
  In c str ->
  isdigit c = true \/ c = "/"%char \/ c = "M"%char \/ c = "S"%char.
Proof.
  unfold str, fraction_token. intros H.
  apply in_app_or in H. destruct H as [H|H].
  - destruct lt; cbn in H; [|destruct H]. destruct H as [<-|H]; [auto|destruct H].
  - apply in_app_or in H. destruct H as [H|[<-|H]].
    + left. exact (proj1 (Forall_forall _ _) N_digits c H).
    + auto.
    + apply in_app_or in H. destruct H as [H|H].
      * left. exact (proj1 (Forall_forall _ _) D_digits c H).
      * cbn in H. destruct H as [<-|[<-|H]]; [auto|auto|destruct H].
Qed.

Lemma fraction_has_slash : In "/"%char str.
Proof.
  unfold str, fraction_token. apply in_or_app. right.
  apply in_or_app. right. left. reflexivity.
Qed.

Lemma fraction_lacks (c : ascii) :
  isdigit c = false -> Ascii.eqb c "/" = false -> Ascii.eqb c "M" = false ->
  Ascii.eqb c "S" = false -> ~ In c str.
Proof.
  intros H1 H2 H3 H4 Hin.
  destruct (fraction_chars c Hin) as [E | [-> | [-> | ->]]]; try discriminate.
  congruence.
Qed.

Lemma fraction_not_metar : is_metar str = false.
Proof.
  unfold is_metar. apply orb_false_iff. split; apply not_true_is_false; intros E;
    apply streq_eq in E.
  - apply (fraction_lacks "E"); try reflexivity. rewrite E. cbn. auto.
  - apply (fraction_lacks "P"); try reflexivity. rewrite E. cbn. auto.
Qed.

Lemma fraction_not_icao : is_icao str = false.
Proof.
  apply not_true_is_false. intros E. apply is_icao_iff in E.
  destruct E as [_ E].
  pose proof (proj1 (Forall_forall _ _) E _ fraction_has_slash) as H.
  discriminate H.
Qed.

Lemma fraction_not_ot : is_ot str = false.
Proof.
  apply not_true_is_false. intros E.
  apply (fraction_lacks "Z"); try reflexivity.
  apply (match_literal_in "Z" (lit "######Z")); try reflexivity; [|exact E].
  cbn. auto 10.
Qed.

Lemma fraction_not_wind_var : is_wind_var str = false.
Proof.
  apply not_true_is_false. intros E.
  apply (fraction_lacks "V"); try reflexivity.
  apply (match_literal_in "V" (lit "###V###")); try reflexivity; [|exact E].
  cbn. auto 10.
Qed.

(** Only a numerator of five digits or more, without a leading "M", has the
    wind shape. *)
Lemma fraction_not_wind :
  lt = true \/ (length N <= 4)%nat -> is_wind str = false.
Proof.
  intros Hc. apply not_true_is_false. intros E.
  assert (Hfirst : isdigit (hd NUL str) = true ->
                   lt = false /\ nth (length N) str NUL = "/"%char).
  { unfold str, fraction_token. destruct lt; cbn [app hd].
    - discriminate.
    - intros _. split; [reflexivity|].
      rewrite app_nth2 by lia. rewrite Nat.sub_diag. reflexivity. }
  assert (Hfive : forall p, starts_with (lit "#####" ++ p) str = true -> False).
  { intros p H.
    pose proof (starts_with_nth _ _ H) as Hn.
    destruct (Hfirst (starts_with_first _ _ _ H)) as [Hlt Hslash].
    destruct Hc as [Hc|Hl]; [congruence|].
    specialize (Hn (length N) ltac:(cbn; lia)).
    assert (Hp : nth (length N) (lit "#####" ++ p) NUL = "#"%char).
    { destruct (length N) as [|[|[|[|[|n]]]]]; try reflexivity. lia. }
    rewrite Hp, match_character_digit, Hslash in Hn. discriminate Hn. }
  unfold is_wind in E. rewrite !orb_true_iff in E.
  destruct E as [[[E|E]|E]|E].
  - apply (Hfive []). exact E.
  - apply (Hfive (lit "G##")). exact E.
  - apply (Hfive (lit "#G###")). exact E.
  - apply starts_with_first in E.
    rewrite (match_character_lit "V" _ eq_refl eq_refl) in E.
    apply Ascii.eqb_eq in E.
    apply (fraction_lacks "V"); try reflexivity. rewrite E.
    unfold str, fraction_token. destruct lt; cbn [app hd]; [left; reflexivity|].
    destruct N; [contradiction N_nonempty; reflexivity|]. left. reflexivity.
Qed.

Lemma fraction_dispatch (m : Metar) :
  hasVisibility m = false -> _cavok m = false ->
  lt = true \/ (length N <= 4)%nat \/ hasWindSpeed m = true ->
  dispatch m str = Some BVis.
Proof.
  intros Hv Hc Hw. unfold dispatch, branches. cbn [find closed shape].
  assert (Hs : is_vis str = true) by (apply fraction_is_vis; assumption).
  rewrite fraction_not_metar, fraction_not_icao, fraction_not_ot,
    fraction_not_wind_var, Hs.
  rewrite !andb_false_r, Hv, Hc.
  destruct Hw as [Hw|[Hw|Hw]].
  - rewrite fraction_not_wind by auto. rewrite andb_false_r. reflexivity.
  - rewrite fraction_not_wind by auto. rewrite andb_false_r. reflexivity.
  - rewrite Hw. reflexivity.
Qed.

End FractionDispatch.

(** ** Cloud layers *)

(** A token accepted by [is_cloud_layer] begins with one of the seven cover
    codes. *)
Lemma is_cloud_layer_inv (str : cstring) :
  is_cloud_layer str = true ->
  exists sc r, In sc sky_conditions /\ str = sc ++ r.
Proof.
  unfold is_cloud_layer. intros H. apply existsb_exists in H.
  destruct H as [sc [Hin H]]. exists sc.
  unfold sky_conditions, lit in Hin. cbn [list_ascii_of_string In] in Hin.
  unfold sky_conditions, lit. cbn [list_ascii_of_string In].
  repeat (destruct Hin as [<-|Hin];
          [ repeat match type of H with
                   | starts_with (_ :: _) ?s = true =>
                       let c := fresh "c" in
                       destruct s as [|c s];
                       [rewrite starts_with_nil_r in H; discriminate H|];
                       rewrite starts_with_cons in H;
                       let E := fresh "E" in
                       apply andb_true_iff in H; destruct H as [E H];
                       match type of E with
                       | match_character ?p _ = true =>
                           rewrite (match_character_lit p _ eq_refl eq_refl) in E;
                           apply Ascii.eqb_eq in E; subst c
                       end
                   end;
            exists str; split; [tauto|reflexivity]
          | ]).
  destruct Hin.
Qed.

Lemma layers_of_fold (el : elem) (l : list cstring) : forall m,
  _layers (fold_left
             (fun m sc =>
                if starts_with sc (tok el)
                then set_layers (_layers m ++ [new_layer sc el]) m
                else m) l m)
  = _layers m ++ flat_map (fun sc => if starts_with sc (tok el)
                                     then [new_layer sc el] else []) l.
Proof.
  induction l as [|sc l IH]; intros m; cbn [fold_left flat_map].
  - symmetry. apply app_nil_r.
  - rewrite IH. destruct (starts_with sc (tok el)); fields.
    + rewrite <- app_assoc. reflexivity.
    + reflexivity.
Qed.

Lemma parse_cloud_layer_layers (m : Metar) (el : elem) :
  _layers (parse_cloud_layer m el) = _layers m ++ layer_of el.
Proof.
  unfold layer_of, parse_cloud_layer. rewrite !layers_of_fold. reflexivity.
Qed.

(** A cloud-layer token adds exactly one layer, that of its cover code. *)
Lemma layer_of_one (el : elem) :
  is_cloud_layer (tok el) = true ->
  exists sc, In sc sky_conditions /\ starts_with sc (tok el) = true /\
             layer_of el = [new_layer sc el].
Proof.
  intros H. destruct (is_cloud_layer_inv _ H) as (sc & r & Hin & Hstr).
  exists sc. split; [exact Hin|].
  unfold layer_of, parse_cloud_layer. rewrite layers_of_fold.
  cbn [_layers Metar_init app]. rewrite Hstr.
  unfold sky_conditions, lit in *. cbn [list_ascii_of_string In] in Hin.
  cbn [list_ascii_of_string flat_map].
  repeat (destruct Hin as [<-|Hin];
          [ cbn [app]; rewrite !starts_with_cons, !starts_with_nil_l;
            unfold match_character; const_chars; cbn [andb app];
            split; reflexivity | ]).
  destruct Hin.
Qed.

Lemma field_layers_eq (m1 m2 : Metar) :
  field BCloud m1 = field BCloud m2 -> _layers m1 = _layers m2.
Proof. cbn [field]. intros H. injection H as E. exact E. Qed.

Lemma parse_element_layers (m : Metar) (el : elem) :
  _layers (parse_element m el)
  = match dispatch m (tok el) with
    | Some BCloud => _layers m ++ layer_of el
    | _ => _layers m
    end.
Proof.
  destruct (dispatch m (tok el)) as [b|] eqn:E.
  - destruct b;
      try (apply field_layers_eq, parse_element_other; rewrite E; discriminate).
    rewrite (field_layers_eq _ _ (parse_element_dispatched m el BCloud E)).
    apply parse_cloud_layer_layers.
  - apply field_layers_eq, parse_element_other. rewrite E. discriminate.
Qed.

Lemma closed_cloud (m : Metar) :
  closed BCloud m = false <-> (length (_layers m) < 3)%nat.
Proof.
  cbn [closed]. unfold _num_layers, _MAX_CLOUD_LAYERS.
  rewrite negb_false_iff. apply Nat.ltb_lt.
Qed.

Lemma parse_element_cap (m : Metar) (el : elem) :
  (length (_layers m) <= 3)%nat ->
  (length (_layers (parse_element m el)) <= 3)%nat.
Proof.
  intros H. rewrite parse_element_layers.
  destruct (dispatch m (tok el)) as [b|] eqn:E; [|exact H].
  destruct b; try exact H.
  destruct (dispatch_Some _ _ _ E) as [Hc Hs].
  apply closed_cloud in Hc. cbn [shape] in Hs.
  destruct (layer_of_one el Hs) as (sc & _ & _ & ->).
  rewrite length_app. cbn [length]. lia.
Qed.

Lemma parse_tokens_cap (els : list elem) : forall m,
  (length (_layers m) <= 3)%nat ->
  (length (_layers (parse_tokens m els)) <= 3)%nat.
Proof.
  induction els as [|el els IH]; intros m H; [exact H|].
  cbn [parse_tokens fold_left]. apply IH, parse_element_cap, H.
Qed.

(** The layers added by the loop are those of a subsequence of the tokens,
    in the order of the tokens. *)
Lemma parse_tokens_layers (els : list elem) : forall m,
  exists accepted,
    subseq accepted els /\
    Forall (fun el => is_cloud_layer (tok el) = true) accepted /\
    _layers (parse_tokens m els) = _layers m ++ flat_map layer_of accepted.
Proof.
  induction els as [|el els IH]; intros m.
  - exists []. split; [constructor|]. split; [constructor|].
    cbn. symmetry. apply app_nil_r.
  - cbn [parse_tokens fold_left].
    fold (parse_tokens (parse_element m el) els).
    destruct (IH (parse_element m el)) as (acc & Hsub & Hall & E).
    rewrite E, parse_element_layers.
    destruct (dispatch m (tok el)) as [b|] eqn:D.
    + destruct b;
        try (exists acc; split; [constructor; exact Hsub|];
             split; [exact Hall|reflexivity]).
      exists (el :: acc). split; [constructor; exact Hsub|]. split.
      * constructor; [|exact Hall].
        apply (dispatch_Some _ _ _ D).
      * cbn [flat_map]. rewrite <- app_assoc. reflexivity.
    + exists acc. split; [constructor; exact Hsub|].
      split; [exact Hall|reflexivity].
Qed.

(** The cover codes exclude every shape of higher priority except that of
    the station identifier. *)
Lemma cloud_token_shapes (str : cstring) :
  is_cloud_layer str = true ->
  is_metar str = false /\ is_ot str = false /\ is_wind str = false /\
  is_wind_var str = false /\ is_vis str = false.
Proof.
  intros H. destruct (is_cloud_layer_inv _ H) as (sc & r & Hin & ->).
  unfold sky_conditions, lit in Hin. cbn [list_ascii_of_string In] in Hin.
  repeat (destruct Hin as [<-|Hin];
          [ split; [reflexivity|];
            split; [apply not_true_is_false; intros E;
                    apply is_ot_first in E; discriminate E|];
            split; [apply not_true_is_false; intros E;
                    apply is_wind_first in E;
                    destruct E as [E|E]; discriminate E|];
            split; [apply not_true_is_false; intros E;
                    apply is_wind_var_first in E; discriminate E|];
            apply not_true_is_false; intros E;
            apply is_vis_first in E;
            destruct E as [E|[E|E]]; discriminate E
          | ]).
  destruct Hin.
Qed.

Lemma dispatch_cloud (m : Metar) (str : cstring) :
  (length (_layers m) < 3)%nat -> is_cloud_layer str = true ->
  hasICAO m = true \/ is_icao str = false ->
  dispatch m str = Some BCloud.
Proof.
  intros Hn Hs Hi. destruct (cloud_token_shapes str Hs) as (H1 & H2 & H3 & H4 & H5).
  apply closed_cloud in Hn.
  unfold dispatch, branches. cbn [find shape]. rewrite H1, H2, H3, H4, H5, Hs.
  rewrite !andb_false_r, Hn.
  cbn [closed]. destruct Hi as [-> | ->]; rewrite ?andb_false_r; reflexivity.
Qed.

(** ** The unit tests of the repository *)

(** The cases of [src/tests/metar_test.cpp] that exercise the groups decoded
    by this version of [Metar::parse], evaluated on the embedding.  Each
    statement lists the values the test case checks.  A report that holds an
    observation time is not decoded with the arrays as declared, since the
    last copy of [parse_ot] leaves [char val[3]]; for such a report the
    values are those decoded with an array of four bytes. *)

Example test_uninitialized : forall past,
  let m := Metar_parse past "" in
  map (fun has => has m)
    [hasMETAR; hasICAO; hasDay; hasHour; hasMinute; hasTemperature; hasDewPoint;
     hasTemperatureNA; hasDewPointNA; hasWindSpeed; hasWindDirection;
     hasWindGust; hasMinWindDirection; hasMaxWindDirection; hasAltimeterA;
     hasAltimeterQ; hasSeaLevelPressure; hasVisibility; hasVerticalVisibility]
  = repeat false 19 /\
  _wind_speed_units m = None /\ _vis_units m = None /\ _layers m = [].
Proof. intros past. vm_compute. repeat split; reflexivity. Qed.

Example test_observation_time : forall past,
  Metar_parse_checked declared past "123456Z" = None /\
  option_map observation_time
    (Metar_parse_checked (with_ot_val 4) past "123456Z")
  = Some (12, 34, 56)%Z.
Proof. intros past. vm_compute. split; reflexivity. Qed.

Example test_temperature : forall past,
  map (fun s => temperature (Metar_parse past s))
    ["08/06"; "01/M01"; "M14/M15"; "15/14"; "15/"; "M07/"]%string
  = [(8, 6); (1, -1); (-14, -15); (15, 14); (15, INT_MIN); (-7, INT_MIN)]%Z.
Proof. intros past. vm_compute. reflexivity. Qed.

#[warning="-inexact-float"]
Example test_temperatureNA : forall past,
  map (fun s => temperatureNA (Metar_parse past s))
    ["T00830067"; "T01830167"; "T10171018"]%string
  = [(8.3, 6.7); (18.3, 16.7); (-1.7, -1.8)]%float.
Proof. intros past. vm_compute. reflexivity. Qed.

Example test_wind : forall past,
  map (fun s => wind (Metar_parse past s))
    ["25005KT"; "240105KT"; "240105G121KT"; "VRB105G121KT"; "25005G12KT";
     "04503MPS"; "VRB03MPS"; "08090G102MPS"; "04005KPH"; "VRB05G21KPH"]%string
  = [(250, 5, INT_MIN, Some WIND_SPEED_KT, false);
     (240, 105, INT_MIN, Some WIND_SPEED_KT, false);
     (240, 105, 121, Some WIND_SPEED_KT, false);
     (INT_MIN, 105, 121, Some WIND_SPEED_KT, true);
     (250, 5, 12, Some WIND_SPEED_KT, false);
     (45, 3, INT_MIN, Some WIND_SPEED_MPS, false);
     (INT_MIN, 3, INT_MIN, Some WIND_SPEED_MPS, true);
     (80, 90, 102, Some WIND_SPEED_MPS, false);
     (40, 5, INT_MIN, Some WIND_SPEED_KPH, false);
     (INT_MIN, 5, 21, Some WIND_SPEED_KPH, true)]%Z.
Proof. intros past. vm_compute. reflexivity. Qed.

Example test_wind_var : forall past,
  let m := Metar_parse past "090V150" in
  (_min_wind_dir m = 90 /\ _max_wind_dir m = 150)%Z.
Proof. intros past. vm_compute. split; reflexivity. Qed.

#[warning="-inexact-float"]
Example test_pressure : forall past,
  _altimeterA (Metar_parse past "A3006") = 30.06%float /\
  _altimeterQ (Metar_parse past "Q1020") = 1020%Z /\
  _slp (Metar_parse past "SLP177") = 1017.7%float.
Proof. intros past. vm_compute. repeat split; reflexivity. Qed.

#[warning="-inexact-float"]
Example test_visibility : forall past,
  map (fun s => visibility (Metar_parse past s))
    ["1500"; "10SM"; "1/4SM"; "5/16SM"; "2 1/2SM"; "M1/4SM"; "CAVOK"]%string
  = [(1500, Some VIS_UNITS_M, false, false);
     (10, Some VIS_UNITS_SM, false, false);
     (0.25, Some VIS_UNITS_SM, false, false);
     (0.3125, Some VIS_UNITS_SM, false, false);
     (2.5, Some VIS_UNITS_SM, false, false);
     (0.25, Some VIS_UNITS_SM, true, false);
     (DBL_MAX, None, false, true)]%float.
Proof. intros past. vm_compute. reflexivity. Qed.

Example test_vert_visibility : forall past,
  _vert_vis (Metar_parse past "VV105") = 10500%Z.
Proof. intros past. vm_compute. reflexivity. Qed.

Example test_cloud_layer : forall past,
  map (fun s => _layers (Metar_parse past s))
    ["CLR"; "SKC"; "NSC"; "FEW105"; "SCT045"; "BKN005"; "OVC050";
     "BKN004 OVC008"; "FEW004 SCT080 OVC120"; "FEW004TCU SCT080CB OVC120ACC"]%string
  = [[mkSky (lit "CLR") INT_MIN None];
     [mkSky (lit "SKC") INT_MIN None];
     [mkSky (lit "NSC") INT_MIN None];
     [mkSky (lit "FEW") 10500 None];
     [mkSky (lit "SCT") 4500 None];
     [mkSky (lit "BKN") 500 None];
     [mkSky (lit "OVC") 5000 None];
     [mkSky (lit "BKN") 400 None; mkSky (lit "OVC") 800 None];
     [mkSky (lit "FEW") 400 None; mkSky (lit "SCT") 8000 None;
      mkSky (lit "OVC") 12000 None];
     [mkSky (lit "FEW") 400 (Some (lit "TCU"));
      mkSky (lit "SCT") 8000 (Some (lit "CB"));
      mkSky (lit "OVC") 12000 (Some (lit "ACC"))]].
Proof. intros past. vm_compute. reflexivity. Qed.

(** The reports of the [real_METAR] cases.  The weather groups of these
    reports (+SN, -RA, BR, ...) belong to no branch of this version of
    [Metar::parse] and are skipped; the other checked values are as follows. *)

#[warning="-inexact-float"]
Example test_real_METAR_2 : forall past,
  let s := "METAR LBBG 041600Z 12012MPS 090V150 1400 R04/P1500N R22/P1500U +SN BKN022 OVC050 M04/M07 Q1020 NOSIG 8849//91="%string in
  let m := Metar_parse past s in
  Metar_parse_checked declared past s = None /\
  Metar_parse_checked (with_ot_val 4) past s = Some m /\
  message m = (lit "METAR", lit "LBBG") /\
  observation_time m = (4, 16, 0)%Z /\
  wind m = (120, 12, INT_MIN, Some WIND_SPEED_MPS, false)%Z /\
  wind_var m = (90, 150)%Z /\
  visibility m = (1400%float, Some VIS_UNITS_M, false, false) /\
  _layers m = [mkSky (lit "BKN") 2200 None; mkSky (lit "OVC") 5000 None] /\
  _vert_vis m = INT_MIN /\
  temperature m = (-4, -7)%Z /\
  pressure m = (DBL_MAX, 1020%Z, DBL_MAX) /\
  temperatureNA m = (DBL_MAX, DBL_MAX).
Proof. intros past. vm_compute. repeat split; reflexivity. Qed.

#[warning="-inexact-float"]
Example test_real_METAR_3 : forall past,
  let s := "SPECI KSTL 221513Z 07005KT 2SM -RA BR OVC005 02/02 A3041 RMK AO2 P0001 T00220022"%string in
  let m := Metar_parse past s in
  Metar_parse_checked declared past s = None /\
  Metar_parse_checked (with_ot_val 4) past s = Some m /\
  message m = (lit "SPECI", lit "KSTL") /\
  observation_time m = (22, 15, 13)%Z /\
  wind m = (70, 5, INT_MIN, Some WIND_SPEED_KT, false)%Z /\
  wind_var m = (INT_MIN, INT_MIN) /\
  visibility m = (2%float, Some VIS_UNITS_SM, false, false) /\
  _layers m = [mkSky (lit "OVC") 500 None] /\
  _vert_vis m = INT_MIN /\
  temperature m = (2, 2)%Z /\
  pressure m = (30.41%float, INT_MIN, DBL_MAX) /\
  temperatureNA m = (2.2, 2.2)%float.
Proof. intros past. vm_compute. repeat split; reflexivity. Qed.

#[warning="-inexact-float"]
Example test_real_METAR_4 : forall past,
  let s := "KSTL 262051Z VRB04KT 10SM CLR 16/M01 A3023 RMK AO2 SLP242 T01561006 57015"%string in
  let m := Metar_parse past s in
  Metar_parse_checked declared past s = None /\
  Metar_parse_checked (with_ot_val 4) past s = Some m /\
  message m = ([], lit "KSTL") /\
  observation_time m = (26, 20, 51)%Z /\
  wind m = (INT_MIN, 4, INT_MIN, Some WIND_SPEED_KT, true)%Z /\
  wind_var m = (INT_MIN, INT_MIN) /\
  visibility m = (10%float, Some VIS_UNITS_SM, false, false) /\
  _layers m = [mkSky (lit "CLR") INT_MIN None] /\
  _vert_vis m = INT_MIN /\
  temperature m = (16, -1)%Z /\
  pressure m = (30.23%float, INT_MIN, 1024.2%float) /\
  temperatureNA m = (15.6, -0.6)%float.
Proof. intros past. vm_compute. repeat split; reflexivity. Qed.

#[warning="-inexact-float"]
Example test_real_METAR_5 : forall past,
  let s := "KHLN 041610Z 28009KT 1/2SM SN FZFG VV007 M10/M12 A2998 RMK AO2 P0001 T11001117"%string in
  let m := Metar_parse past s in
  Metar_parse_checked declared past s = None /\
  Metar_parse_checked (with_ot_val 4) past s = Some m /\
  message m = ([], lit "KHLN") /\
  observation_time m = (4, 16, 10)%Z /\
  wind m = (280, 9, INT_MIN, Some WIND_SPEED_KT, false)%Z /\
  wind_var m = (INT_MIN, INT_MIN) /\
  visibility m = (0.5%float, Some VIS_UNITS_SM, false, false) /\
  _layers m = [] /\
  _vert_vis m = 700%Z /\
  temperature m = (-10, -12)%Z /\
  pressure m = (29.98%float, INT_MIN, DBL_MAX) /\
  temperatureNA m = (-10.0, -11.7)%float.
Proof. intros past. vm_compute. repeat split; reflexivity. Qed.

#[warning="-inexact-float"]
Example test_real_METAR_6 : forall past,
  let s := "KSTL 051520Z 12017KT 5SM -TSRA BR OVC007CB 06/05 A2989 RMK AO2 LTG DSNT SE OCNL LTGIC SE TSB0854 TS SE MOV NE P0004 T00560050"%string in
  let m := Metar_parse past s in
  Metar_parse_checked declared past s = None /\
  Metar_parse_checked (with_ot_val 4) past s = Some m /\
  message m = ([], lit "KSTL") /\
  observation_time m = (5, 15, 20)%Z /\
  wind m = (120, 17, INT_MIN, Some WIND_SPEED_KT, false)%Z /\
  visibility m = (5%float, Some VIS_UNITS_SM, false, false) /\
  _layers m = [mkSky (lit "OVC") 700 (Some (lit "CB"))] /\
  _vert_vis m = INT_MIN /\
  temperature m = (6, 5)%Z /\
  pressure m = (29.89%float, INT_MIN, DBL_MAX) /\
  temperatureNA m = (5.6, 5)%float.
Proof. intros past. vm_compute. repeat split; reflexivity. Qed.

#[warning="-inexact-float"]
Example test_real_METAR_7 : forall past,
  let s := "KSTL 091651Z 10010KT 060V120 10SM FEW120 BKN250 07/M06 A2998 RMK AO2 SLP160 T00671056"%string in
  let m := Metar_parse past s in
  Metar_parse_checked declared past s = None /\
  Metar_parse_checked (with_ot_val 4) past s = Some m /\
  message m = ([], lit "KSTL") /\
  observation_time m = (9, 16, 51)%Z /\
  wind m = (100, 10, INT_MIN, Some WIND_SPEED_KT, false)%Z /\
  wind_var m = (60, 120)%Z /\
  visibility m = (10%float, Some VIS_UNITS_SM, false, false) /\
  _layers m = [mkSky (lit "FEW") 12000 None; mkSky (lit "BKN") 25000 None] /\
  _vert_vis m = INT_MIN /\
  temperature m = (7, -6)%Z /\
  pressure m = (29.98%float, INT_MIN, 1016.0%float) /\
  temperatureNA m = (6.7, -5.6)%float.
Proof. intros past. vm_compute. repeat split; reflexivity. Qed.

#[warning="-inexact-float"]
Example test_real_METAR_8 : forall past,
  let s := "KSTL 192051Z 20004KT 10SM -RA FEW034 SCT048 OVC110 22/18 A2993 RMK AO2 PK WND 27032/2004 LTG DSNT E AND SE RAB06 TSB03E42 PRESFR SLP129 OCNL LTGIC DSNT E CB DSNT E MOV E P0003 60003 T02220178 58006 $"%string in
  let m := Metar_parse past s in
  Metar_parse_checked declared past s = None /\
  Metar_parse_checked (with_ot_val 4) past s = Some m /\
  message m = ([], lit "KSTL") /\
  observation_time m = (19, 20, 51)%Z /\
  wind m = (200, 4, INT_MIN, Some WIND_SPEED_KT, false)%Z /\
  visibility m = (10%float, Some VIS_UNITS_SM, false, false) /\
  _layers m = [mkSky (lit "FEW") 3400 None; mkSky (lit "SCT") 4800 None;
               mkSky (lit "OVC") 11000 None] /\
  temperature m = (22, 18)%Z /\
  pressure m = (29.93%float, INT_MIN, 1012.9%float) /\
  temperatureNA m = (22.2, 17.8)%float.
Proof. intros past. vm_compute. repeat split; reflexivity. Qed.

#[warning="-inexact-float"]
Example test_real_METAR_9 : forall past,
  let s := "KSTL 261605Z 10006KT 7SM -TSRA FEW050CB OVC090 06/01 A3014 RMK AO2 LTG DSNT S AND SW TSB05 OCNL LTGIC SW-W TS SW-W MOV NE P0001 T00610006"%string in
  let m := Metar_parse past s in
  Metar_parse_checked declared past s = None /\
  Metar_parse_checked (with_ot_val 4) past s = Some m /\
  message m = ([], lit "KSTL") /\
  observation_time m = (26, 16, 5)%Z /\
  wind m = (100, 6, INT_MIN, Some WIND_SPEED_KT, false)%Z /\
  visibility m = (7%float, Some VIS_UNITS_SM, false, false) /\
  _layers m = [mkSky (lit "FEW") 5000 (Some (lit "CB"));
               mkSky (lit "OVC") 9000 None] /\
  temperature m = (6, 1)%Z /\
  pressure m = (30.14%float, INT_MIN, DBL_MAX) /\
  temperatureNA m = (6.1, 0.6)%float.
Proof. intros past. vm_compute. repeat split; reflexivity. Qed.

(** * Further auxiliary results *)

(** ** Strings, patterns and tokens *)

Lemma c_str_no_NUL (s : cstring) : ~ In NUL s -> c_str s = s.
Proof.
  induction s as [|c s IH]; intros H; [reflexivity|].
  cbn [c_str]. destruct (Ascii.eqb c NUL) eqn:E.
  - apply Ascii.eqb_eq in E. contradiction H. left. exact E.
  - f_equal. apply IH. intros Hin. apply H. right. exact Hin.
Qed.

Lemma c_str_spec (s : cstring) : ~ In NUL (c_str s).
Proof.
  induction s as [|c s IH]; [intros []|].
  cbn [c_str]. destruct (Ascii.eqb c NUL) eqn:E; [intros []|].
  intros [H|H]; [|exact (IH H)].
  subst c. rewrite Ascii.eqb_refl in E. discriminate E.
Qed.

Lemma tokenize_blank (past : nat -> ascii) (s : cstring) :
  Forall (fun c => c = " "%char) s -> tokenize past [] s = [].
Proof.
  induction 1 as [|c s Hc _ IH]; [reflexivity|].
  subst c. cbn [tokenize]. rewrite Ascii.eqb_refl. exact IH.
Qed.

Lemma match_iff_Forall2 (p : cstring) : forall s,
  match_ p s = true <-> Forall2 (fun a c => match_character a c = true) p s.
Proof.
  induction p as [|a p IH]; intros s.
  - rewrite match_nil_l. destruct s; split; intros H.
    + constructor.
    + reflexivity.
    + discriminate H.
    + inversion H.
  - destruct s as [|c s].
    + rewrite match_nil_r. split; intros H; [discriminate H|inversion H].
    + rewrite match_cons, andb_true_iff, IH. split.
      * intros [H1 H2]. constructor; assumption.
      * intros H. inversion H; subst. split; assumption.
Qed.

Lemma starts_with_iff (p : cstring) : forall s,
  starts_with p s = true <->
  exists a b, s = a ++ b /\ match_ p a = true.
Proof.
  induction p as [|x p IH]; intros s.
  - rewrite starts_with_nil_l. split; [|reflexivity].
    intros _. exists [], s. split; reflexivity.
  - destruct s as [|c s].
    + rewrite starts_with_nil_r. split; [discriminate|].
      intros (a & b & E & H). destruct a; [|discriminate E].
      rewrite match_nil_r in H. discriminate H.
    + rewrite starts_with_cons, andb_true_iff, IH. split.
      * intros [H1 (a & b & -> & H2)]. exists (c :: a), b.
        split; [reflexivity|]. rewrite match_cons, H1, H2. reflexivity.
      * intros (a & b & E & H). destruct a as [|c' a].
        { rewrite match_nil_r in H. discriminate H. }
        injection E as <- ->. rewrite match_cons, andb_true_iff in H.
        destruct H as [H1 H2]. split; [exact H1|]. exists a, b.
        split; [reflexivity|exact H2].
Qed.

Lemma starts_with_app (p q s : cstring) :
  starts_with (p ++ q) s = true -> starts_with p s = true.
Proof.
  rewrite !starts_with_iff. intros (a & b & -> & H).
  apply match_iff_Forall2 in H. apply Forall2_app_inv_l in H.
  destruct H as (a1 & a2 & H1 & _ & ->).
  exists a1, (a2 ++ b). split; [symmetry; apply app_assoc|].
  apply match_iff_Forall2. exact H1.
Qed.

Lemma tokenize_word (past : nat -> ascii) (t : cstring) : forall cur rest,
  ~ In " "%char t ->
  tokenize past cur (t ++ rest) = tokenize past (cur ++ t) rest.
Proof.
  induction t as [|c t IH]; intros cur rest H.
  - rewrite app_nil_r. reflexivity.
  - cbn [app tokenize]. destruct (Ascii.eqb c " ") eqn:E.
    + apply Ascii.eqb_eq in E. contradiction H. left. exact E.
    + rewrite IH.
      * rewrite <- app_assoc. reflexivity.
      * intros Hin. apply H. right. exact Hin.
Qed.

Lemma tokenize_tok (past1 past2 : nat -> ascii) (s : cstring) : forall cur,
  map tok (tokenize past1 cur s) = map tok (tokenize past2 cur s).
Proof.
  induction s as [|c s IH]; intros cur; cbn [tokenize].
  - destruct cur; reflexivity.
  - destruct (Ascii.eqb c " ").
    + destruct cur; [apply IH|]. cbn [map tok]. f_equal. apply IH.
    + apply IH.
Qed.

Lemma tokenize_words (past : nat -> ascii) (s : cstring) : forall cur,
  ~ In " "%char cur -> ~ In NUL cur -> ~ In NUL s ->
  Forall word (map tok (tokenize past cur s)).
Proof.
  induction s as [|c s IH]; intros cur Hb Hn Hs; cbn [tokenize].
  - destruct cur as [|x cur]; [constructor|].
    constructor; [|constructor]. cbn [tok]. repeat split; [discriminate|exact Hb|exact Hn].
  - assert (Hs' : ~ In NUL s) by (intros H; apply Hs; right; exact H).
    destruct (Ascii.eqb c " ") eqn:E.
    + destruct cur as [|x cur].
      * apply IH; [intros []|intros []|exact Hs'].
      * cbn [map]. constructor.
        { cbn [tok]. repeat split; [discriminate|exact Hb|exact Hn]. }
        apply IH; [intros []|intros []|exact Hs'].
    + apply IH; [| |exact Hs'].
      * intros H. apply in_app_or in H. destruct H as [H|[H|[]]]; [exact (Hb H)|].
        subst c. rewrite Ascii.eqb_refl in E. discriminate E.
      * intros H. apply in_app_or in H. destruct H as [H|[H|[]]]; [exact (Hn H)|].
        apply Hs. left. exact H.
Qed.

Lemma unwords_no_NUL (ts : list cstring) :
  Forall word ts -> ~ In NUL (unwords ts).
Proof.
  induction 1 as [|t ts Ht Hts IH]; [intros []|].
  destruct ts as [|t' ts].
  - cbn [unwords]. apply Ht.
  - change (unwords (t :: t' :: ts)) with (t ++ " "%char :: unwords (t' :: ts)).
    intros H. apply in_app_or in H. destruct H as [H|[H|H]].
    + destruct Ht as (_ & _ & Hn). exact (Hn H).
    + discriminate H.
    + exact (IH H).
Qed.

Lemma tokenize_unwords (past : nat -> ascii) (ts : list cstring) :
  Forall word ts -> map tok (tokenize past [] (unwords ts)) = ts.
Proof.
  induction 1 as [|t ts Ht Hts IH]; [reflexivity|].
  destruct Ht as (Hne & Hb & Hn).
  destruct ts as [|t' ts].
  - cbn [unwords]. rewrite <- (app_nil_r t) at 1.
    rewrite tokenize_word by exact Hb. cbn [app tokenize].
    destruct t; [contradiction Hne; reflexivity|reflexivity].
  - change (unwords (t :: t' :: ts)) with (t ++ " "%char :: unwords (t' :: ts)).
    rewrite tokenize_word by exact Hb. cbn [app tokenize].
    rewrite Ascii.eqb_refl.
    destruct t as [|x t]; [contradiction Hne; reflexivity|].
    cbn [map tok]. f_equal. exact IH.
Qed.

(** ** Dispatch by shape *)

Lemma is_ot_inv (str : cstring) :
  is_ot str = true ->
  exists a b c d e f, str = [a; b; c; d; e; f; "Z"%char] /\
    Forall (fun x => isdigit x = true) [a; b; c; d; e; f].
Proof.
  intros H. invert_match H. do 6 eexists. split; [reflexivity|].
  repeat constructor; assumption.
Qed.

Lemma is_wind_var_inv (str : cstring) :
  is_wind_var str = true ->
  exists a b c d e f, str = [a; b; c; "V"%char; d; e; f] /\
    Forall (fun x => isdigit x = true) [a; b; c; d; e; f].
Proof.
  intros H. invert_match H. do 6 eexists. split; [reflexivity|].
  repeat constructor; assumption.
Qed.

Lemma is_vert_vis_inv (str : cstring) :
  is_vert_vis str = true ->
  exists a b c, str = lit "VV" ++ [a; b; c] /\
    isdigit a = true /\ isdigit b = true /\ isdigit c = true.
Proof.
  intros H. invert_match H. do 3 eexists. split; [reflexivity|auto].
Qed.

Lemma is_temp_inv (str : cstring) :
  is_temp str = true ->
  exists a b, isdigit a = true /\ isdigit b = true /\
    ((exists c d, isdigit c = true /\ isdigit d = true /\
        (str = [a; b] ++ lit "/" ++ [c; d] \/
         str = [a; b] ++ lit "/M" ++ [c; d] \/
         str = lit "M" ++ [a; b] ++ lit "/M" ++ [c; d]))
     \/ str = [a; b] ++ lit "/" \/ str = lit "M" ++ [a; b] ++ lit "/").
Proof.
  unfold is_temp. rewrite !orb_true_iff.
  intros [[[[H|H]|H]|H]|H]; unfold lit in H; cbn [list_ascii_of_string] in H;
    invert_match H;
    lazymatch goal with
    | |- context [[?a; ?b; "/"%char; ?c; ?d] = _] =>
        exists a, b; split; [assumption|]; split; [assumption|]; left;
        exists c, d; auto
    | |- context [[?a; ?b; "/"%char; "M"%char; ?c; ?d] = _] =>
        exists a, b; split; [assumption|]; split; [assumption|]; left;
        exists c, d; auto
    | |- context [["M"%char; ?a; ?b; "/"%char; "M"%char; ?c; ?d] = _] =>
        exists a, b; split; [assumption|]; split; [assumption|]; left;
        exists c, d; auto
    | |- context [[?a; ?b; "/"%char] = _] => exists a, b; auto
    | |- context [["M"%char; ?a; ?b; "/"%char] = _] => exists a, b; auto
    end.
Qed.

Lemma ot_not_before (str : cstring) :
  is_ot str = true -> is_metar str = false /\ is_icao str = false.
Proof.
  intros H. destruct (is_ot_inv _ H) as (a & b & c & d & e & f & -> & Hall).
  inversion_clear Hall as [|? ? Ha _]. split; eval_shape; reflexivity.
Qed.

Lemma wind_var_exclusive (str : cstring) :
  shape BWindVar str = true -> forall b', b' <> BWindVar -> shape b' str = false.
Proof.
  intros H b' Hb'.
  destruct (is_wind_var_inv _ H) as (a & b & c & d & e & f & -> & Hall).
  repeat match goal with
         | H : Forall _ (_ :: _) |- _ => inversion_clear H
         end.
  destruct b'; try congruence; eval_shape; reflexivity.
Qed.

Lemma vert_vis_exclusive (str : cstring) :
  shape BVertVis str = true -> forall b', b' <> BVertVis -> shape b' str = false.
Proof.
  intros H b' Hb'.
  destruct (is_vert_vis_inv _ H) as (a & b & c & -> & Ha & Hb & Hc).
  destruct b'; try congruence; eval_shape; reflexivity.
Qed.

Lemma temp_exclusive (str : cstring) :
  shape BTemp str = true -> forall b', b' <> BTemp -> shape b' str = false.
Proof.
  intros H b' Hb'.
  destruct (is_temp_inv _ H) as (a & b & Ha & Hb & [(c & d & Hc & Hd & E)|E]).
  - destruct E as [-> | [-> | ->]];
      destruct b'; try congruence; eval_shape; reflexivity.
  - destruct E as [-> | ->];
      destruct b'; try congruence; eval_shape; reflexivity.
Qed.

Lemma tempNA_exclusive (str : cstring) :
  shape BTempNA str = true -> forall b', b' <> BTempNA -> shape b' str = false.
Proof.
  intros H b' Hb'.
  destruct (is_tempNA_inv _ H) as (a & b & c & d & e & f & g & h & -> & Hall).
  repeat match goal with
         | H : Forall _ (_ :: _) |- _ => inversion_clear H
         end.
  destruct b'; try congruence; eval_shape; reflexivity.
Qed.

Lemma dispatch_by_shape (b : branch) (m : Metar) (str : cstring) :
  In b decided_by_first_token ->
  shape b str = true -> closed b m = false -> dispatch m str = Some b.
Proof.
  intros Hin Hs Hc.
  repeat (destruct Hin as [<-|Hin]); [..|destruct Hin].
  - unfold dispatch, branches. cbn [find]. rewrite Hs, Hc. reflexivity.
  - apply dispatch_icao; assumption.
  - destruct (ot_not_before _ Hs) as [H1 H2].
    unfold dispatch, branches. cbn [find shape] in *.
    rewrite H1, H2, Hs, !andb_false_r, Hc. reflexivity.
  - apply dispatch_only_shape; [apply wind_var_exclusive| |]; assumption.
  - apply dispatch_only_shape; [apply vert_vis_exclusive| |]; assumption.
  - apply dispatch_only_shape; [apply temp_exclusive| |]; assumption.
  - apply dispatch_only_shape; [apply altA_exclusive| |]; assumption.
  - apply dispatch_only_shape; [apply altQ_exclusive| |]; assumption.
  - apply dispatch_only_shape; [apply slp_exclusive| |]; assumption.
  - apply dispatch_only_shape; [apply tempNA_exclusive| |]; assumption.
Qed.

(** What a sub-parser stores in its own data members depends on the report
    through these members only; [parse_vis] reads the previous token as
    well. *)
Lemma sub_parser_field_congr (b : branch) (m1 m2 : Metar) (el : elem) :
  b <> BVis -> field b m1 = field b m2 ->
  field b (sub_parser b m1 el) = field b (sub_parser b m2 el).
Proof.
  intros Hb H.
  destruct b; try (contradiction Hb; reflexivity); clear Hb;
    cbn [field sub_parser] in *; injection H as H;
    try (unfold parse_metar, parse_icao, parse_ot, parse_wind, parse_wind_var,
           parse_vert_vis, parse_temp, parse_alt, parse_slp, parse_tempNA;
         cbv zeta; split_ifs; fields; congruence).
  rewrite !parse_cloud_layer_layers. congruence.
Qed.

Lemma field_of_first_token (b : branch) (els : list elem) :
  In b decided_by_first_token ->
  forall m, closed b m = false ->
  field b (parse_tokens m els)
  = match find (fun el => shape b (tok el)) els with
    | Some el => field b (sub_parser b m el)
    | None => field b m
    end
  /\ closed b (parse_tokens m els) = existsb (shape b) (map tok els).
Proof.
  intros Hin.
  assert (Hv : b <> BVis).
  { intros ->. repeat (destruct Hin as [Hin|Hin]; [discriminate Hin|]).
    destruct Hin. }
  assert (Hl : b <> BCloud).
  { intros ->. repeat (destruct Hin as [Hin|Hin]; [discriminate Hin|]).
    destruct Hin. }
  induction els as [|el els IH]; intros m Hm; [split; [reflexivity|exact Hm]|].
  cbn [parse_tokens fold_left map find existsb].
  fold (parse_tokens (parse_element m el) els).
  destruct (shape b (tok el)) eqn:Hs.
  - pose proof (dispatch_by_shape b m (tok el) Hin Hs Hm) as Hd.
    pose proof (parse_element_dispatched m el b Hd) as E.
    assert (C : closed b (parse_element m el) = true).
    { rewrite (closed_field b _ _ E). apply sub_parser_closes; assumption. }
    pose proof (parse_tokens_closed b els _ C) as F.
    split; [congruence|].
    rewrite (closed_field b _ _ F). exact C.
  - pose proof (parse_element_no_shape m el b Hs) as E.
    assert (C : closed b (parse_element m el) = false).
    { rewrite (closed_field b _ _ E). exact Hm. }
    destruct (IH _ C) as [IH1 IH2]. split; [|exact IH2].
    rewrite IH1. destruct (find (fun el0 => shape b (tok el0)) els); [|exact E].
    apply sub_parser_field_congr; assumption.
Qed.

Lemma parse_tokens_no_shape (b : branch) (els : list elem) : forall m,
  existsb (shape b) (map tok els) = false ->
  field b (parse_tokens m els) = field b m.
Proof.
  induction els as [|el els IH]; intros m H; [reflexivity|].
  cbn [map existsb] in H. apply orb_false_iff in H. destruct H as [H1 H2].
  cbn [parse_tokens fold_left]. fold (parse_tokens (parse_element m el) els).
  rewrite IH by exact H2. apply parse_element_no_shape. exact H1.
Qed.

(** ** Numbers of fixed width *)

Lemma decimal_two (a b : ascii) :
  isdigit a = true -> isdigit b = true ->
  decimal [a; b] = two_digits a b /\ (0 <= two_digits a b <= 99)%Z.
Proof.
  intros Ha Hb. unfold decimal. cbn [digits_val]. rewrite Ha, Hb.
  pose proof (digit_val_range a Ha). pose proof (digit_val_range b Hb).
  unfold two_digits. lia.
Qed.

Lemma decimal_three (a b c : ascii) :
  isdigit a = true -> isdigit b = true -> isdigit c = true ->
  decimal [a; b; c] = three_digits a b c /\ (0 <= three_digits a b c <= 999)%Z.
Proof.
  intros Ha Hb Hc. destruct (digits_val_three a b c Ha Hb Hc) as [E B].
  split; [exact E|lia].
Qed.

(** [atoi] of a run of at most nine digits followed by something that is
    no digit. *)
Lemma atoi_prefix (s r : cstring) :
  s <> [] -> all_digits s -> (length s <= 9)%nat ->
  isdigit (hd NUL r) = false ->
  atoi (s ++ r) = decimal s.
Proof.
  intros Hne Hs Hl Hr. destruct s as [|x s]; [contradiction Hne; reflexivity|].
  inversion Hs as [|? ? Hx Hs']; subst. cbn [app].
  assert (E : digits_val 0 (x :: s ++ r) = decimal (x :: s)).
  { destruct r as [|c r].
    - rewrite app_nil_r. reflexivity.
    - change (x :: s ++ c :: r) with ((x :: s) ++ c :: r).
      apply digits_val_stop; assumption. }
  pose proof (digits_val_lt (x :: s) _ Hs eq_refl) as B.
  assert (10 ^ Z.of_nat (length (x :: s)) <= 10 ^ 9)%Z
    by (apply Z.pow_le_mono_r; lia).
  change (10 ^ 9)%Z with 1000000000%Z in *.
  fold (decimal (x :: s)) in B.
  rewrite (atoi_digit x _ Hx);
    rewrite E;
    [apply wrap32_small; lia
    |change (10 ^ 18)%Z with 1000000000000000000%Z; lia].
Qed.

Lemma step_decided (b : branch) (m : Metar) (el : elem) :
  In b decided_by_first_token ->
  shape b (tok el) = true -> closed b m = false ->
  field b (parse_element m el) = field b (sub_parser b m el).
Proof.
  intros Hin Hs Hc. apply parse_element_dispatched.
  apply dispatch_by_shape; assumption.
Qed.

Ltac in_decided :=
  unfold decided_by_first_token; repeat (first [left; reflexivity | right]).

Ltac all_digits_hyps :=
  repeat match goal with
         | H : Forall _ (_ :: _) |- _ => inversion_clear H
         | H : Forall _ [] |- _ => clear H
         | H : all_digits (_ :: _) |- _ => inversion_clear H
         end.

Lemma is_ot_digits (a b c d e f : ascii) :
  Forall (fun x => isdigit x = true) [a; b; c; d; e; f] ->
  is_ot [a; b; c; d; e; f; "Z"%char] = true.
Proof. intros H. all_digits_hyps. eval_shape. reflexivity. Qed.

Lemma parse_ot_digits (m : Metar) (a b c d e f : ascii) :
  Forall (fun x => isdigit x = true) [a; b; c; d; e; f] ->
  field BOt (parse_ot m [a; b; c; d; e; f; "Z"%char])
  = FTime (two_digits a b) (two_digits c d) (two_digits e f).
Proof.
  intros H. all_digits_hyps.
  unfold parse_ot. cbn [field]. fields. cbn [strncpy firstn skipn].
  rewrite !atoi_two by assumption.
  change [e; f; "Z"%char] with ([e; f] ++ ["Z"%char]).
  rewrite atoi_prefix;
    [|discriminate|repeat constructor; assumption|cbn; lia|reflexivity].
  destruct (decimal_two e f) as [-> _]; [assumption..|]. reflexivity.
Qed.

Lemma int_defined_range (z lo hi : Z) :
  (lo <= z <= hi)%Z -> (-2147483648 < lo)%Z -> int_defined z = true.
Proof.
  intros H1 H2. unfold int_defined, _INTEGER_UNDEFINED, INT_MIN.
  apply negb_true_iff, Z.eqb_neq. change (- 2 ^ 31)%Z with (-2147483648)%Z. lia.
Qed.

(** ** Tokens of fixed width *)

Lemma atoi_digits (s : cstring) :
  s <> [] -> all_digits s -> (length s <= 9)%nat -> atoi s = decimal s.
Proof.
  intros Hne Hs Hl. rewrite <- (app_nil_r s) at 1.
  apply atoi_prefix; [assumption..|reflexivity].
Qed.

Lemma atoi_three (a b c : ascii) :
  isdigit a = true -> isdigit b = true -> isdigit c = true ->
  atoi [a; b; c] = three_digits a b c.
Proof.
  intros Ha Hb Hc.
  rewrite atoi_digits; [|discriminate|repeat constructor; assumption|cbn; lia].
  apply decimal_three; assumption.
Qed.

Lemma is_wind_var_digits (a b c d e f : ascii) :
  Forall (fun x => isdigit x = true) [a; b; c; d; e; f] ->
  is_wind_var [a; b; c; "V"%char; d; e; f] = true.
Proof. intros H. all_digits_hyps. eval_shape. reflexivity. Qed.

Lemma parse_wind_var_digits (m : Metar) (a b c d e f : ascii) :
  Forall (fun x => isdigit x = true) [a; b; c; d; e; f] ->
  field BWindVar (parse_wind_var m [a; b; c; "V"%char; d; e; f])
  = FRange (three_digits a b c) (three_digits d e f).
Proof.
  intros H. all_digits_hyps.
  unfold parse_wind_var. cbn [field]. fields. cbn [strncpy firstn skipn].
  rewrite !atoi_three by assumption. reflexivity.
Qed.

Lemma is_vert_vis_digits (a b c : ascii) :
  isdigit a = true -> isdigit b = true -> isdigit c = true ->
  is_vert_vis (lit "VV" ++ [a; b; c]) = true.
Proof. intros Ha Hb Hc. eval_shape. reflexivity. Qed.

Lemma parse_vert_vis_digits (m : Metar) (a b c : ascii) :
  isdigit a = true -> isdigit b = true -> isdigit c = true ->
  _vert_vis (parse_vert_vis m (lit "VV" ++ [a; b; c]))
  = (three_digits a b c * 100)%Z.
Proof.
  intros Ha Hb Hc. unfold parse_vert_vis. fields.
  cbn [lit list_ascii_of_string app skipn].
  rewrite atoi_three by assumption.
  destruct (decimal_three a b c Ha Hb Hc) as [_ B].
  apply wrap32_small. lia.
Qed.

Lemma decimal_four (a b c d : ascii) :
  all_digits [a; b; c; d] ->
  decimal [a; b; c; d] = (digit_val a * 1000 + three_digits b c d)%Z /\
  (0 <= decimal [a; b; c; d] < 10000)%Z.
Proof.
  intros H.
  pose proof (digits_val_lt [a; b; c; d] 4 H eq_refl) as B.
  all_digits_hyps.
  split; [|exact B].
  unfold decimal. cbn [digits_val].
  repeat match goal with H : isdigit _ = true |- _ => rewrite H end.
  unfold three_digits. lia.
Qed.

Lemma is_alt_digits (a b c d : ascii) :
  all_digits [a; b; c; d] ->
  is_altA ("A"%char :: [a; b; c; d]) = true /\
  is_altQ ("Q"%char :: [a; b; c; d]) = true.
Proof. intros H. all_digits_hyps. split; eval_shape; reflexivity. Qed.

Lemma is_tempNA_digits (s1 a b c s2 d e f : ascii) :
  all_digits [s1; a; b; c; s2; d; e; f] ->
  is_tempNA ("T"%char :: [s1; a; b; c; s2; d; e; f]) = true.
Proof. intros H. all_digits_hyps. eval_shape. reflexivity. Qed.

(** [tempNA] on a sign digit and three digits. *)
Lemma tempNA_digits (s a b c : ascii) :
  all_digits [s; a; b; c] ->
  tempNA [s; a; b; c]
  = if Ascii.eqb s "1"
    then (PrimFloat.opp (float_of_Z (three_digits a b c)) / 10)%float
    else (float_of_Z (digit_val s * 1000 + three_digits a b c) / 10)%float.
Proof.
  intros H. destruct (decimal_four s a b c H) as [E _]. all_digits_hyps.
  unfold tempNA. cbn [hd tl]. destruct (Ascii.eqb s "1").
  - rewrite atof_minus.
    destruct (digits_val_three a b c) as [-> _]; [assumption..|]. reflexivity.
  - rewrite atof_digit by assumption. fold (decimal [s; a; b; c]).
    rewrite E. reflexivity.
Qed.

(** ** Wind tokens *)

Lemma atoi_two_stop (a b c : ascii) (r : cstring) :
  isdigit a = true -> isdigit b = true -> isdigit c = false ->
  atoi (a :: b :: c :: r) = decimal [a; b].
Proof.
  intros Ha Hb Hc. change (a :: b :: c :: r) with ([a; b] ++ c :: r).
  apply atoi_prefix; [discriminate|repeat constructor; assumption|cbn; lia|exact Hc].
Qed.

Lemma atoi_three_all (a b c : ascii) :
  isdigit a = true -> isdigit b = true -> isdigit c = true ->
  atoi [a; b; c] = decimal [a; b; c].
Proof.
  intros Ha Hb Hc.
  apply atoi_digits; [discriminate|repeat constructor; assumption|cbn; lia].
Qed.

Lemma atoi_two_all (a b : ascii) :
  isdigit a = true -> isdigit b = true -> atoi [a; b] = decimal [a; b].
Proof.
  intros Ha Hb.
  apply atoi_digits; [discriminate|repeat constructor; assumption|cbn; lia].
Qed.

Lemma two_or_three_inv (s : cstring) :
  two_or_three_digits s ->
  (exists a b, s = [a; b] /\ isdigit a = true /\ isdigit b = true) \/
  (exists a b c, s = [a; b; c] /\ isdigit a = true /\ isdigit b = true /\
                 isdigit c = true).
Proof.
  intros [H [L|L]].
  - left. destruct s as [|a [|b [|c s]]]; try discriminate L.
    all_digits_hyps. eauto 6.
  - right. destruct s as [|a [|b [|c [|d s]]]]; try discriminate L.
    all_digits_hyps. eauto 8.
Qed.

(** Evaluate the calls of [strstr] on strings whose unknown characters are
    digits. *)
Ltac eval_strstr :=
  repeat match goal with
         | |- context [strstr ?s ?n] =>
             let H := fresh "H" in
             eassert (H : strstr s n = _) by (eval_shape; reflexivity);
             rewrite H; clear H
         end.

Ltac eval_atoi :=
  repeat match goal with
         | |- context [atoi [?a; ?b; ?c]] =>
             first [ rewrite (atoi_three_all a b c) by assumption
                   | rewrite (atoi_two_stop a b c [])
                       by first [assumption | reflexivity] ]
         | |- context [atoi [?a; ?b]] =>
             rewrite (atoi_two_all a b) by assumption
         end.

Lemma wind_token_decoded (dir : option cstring) (S : cstring)
    (G : option cstring) (u : cstring) (m : Metar) :
  (forall D, dir = Some D -> length D = 3%nat /\ all_digits D) ->
  two_or_three_digits S ->
  (forall g, G = Some g -> two_or_three_digits g) ->
  In u [WIND_SPEED_KT; WIND_SPEED_MPS; WIND_SPEED_KPH; []] ->
  let str := wind_token dir S G u in
  (is_metar str = false /\ is_icao str = false /\ is_ot str = false /\
   is_wind str = true) /\
  wind (parse_wind m str)
  = (match dir with Some D => decimal D | None => _wind_dir m end,
     decimal S,
     match G with Some g => decimal g | None => _gust m end,
     Some match u with [] => WIND_SPEED_KT | _ :: _ => u end,
     match dir with Some _ => _vrb m | None => true end).
Proof.
  intros HD HS HG Hu str. subst str.
  assert (HD' : match dir with
                | Some D => exists a b c, D = [a; b; c] /\ isdigit a = true /\
                              isdigit b = true /\ isdigit c = true
                | None => True
                end).
  { destruct dir as [D|]; [|exact I].
    destruct (HD D eq_refl) as [L H].
    destruct D as [|a [|b [|c [|d D]]]]; try discriminate L.
    all_digits_hyps. eauto 8. }
  assert (HG' : match G with
                | Some g => two_or_three_digits g
                | None => True
                end).
  { destruct G as [g|]; [exact (HG g eq_refl)|exact I]. }
  clear HD HG.
  destruct dir as [D|]; [destruct HD' as (d1 & d2 & d3 & -> & Hd1 & Hd2 & Hd3)|];
    (destruct (two_or_three_inv S HS) as
        [(s1 & s2 & -> & Hs1 & Hs2)|(s1 & s2 & s3 & -> & Hs1 & Hs2 & Hs3)]);
    (destruct G as [g|];
     [destruct (two_or_three_inv g HG') as
         [(g1 & g2 & -> & Hg1 & Hg2)|(g1 & g2 & g3 & -> & Hg1 & Hg2 & Hg3)]|]);
    (destruct Hu as [<-|[<-|[<-|[<-|[]]]]]);
    (split; [repeat split; eval_shape; reflexivity|]);
    unfold wind, parse_wind, wind_token, WIND_SPEED_MPS, WIND_SPEED_KPH,
      WIND_SPEED_KT, lit;
    cbn [app list_ascii_of_string];
    eval_strstr; cbn [found negb]; cbv zeta; fields;
    cbn [strncpy firstn skipn Nat.add];
    eval_atoi; reflexivity.
Qed.

(** ** Whole-number visibility *)

Lemma int_float_defined (z : Z) :
  (0 <= z < 10000)%Z -> double_defined (float_of_Z z) = true.
Proof.
  apply (below_forallb (fun z => double_defined (float_of_Z z))
           (10 * 10 * 10 * 10) 10000 eq_refl).
  vm_compute. reflexivity.
Qed.

Lemma decimal_lt (s : cstring) (n : nat) :
  all_digits s -> (length s <= n)%nat ->
  (0 <= decimal s < 10 ^ Z.of_nat n)%Z.
Proof.
  intros H L. pose proof (digits_val_lt s _ H eq_refl) as B.
  assert (10 ^ Z.of_nat (length s) <= 10 ^ Z.of_nat n)%Z
    by (apply Z.pow_le_mono_r; lia).
  unfold decimal. lia.
Qed.

Lemma whole_visibility_token (N : cstring) (sm : bool) (m : Metar) :
  all_digits N -> (1 <= length N <= 4)%nat ->
  (sm = false -> length N = 4%nat) ->
  let str := N ++ (if sm then VIS_UNITS_SM else []) in
  (is_metar str = false /\ is_icao str = false /\ is_ot str = false /\
   is_wind str = false /\ is_wind_var str = false /\ is_vis str = true) /\
  visibility (parse_vis m str)
  = (float_of_Z (decimal N),
     Some (if sm then VIS_UNITS_SM else VIS_UNITS_M), _vis_lt m, _cavok m).
Proof.
  intros H L Hsm str. subst str.
  assert (C : exists a r, N = a :: r /\ isdigit a = true /\ all_digits r /\
                          (length r <= 3)%nat).
  { destruct N as [|a r]; [cbn in L; lia|]. inversion_clear H.
    exists a, r. cbn in L. repeat split; [assumption..|lia]. }
  destruct C as (a & r & -> & Ha & Hr & Lr).
  assert (E : atof ((a :: r) ++ (if sm then VIS_UNITS_SM else []))
              = float_of_Z (decimal (a :: r))).
  { destruct sm.
    - apply atof_digits_stop; [discriminate|exact H|reflexivity].
    - rewrite app_nil_r. apply atof_digits; [discriminate|exact H]. }
  destruct r as [|b [|c [|d [|e r]]]]; try (cbn in Lr; lia);
    all_digits_hyps;
    (destruct sm; [|try (specialize (Hsm eq_refl); discriminate Hsm)]);
    (split; [repeat split; eval_shape; reflexivity|]);
    unfold visibility, parse_vis;
    match goal with
    | |- context [streq ?s ?t] =>
        let Hc := fresh "Hc" in
        assert (Hc : streq s t = false) by (eval_shape; reflexivity);
        rewrite Hc; clear Hc
    end;
    revert E; unfold VIS_UNITS_SM, VIS_UNITS_M, lit;
    cbn [app list_ascii_of_string]; intros E;
    eval_strstr; cbv zeta; fields; rewrite E; reflexivity.
Qed.

(** ** Cloud layer tokens *)

Lemma forallb_pointwise (A : Type) (f g : A -> bool) (l : list A) :
  (forall x, f x = g x) -> forallb f l = forallb g l.
Proof.
  intros H. induction l as [|x l IH]; [reflexivity|].
  cbn [forallb]. rewrite H, IH. reflexivity.
Qed.

Lemma forallb_seq_shift (f : nat -> bool) (n : nat) :
  forallb f (seq 1 n) = forallb (fun i => f (S i)) (seq 0 n).
Proof.
  rewrite <- seq_shift. induction (seq 0 n) as [|x l IH]; [reflexivity|].
  cbn [map forallb]. rewrite IH. reflexivity.
Qed.

Lemma streq_at_step (el : elem) (off : nat) (y : ascii) (s : cstring) :
  streq_at el off (y :: s)
  = Ascii.eqb (char_at el off) y && streq_at el (S off) s.
Proof.
  unfold streq_at. cbn [length].
  change (seq 0 (S (S (length s)))) with (0%nat :: seq 1 (S (length s))).
  cbn [forallb nth]. rewrite Nat.add_0_r. f_equal.
  rewrite forallb_seq_shift. apply forallb_pointwise.
  intros i. cbn [nth]. rewrite Nat.add_succ_r. reflexivity.
Qed.

Lemma streq_at_nil (el : elem) (off : nat) :
  streq_at el off [] = Ascii.eqb (char_at el off) NUL.
Proof.
  unfold streq_at. cbn [length seq forallb nth].
  rewrite Nat.add_0_r. apply andb_true_r.
Qed.

Lemma char_at_inside (el : elem) (i : nat) :
  (i <= length (tok el))%nat -> char_at el i = nth i (tok el) NUL.
Proof.
  intros H. unfold char_at.
  destruct (Nat.ltb_spec i (length (tok el))); [reflexivity|].
  assert (i = length (tok el)) by lia. subst i.
  rewrite Nat.eqb_refl. symmetry. apply nth_overflow. lia.
Qed.

Lemma skipn_cons_inv (A : Type) (l : list A) : forall off x t d,
  skipn off l = x :: t ->
  nth off l d = x /\ (off < length l)%nat /\ skipn (S off) l = t.
Proof.
  induction l as [|y l IH]; intros off x t d H.
  - destruct off; discriminate H.
  - destruct off as [|off].
    + cbn in H. injection H as -> ->. cbn. repeat split. lia.
    + cbn [skipn] in H. destruct (IH off x t d H) as (H1 & H2 & H3).
      cbn [nth length]. repeat split; [exact H1|lia|exact H3].
Qed.

(** Inside a token without terminator, [strcmp(str + off, s)] compares the
    rest of the token with [s]. *)
Lemma streq_at_suffix (el : elem) (s : cstring) : forall off t,
  skipn off (tok el) = t -> (off <= length (tok el))%nat ->
  ~ In NUL t -> ~ In NUL s ->
  streq_at el off s = streq t s.
Proof.
  induction s as [|y s IH]; intros off t Ht Hoff Hn Hs.
  - rewrite streq_at_nil, char_at_inside by exact Hoff.
    destruct t as [|x t].
    + rewrite nth_overflow; [reflexivity|].
      apply (f_equal (@length ascii)) in Ht. rewrite length_skipn in Ht.
      cbn in Ht. lia.
    + destruct (skipn_cons_inv _ _ _ _ _ NUL Ht) as (-> & _ & _).
      cbn [streq]. apply Ascii.eqb_neq. intros E. apply Hn. left.
      exact E.
  - rewrite streq_at_step, char_at_inside by exact Hoff.
    assert (Hy : y <> NUL) by (intros E; apply Hs; left; exact E).
    destruct t as [|x t].
    + rewrite nth_overflow.
      * cbn [streq]. apply andb_false_iff. left. apply Ascii.eqb_neq.
        intros E. apply Hy. symmetry. exact E.
      * apply (f_equal (@length ascii)) in Ht. rewrite length_skipn in Ht.
        cbn in Ht. lia.
    + destruct (skipn_cons_inv _ _ _ _ _ NUL Ht) as (-> & Hlt & Ht').
      cbn [streq]. f_equal. apply IH.
      * exact Ht'.
      * lia.
      * intros H. apply Hn. right. exact H.
      * intros H. apply Hs. right. exact H.
Qed.

Lemma cloud_types_no_NUL (ty : cstring) : In ty cloud_types -> ~ In NUL ty.
Proof.
  intros [<-|[<-|[<-|[]]]] H; cbn in H;
    repeat (destruct H as [H|H]; [discriminate H|]); exact H.
Qed.

Lemma sky_condition_length (sc : cstring) :
  In sc sky_conditions -> exists x y z, sc = [x; y; z].
Proof.
  intros H. repeat (destruct H as [<-|H]; [do 3 eexists; reflexivity|]).
  destruct H.
Qed.

(** Only one cover code starts a token. *)
Lemma layer_of_code (sc rest : cstring) (el : elem) :
  In sc sky_conditions -> tok el = sc ++ rest ->
  is_cloud_layer (tok el) = true /\ layer_of el = [new_layer sc el].
Proof.
  intros Hin Ht. unfold layer_of, parse_cloud_layer, is_cloud_layer.
  rewrite layers_of_fold. cbn [_layers Metar_init app].
  rewrite Ht. unfold sky_conditions in *. cbn [flat_map existsb].
  repeat (destruct Hin as [<-|Hin];
          [unfold lit; cbn [list_ascii_of_string app];
           rewrite !starts_with_cons, ?starts_with_nil_l;
           unfold match_character; const_chars; cbn [andb orb app];
           split; reflexivity|]).
  destruct Hin.
Qed.

Lemma new_layer_bare (sc : cstring) (el : elem) :
  length (tok el) = 3%nat -> new_layer sc el = mkSky sc INT_MIN None.
Proof.
  intros L. unfold new_layer. rewrite char_at_inside by lia.
  rewrite nth_overflow by lia. reflexivity.
Qed.

Lemma find_cloud_type (t : cstring) :
  (In t cloud_types -> find (streq t) cloud_types = Some t)
  /\ (~ In t cloud_types -> find (streq t) cloud_types = None).
Proof.
  split.
  - intros [<-|[<-|[<-|[]]]]; reflexivity.
  - intros H. destruct (find (streq t) cloud_types) as [ty|] eqn:F;
      [|reflexivity].
    apply find_some in F. destruct F as [F1 F2].
    apply streq_eq in F2. subst ty. contradiction.
Qed.

Lemma new_layer_altitude (sc t : cstring) (a b c : ascii) (el : elem) :
  length sc = 3%nat ->
  isdigit a = true -> isdigit b = true -> isdigit c = true ->
  ~ In NUL t -> isdigit (hd NUL t) = false ->
  tok el = sc ++ [a; b; c] ++ t ->
  new_layer sc el
  = mkSky sc (three_digits a b c * 100) (find (streq t) cloud_types).
Proof.
  intros L Ha Hb Hc Hn Hd Ht.
  destruct sc as [|x [|y [|z [|w sc]]]]; try discriminate L. clear L.
  cbn [app] in Ht.
  assert (Ealt : wrap32 (atoi (skipn 3 (tok el)) * 100)
                 = (three_digits a b c * 100)%Z).
  { rewrite Ht. cbn [skipn].
    change (a :: b :: c :: t) with ([a; b; c] ++ t).
    rewrite atoi_prefix;
      [|discriminate|repeat constructor; assumption|cbn; lia|exact Hd].
    destruct (decimal_three a b c Ha Hb Hc) as [-> B].
    apply wrap32_small. lia. }
  unfold new_layer. rewrite Ealt.
  rewrite !char_at_inside by (rewrite Ht; cbn [length]; lia).
  rewrite Ht. cbn [nth]. digits.
  destruct t as [|u t].
  - reflexivity.
  - assert (Hu : Ascii.eqb u NUL = false).
    { apply Ascii.eqb_neq. intros E. apply Hn. left. exact E. }
    cbn [nth]. rewrite Hu. f_equal. unfold cloud_types. cbn [find].
    rewrite !(streq_at_suffix el _ 6 (u :: t));
      try (rewrite Ht; cbn [skipn length]; first [reflexivity | lia]);
      try exact Hn;
      try (apply cloud_types_no_NUL; unfold cloud_types; cbn; auto).
    reflexivity.
Qed.

Lemma is_icao_length (t : cstring) : is_icao t = true -> length t = 4%nat.
Proof. intros H. apply match_length in H. exact H. Qed.

Lemma cloud_step (m : Metar) (el : elem) (sc rest : cstring) :
  In sc sky_conditions -> tok el = sc ++ rest ->
  length rest <> 1%nat -> (length (_layers m) < 3)%nat ->
  _layers (parse_element m el) = _layers m ++ [new_layer sc el].
Proof.
  intros Hin Ht Hr Hl.
  destruct (layer_of_code sc rest el Hin Ht) as [Hs Hlay].
  rewrite parse_element_layers, dispatch_cloud; [rewrite Hlay; reflexivity|..].
  - exact Hl.
  - exact Hs.
  - right. destruct (is_icao (tok el)) eqn:E; [|reflexivity].
    apply is_icao_length in E. rewrite Ht, length_app in E.
    destruct (sky_condition_length sc Hin) as (x & y & z & ->).
    cbn [length] in E. lia.
Qed.

(** ** Reading behind a token *)



Lemma new_layer_short (sc ty : cstring) (a b : ascii) (past : nat -> ascii) :
  In sc sky_conditions -> In ty cloud_types ->
  isdigit a = true -> isdigit b = true ->
  new_layer sc (mkElem (sc ++ [a; b]) (mem_after ty past))
  = mkSky sc (two_digits a b * 100) (Some ty).
Proof.
  intros Hsc Hty Ha Hb.
  destruct (sky_condition_length sc Hsc) as (x & y & z & ->).
  cbn [app].
  assert (Ealt : wrap32 (atoi [a; b] * 100) = (two_digits a b * 100)%Z).
  { rewrite atoi_two by assumption.
    destruct (decimal_two a b Ha Hb) as [_ B]. apply wrap32_small. lia. }
  unfold new_layer. cbn [tok skipn]. rewrite Ealt.
  rewrite char_at_inside by (cbn; lia). cbn [tok nth]. digits.
  set (el := mkElem [x; y; z; a; b] (mem_after ty past)).
  assert (C6 : Ascii.eqb (char_at el 6) NUL = false).
  { subst el. destruct Hty as [<-|[<-|[<-|[]]]]; reflexivity. }
  assert (F : find (fun t => streq_at el 6 t) cloud_types = Some ty).
  { subst el. destruct Hty as [<-|[<-|[<-|[]]]]; vm_compute; reflexivity. }
  rewrite C6, F. reflexivity.
Qed.

Lemma new_layer_same (sc : cstring) (e1 e2 : elem) :
  tok e1 = tok e2 -> ~ In NUL (tok e1) ->
  (3 <= length (tok e1))%nat ->
  length (tok e1) <> 4%nat -> length (tok e1) <> 5%nat ->
  new_layer sc e1 = new_layer sc e2.
Proof.
  intros E Hn L3 L4 L5. unfold new_layer.
  rewrite !(char_at_inside _ 3) by (rewrite <- ?E; lia).
  rewrite <- E.
  destruct (Ascii.eqb (nth 3 (tok e1) NUL) NUL) eqn:C3; [reflexivity|].
  assert (L : (6 <= length (tok e1))%nat).
  { destruct (Nat.eq_dec (length (tok e1)) 3) as [L|L]; [|lia].
    rewrite nth_overflow in C3 by lia. discriminate C3. }
  rewrite !(char_at_inside _ 6) by (rewrite <- ?E; lia).
  rewrite <- E.
  destruct (Ascii.eqb (nth 6 (tok e1) NUL) NUL); [reflexivity|].
  f_equal. unfold cloud_types. cbn [find].
  assert (Hn2 : ~ In NUL (skipn 6 (tok e1))).
  { intros H. apply Hn. rewrite <- (firstn_skipn 6). apply in_or_app.
    right. exact H. }
  rewrite !(streq_at_suffix e1 _ 6 (skipn 6 (tok e1)));
    try reflexivity; try exact L; try exact Hn2;
    try (apply cloud_types_no_NUL; unfold cloud_types; cbn; auto).
  rewrite !(streq_at_suffix e2 _ 6 (skipn 6 (tok e1)));
    try (rewrite <- E; reflexivity); try (rewrite <- E; exact L);
    try exact Hn2;
    try (apply cloud_types_no_NUL; unfold cloud_types; cbn; auto).
  reflexivity.
Qed.

Lemma starts_with_length (p s : cstring) :
  starts_with p s = true -> (length p <= length s)%nat.
Proof.
  unfold starts_with. destruct (Nat.leb_spec (length p) (length s)); [lia|].
  discriminate.
Qed.

Lemma fold_layers_same (e1 e2 : elem) (str : cstring) (l : list cstring) :
  tok e1 = str -> tok e2 = str -> ~ In NUL str -> reads_inside str ->
  (forall sc, In sc l -> In sc sky_conditions) ->
  forall m,
    fold_left (fun m sc =>
                 if starts_with sc str
                 then set_layers (_layers m ++ [new_layer sc e1]) m
                 else m) l m
    = fold_left (fun m sc =>
                   if starts_with sc str
                   then set_layers (_layers m ++ [new_layer sc e2]) m
                   else m) l m.
Proof.
  intros E1 E2 Hn Hr. induction l as [|sc l IH]; intros Hl m; [reflexivity|].
  assert (Hl' : forall sc', In sc' l -> In sc' sky_conditions).
  { intros sc' H. apply Hl. right. exact H. }
  cbn [fold_left].
  destruct (starts_with sc str) eqn:S; [|apply IH; exact Hl'].
  assert (Hsc : In sc sky_conditions) by (apply Hl; left; reflexivity).
  assert (C : is_cloud_layer str = true).
  { unfold is_cloud_layer. apply existsb_exists. exists sc. auto. }
  destruct (Hr C) as [L4 L5].
  apply starts_with_length in S.
  destruct (sky_condition_length sc Hsc) as (x & y & z & Esc).
  rewrite Esc in S. cbn [length] in S. subst str.
  rewrite (new_layer_same sc e1 e2 (eq_sym E2) Hn S L4 L5).
  apply IH. exact Hl'.
Qed.

Lemma parse_element_same (m : Metar) (e1 e2 : elem) :
  tok e1 = tok e2 -> ~ In NUL (tok e1) -> reads_inside (tok e1) ->
  parse_element m e1 = parse_element m e2.
Proof.
  intros E Hn Hr.
  assert (C : parse_cloud_layer m e1 = parse_cloud_layer m e2).
  { unfold parse_cloud_layer. rewrite <- E.
    apply (fold_layers_same e1 e2 (tok e1)); auto. }
  unfold parse_element. cbv zeta. rewrite C, E. reflexivity.
Qed.

Lemma tokenize_same (past1 past2 : nat -> ascii) (s : cstring) :
  forall cur m,
    ~ In NUL cur -> ~ In NUL s ->
    Forall reads_inside (map tok (tokenize past1 cur s)) ->
    parse_tokens m (tokenize past1 cur s)
    = parse_tokens m (tokenize past2 cur s).
Proof.
  induction s as [|c s IH]; intros cur m Hc Hs H; cbn [tokenize] in *.
  - destruct cur as [|x cur]; [reflexivity|].
    cbn [parse_tokens fold_left]. inversion_clear H as [|? ? H1 _].
    apply parse_element_same; [reflexivity|exact Hc|exact H1].
  - assert (Hs' : ~ In NUL s) by (intros X; apply Hs; right; exact X).
    destruct (Ascii.eqb c " ").
    + destruct cur as [|x cur].
      * apply IH; [intros []|exact Hs'|exact H].
      * cbn [map] in H. inversion_clear H as [|? ? H1 H2].
        cbn [parse_tokens fold_left].
        fold (parse_tokens (parse_element m
                 (mkElem (x :: cur) (mem_after s past1)))
                (tokenize past1 [] s)).
        fold (parse_tokens (parse_element m
                 (mkElem (x :: cur) (mem_after s past2)))
                (tokenize past2 [] s)).
        rewrite (parse_element_same m
                   (mkElem (x :: cur) (mem_after s past1))
                   (mkElem (x :: cur) (mem_after s past2)) eq_refl Hc H1).
        apply IH; [intros []|exact Hs'|exact H2].
    + apply IH; [|exact Hs'|exact H].
      intros X. apply in_app_or in X. destruct X as [X|[X|[]]]; [exact (Hc X)|].
      apply Hs. left. exact X.
Qed.

(** ** Values of the first token *)

Lemma decided_field (past : nat -> ascii) (s : string) (b : branch) :
  In b decided_by_first_token ->
  field b (Metar_parse past s) = field b Metar_init
  \/ exists el, shape b (tok el) = true /\
       field b (Metar_parse past s) = field b (sub_parser b Metar_init el).
Proof.
  intros Hin.
  assert (C : closed b Metar_init = false).
  { repeat (destruct Hin as [<-|Hin]); [..|destruct Hin]; reflexivity. }
  destruct (field_of_first_token b (tokens_of past s) Hin Metar_init C)
    as [E _].
  unfold Metar_parse. rewrite E.
  destruct (find (fun el => shape b (tok el)) (tokens_of past s)) as [el|] eqn:F.
  - right. exists el. split; [|reflexivity].
    apply find_some in F. exact (proj2 F).
  - left. reflexivity.
Qed.

Lemma tempNA_defined (s a b c : ascii) :
  all_digits [s; a; b; c] -> double_defined (tempNA [s; a; b; c]) = true.
Proof.
  intros H. rewrite (tempNA_digits s a b c H).
  destruct (decimal_four s a b c H) as [E B]. all_digits_hyps.
  destruct (Ascii.eqb s "1").
  - apply minus_tenth_defined.
    destruct (decimal_three a b c) as [_ B']; [assumption..|]. lia.
  - apply tenth_defined. rewrite <- E. exact B.
Qed.

(** The five forms of a temperature token, decoded in a fresh report. *)
Lemma temp_token_range (str : cstring) :
  is_temp str = true ->
  let r := parse_temp Metar_init str in
  (-99 <= _temp r <= 99)%Z /\
  (_dew r = INT_MIN \/ (-99 <= _dew r <= 99)%Z).
Proof.
  intros H r. subst r.
  assert (Step : forall s x y,
             (is_temp s, _temp (parse_temp Metar_init s),
              _dew (parse_temp Metar_init s)) = (true, x, y) ->
             (-99 <= x <= 99)%Z -> (y = INT_MIN \/ (-99 <= y <= 99)%Z) ->
             str = s ->
             (-99 <= _temp (parse_temp Metar_init str) <= 99)%Z /\
             (_dew (parse_temp Metar_init str) = INT_MIN \/
              (-99 <= _dew (parse_temp Metar_init str) <= 99)%Z)).
  { intros s x y R Bx By ->. injection R as _ -> ->. auto. }
  destruct (is_temp_inv _ H) as (a & b & Ha & Hb & [(c & d & Hc & Hd & E)|E]).
  - destruct (recognized_temperature_forms Metar_init a b c d Ha Hb Hc Hd)
      as (R1 & R2 & R3 & _ & _).
    cbv zeta in R1, R2, R3.
    destruct (decimal_two a b Ha Hb) as [_ B1].
    destruct (decimal_two c d Hc Hd) as [_ B2].
    destruct E as [E | [E | E]];
      [apply (Step _ _ _ R1) | apply (Step _ _ _ R2) | apply (Step _ _ _ R3)];
      try exact E; try lia; right; lia.
  - destruct (recognized_temperature_forms Metar_init a b a b Ha Hb Ha Hb)
      as (_ & _ & _ & R4 & R5).
    cbv zeta in R4, R5.
    destruct (decimal_two a b Ha Hb) as [_ B1].
    destruct E as [E | E];
      [apply (Step _ _ _ R4) | apply (Step _ _ _ R5)];
      try exact E; try lia; left; reflexivity.
Qed.

(** ** Consistency of the wind members *)

Lemma wind_consistent_field (m1 m2 : Metar) :
  field BWind m1 = field BWind m2 -> wind_consistent m2 -> wind_consistent m1.
Proof.
  intros E [H|H]; [left; congruence|right].
  cbn [field] in E. injection E as E1 E2 E3 E4 E5.
  unfold hasWindSpeed, hasWindDirection in *. rewrite E1, E2, E4, E5.
  exact H.
Qed.

Lemma parse_wind_consistent (m : Metar) (str : cstring) :
  field BWind m = field BWind Metar_init -> wind_consistent (parse_wind m str).
Proof.
  intros E. right. cbn [field] in E. injection E as E1 E2 E3 E4 E5.
  cbn [Metar_init _wind_dir _vrb] in E1, E5.
  assert (A : forall s, int_defined (atoi (strncpy s 3)) = true).
  { intros s. apply atoi_defined. unfold strncpy.
    etransitivity; [apply firstn_le_length|lia]. }
  unfold parse_wind, hasWindSpeed, hasWindDirection. cbv zeta.
  split; [|split].
  - destruct (strstr str (lit "G")); fields; apply A.
  - destruct (found (strstr str WIND_SPEED_MPS));
      [|destruct (found (strstr str WIND_SPEED_KPH))];
      destruct (negb (found (strstr str (lit "VRB"))));
      destruct (strstr str (lit "G")); fields;
      eexists; (split; [reflexivity|]); cbn; auto.
  - destruct (found (strstr str WIND_SPEED_MPS));
      [|destruct (found (strstr str WIND_SPEED_KPH))];
      destruct (negb (found (strstr str (lit "VRB"))));
      destruct (strstr str (lit "G")); fields;
      rewrite ?A, ?E1, ?E5; reflexivity.
Qed.

Lemma parse_element_wind_consistent (m : Metar) (el : elem) :
  wind_consistent m -> wind_consistent (parse_element m el).
Proof.
  intros H. destruct (dispatch m (tok el)) as [b|] eqn:D.
  - destruct b;
      try (apply (wind_consistent_field _ m); [|exact H];
           apply parse_element_other; rewrite D; discriminate).
    apply (wind_consistent_field _ (parse_wind m (tok el))).
    + exact (parse_element_dispatched m el BWind D).
    + apply parse_wind_consistent.
      destruct H as [H|(H & _)]; [exact H|].
      apply dispatch_Some in D. destruct D as [D _]. cbn [closed] in D.
      congruence.
  - apply (wind_consistent_field _ m); [|exact H].
    apply parse_element_other. rewrite D. discriminate.
Qed.

Lemma parse_tokens_wind_consistent (els : list elem) : forall m,
  wind_consistent m -> wind_consistent (parse_tokens m els).
Proof.
  induction els as [|el els IH]; intros m H; [exact H|].
  cbn [parse_tokens fold_left]. apply IH.
  apply parse_element_wind_consistent. exact H.
Qed.

(** ** Division by zero *)

Lemma is_plus_infinity_eq (x : float) :
  is_plus_infinity x = true -> x = infinity.
Proof.
  intros H. apply Prim2SF_inj. unfold is_plus_infinity in H.
  destruct (Prim2SF x) as [| [|] | |]; try discriminate H. reflexivity.
Qed.

Lemma positive_over_zero (z : Z) :
  (0 < z < 10000)%Z -> (float_of_Z z / float_of_Z 0)%float = infinity.
Proof.
  intros H. apply is_plus_infinity_eq.
  assert (P : ((z =? 0)%Z
               || is_plus_infinity (float_of_Z z / float_of_Z 0)%float) = true).
  { apply (below_forallb
             (fun z => (z =? 0)%Z
                       || is_plus_infinity (float_of_Z z / float_of_Z 0)%float)
             (10 * 10 * 10 * 10) 10000 eq_refl); [|lia].
    vm_compute. reflexivity. }
  apply orb_true_iff in P. destruct P as [P|P]; [|exact P].
  apply Z.eqb_eq in P. lia.
Qed.

Lemma infinity_plus_digit (w : Z) :
  (0 <= w < 10)%Z -> (infinity + float_of_Z w)%float = infinity.
Proof.
  intros H. apply is_plus_infinity_eq.
  apply (below_forallb
           (fun w => is_plus_infinity (infinity + float_of_Z w)%float)
           10 10 eq_refl); [|exact H].
  vm_compute. reflexivity.
Qed.

Lemma zero_over_zero_plus_digit (w : Z) :
  (0 <= w < 10)%Z ->
  let q := (float_of_Z 0 / float_of_Z 0)%float in
  PrimFloat.is_nan q = true /\ double_defined q = true /\
  PrimFloat.is_nan (q + float_of_Z w)%float = true /\
  double_defined (q + float_of_Z w)%float = true.
Proof.
  intros H q. split; [reflexivity|]. split; [reflexivity|].
  assert (P : (PrimFloat.is_nan (q + float_of_Z w)%float
               && double_defined (q + float_of_Z w)%float) = true).
  { apply (below_forallb
             (fun w => PrimFloat.is_nan (q + float_of_Z w)%float
                       && double_defined (q + float_of_Z w)%float)
             10 10 eq_refl); [|exact H].
    vm_compute. reflexivity. }
  apply andb_true_iff in P. exact P.
Qed.

Lemma previous_digit_value (m : Metar) :
  previous_is_digit m = true ->
  exists w, (0 <= w < 10)%Z /\ atof_previous m = float_of_Z w.
Proof.
  unfold previous_is_digit, atof_previous.
  destruct (_previous_element m) as [prev|]; [|discriminate].
  intros H. unfold lit in H. cbn [list_ascii_of_string] in H.
  invert_match H.
  match goal with
  | Hd : isdigit ?c = true |- _ =>
      exists (digit_val c); split;
      [pose proof (digit_val_range c Hd); lia|];
      rewrite (atof_digit c [] Hd); cbn [digits_val]; rewrite Hd; reflexivity
  end.
Qed.

(** ** Decoding in two parts *)

Lemma lit_append (s1 s2 : string) :
  lit (s1 ++ s2)%string = lit s1 ++ lit s2.
Proof.
  unfold lit. induction s1 as [|c s1 IH]; [reflexivity|].
  cbn [append list_ascii_of_string app]. f_equal. exact IH.
Qed.

Lemma c_str_app (l1 l2 : cstring) :
  ~ In NUL l1 -> c_str (l1 ++ l2) = l1 ++ c_str l2.
Proof.
  induction l1 as [|c l1 IH]; intros H; [reflexivity|].
  cbn [app c_str]. destruct (Ascii.eqb c NUL) eqn:E.
  - apply Ascii.eqb_eq in E. contradiction H. left. exact E.
  - f_equal. apply IH. intros X. apply H. right. exact X.
Qed.

Lemma tokenize_app_tok (past : nat -> ascii) (l1 l2 : cstring) : forall cur,
  map tok (tokenize past cur (l1 ++ " "%char :: l2))
  = map tok (tokenize past cur l1) ++ map tok (tokenize past [] l2).
Proof.
  induction l1 as [|c l1 IH]; intros cur.
  - cbn [app tokenize]. rewrite Ascii.eqb_refl. destruct cur; reflexivity.
  - cbn [app tokenize]. destruct (Ascii.eqb c " ").
    + destruct cur; [apply IH|]. cbn [map app]. f_equal. apply IH.
    + apply IH.
Qed.

Lemma parse_tokens_same_tok (els1 : list elem) : forall els2 m,
  map tok els1 = map tok els2 ->
  Forall (fun t => ~ In NUL t /\ reads_inside t) (map tok els1) ->
  parse_tokens m els1 = parse_tokens m els2.
Proof.
  induction els1 as [|e1 els1 IH]; intros els2 m E H.
  - destruct els2; [reflexivity|discriminate E].
  - destruct els2 as [|e2 els2]; [discriminate E|].
    cbn [map] in E, H. injection E as E1 E2.
    inversion_clear H as [|? ? [Hn Hr] H'].
    cbn [parse_tokens fold_left].
    fold (parse_tokens (parse_element m e1) els1).
    fold (parse_tokens (parse_element m e2) els2).
    rewrite (parse_element_same m e1 e2 E1 Hn Hr).
    apply IH; assumption.
Qed.

(** ** Scratch buffers *)

Ltac eval_temp_need :=
  unfold parse_temp_need, parse_temp_val, lit;
  cbn [list_ascii_of_string app]; eval_strstr;
  cbn [nth Nat.add skipn]; digits; const_chars;
  cbn [negb]; unfold strcpy_need, strncpy_need; cbn [length Nat.max];
  repeat constructor.

Lemma temp_need (str : cstring) :
  is_temp str = true -> (parse_temp_need str <= parse_temp_val)%nat.
Proof.
  intros H.
  destruct (is_temp_inv _ H) as (a & b & Ha & Hb & [(c & d & Hc & Hd & E)|E]).
  - destruct E as [-> | [-> | ->]]; eval_temp_need.
  - destruct E as [-> | ->]; eval_temp_need.
Qed.
(** * The decoder with its arrays, and further auxiliary results *)

(** ** Copies that stay inside the arrays *)

Lemma parse_tokens_checked_sound (a : arrays) (els : list elem) : forall m r,
  parse_tokens_checked a m els = Some r -> r = parse_tokens m els.
Proof.
  induction els as [|el els IH]; intros m r H; cbn in H.
  - injection H as <-. reflexivity.
  - unfold parse_element_checked in H.
    cbn [parse_tokens fold_left]. fold (parse_tokens (parse_element m el) els).
    destruct (dispatch m (tok el)) as [b|];
      [destruct (copies_fit a b (tok el)); [|discriminate H]|];
      apply IH; exact H.
Qed.

Lemma parse_element_checked_fits (a : arrays) (m : Metar) (el : elem)
    (b : branch) :
  dispatch m (tok el) = Some b -> copies_fit a b (tok el) = true ->
  parse_element_checked a m el = Some (parse_element m el).
Proof.
  intros Hd Hf. unfold parse_element_checked. rewrite Hd, Hf. reflexivity.
Qed.

Lemma parse_wind_fits (str : cstring) :
  (parse_wind_need str <= parse_wind_val)%nat.
Proof.
  unfold parse_wind_need, parse_wind_val, strncpy_need.
  destruct (negb (found (strstr str (lit "VRB"))));
    destruct (strstr str (lit "G")); cbn; lia.
Qed.

Lemma fraction_need (lt : bool) (N D : cstring) :
  N <> [] -> all_digits N -> all_digits D ->
  parse_vis_need (fraction_token lt N D)
  = Nat.max (S ((if lt then 1 else 0) + length N)) (S (S (length D))).
Proof.
  intros HN HNd HDd. unfold parse_vis_need.
  rewrite (fraction_not_CAVOK lt N D HN HNd).
  rewrite (fraction_unit lt N D HNd HDd).
  rewrite (fraction_slash lt N D HNd).
  unfold strncpy_need. rewrite length_app.
  replace (length (if lt then ["M"%char] else []))
    with (if lt then 1%nat else 0%nat) by (destruct lt; reflexivity).
  f_equal. f_equal. lia.
Qed.

(** ** Tokens that a branch of higher priority takes *)

Lemma is_metar_inv (str : cstring) :
  is_metar str = true -> str = lit "METAR" \/ str = lit "SPECI".
Proof.
  unfold is_metar. rewrite orb_true_iff.
  intros [H|H]; apply streq_eq in H; auto.
Qed.

Lemma wind_not_metar (str : cstring) :
  is_wind str = true -> is_metar str = false.
Proof.
  intros H. destruct (is_metar str) eqn:E; [|reflexivity].
  destruct (is_metar_inv _ E) as [-> | ->]; discriminate H.
Qed.

Lemma metar_not_vis (str : cstring) :
  is_metar str = true -> is_vis str = false.
Proof.
  intros E. destruct (is_metar_inv _ E) as [-> | ->]; reflexivity.
Qed.

Lemma ot_not_vis (str : cstring) : is_ot str = true -> is_vis str = false.
Proof.
  intros H. destruct (is_ot_inv _ H) as (a & b & c & d & e & f & -> & Hall).
  repeat match goal with
         | H : Forall _ (_ :: _) |- _ => inversion_clear H
         end.
  eval_shape. reflexivity.
Qed.

Lemma icao_not_vis (str : cstring) : is_icao str = true -> is_vis str = false.
Proof.
  intros H. apply is_icao_iff in H. destruct H as [L A].
  destruct str as [|a [|b [|c [|d [|e str]]]]]; try discriminate L. clear L.
  inversion_clear A as [|? ? Aa A']. inversion_clear A' as [|? ? Ab _].
  destruct (is_vis [a; b; c; d]) eqn:E; [|reflexivity].
  assert (Da : isdigit a = false).
  { destruct (isdigit a) eqn:D; [|reflexivity].
    apply digit_not_alpha in D. congruence. }
  assert (Db : isdigit b = false).
  { destruct (isdigit b) eqn:D; [|reflexivity].
    apply digit_not_alpha in D. congruence. }
  assert (Sb : Ascii.eqb b "/" = false).
  { apply Ascii.eqb_neq. intros ->. discriminate Ab. }
  unfold is_vis in E.
  destruct (streq [a; b; c; d] (lit "CAVOK")) eqn:S.
  - apply streq_length in S. discriminate S.
  - destruct (strstr [a; b; c; d] VIS_UNITS_SM) as [p|].
    + destruct (length [a; b; c; d] - p =? 2)%nat; [|discriminate E].
      cbn [hd] in E. rewrite Da in E. cbn [negb andb] in E.
      destruct (negb (Ascii.eqb a "M")); [discriminate E|].
      unfold vis_body_ok in E. cbn [length Nat.sub skipn firstn forallb] in E.
      rewrite Db, Sb in E. discriminate E.
    + unfold lit in E. cbn [list_ascii_of_string] in E.
      rewrite match_cons, match_character_digit, Da in E. discriminate E.
Qed.

Lemma vis_not_before (str : cstring) :
  is_vis str = true ->
  is_metar str = false /\ is_icao str = false /\ is_ot str = false
  /\ is_wind_var str = false.
Proof.
  intros H. repeat split.
  - destruct (is_metar str) eqn:E; [|reflexivity].
    rewrite (metar_not_vis _ E) in H. discriminate H.
  - destruct (is_icao str) eqn:E; [|reflexivity].
    rewrite (icao_not_vis _ E) in H. discriminate H.
  - destruct (is_ot str) eqn:E; [|reflexivity].
    rewrite (ot_not_vis _ E) in H. discriminate H.
  - destruct (is_wind_var str) eqn:E; [|reflexivity].
    pose proof (wind_var_exclusive str E BVis ltac:(discriminate)) as N.
    cbn [shape] in N. congruence.
Qed.

Lemma dispatch_wind (m : Metar) (str : cstring) :
  hasWindSpeed m = false -> is_wind str = true ->
  is_icao str = false \/ hasICAO m = true ->
  is_ot str = false \/ hasMinute m = true ->
  dispatch m str = Some BWind.
Proof.
  intros Hm Hs Hi Ho. unfold dispatch, branches. cbn [find closed shape].
  rewrite (wind_not_metar _ Hs), andb_false_r.
  replace (negb (hasICAO m) && is_icao str) with false
    by (destruct Hi as [-> | ->]; rewrite ?andb_false_r; reflexivity).
  replace (negb (hasMinute m) && is_ot str) with false
    by (destruct Ho as [-> | ->]; rewrite ?andb_false_r; reflexivity).
  rewrite Hm, Hs. reflexivity.
Qed.


Lemma long_fraction_is_wind (N D : cstring) :
  all_digits N -> (5 <= length N)%nat ->
  is_wind (fraction_token false N D) = true.
Proof.
  intros HN L.
  destruct N as [|a [|b [|c [|d [|e N]]]]]; cbn [length] in L; try lia.
  all_digits_hyps. unfold is_wind.
  assert (E : starts_with (lit "#####")
                (fraction_token false (a :: b :: c :: d :: e :: N) D) = true).
  { unfold fraction_token, lit. cbn [list_ascii_of_string app].
    repeat rewrite starts_with_cons.
    rewrite (match_character_digit a), (match_character_digit b),
      (match_character_digit c), (match_character_digit d),
      (match_character_digit e), starts_with_nil_l.
    repeat match goal with
           | Hd : isdigit _ = true |- _ => rewrite Hd; clear Hd
           end.
    reflexivity. }
  rewrite E. reflexivity.
Qed.


(** ** The bytes behind a short cloud token *)






(** * The properties of the specification *)

(** ** The end-to-end example *)

(** C1: the report "KSTL 231751Z 27009KT 10SM OVC015 09/06 A3029 RMK AO2
    SLP260 T00940061 10100 20078 53002" is not decoded by the program as it
    is written: its second token is handed to [parse_ot], whose last copy
    writes four bytes into [char val[3]], so the decoder with the arrays that
    [metar.cpp] declares returns no report.  With an array of four bytes the
    report is decoded, and then to what the claim lists: the station KSTL,
    day 23, hour 17, minute 51, wind 270 degrees at 9 knots, visibility 10
    statute miles, the single layer OVC at 1500 feet, temperature 9, dew
    point 6, altimeter 30.29 inHg, sea-level pressure 1026.0, precise
    temperature 9.4 and dew point 6.1; every other field stays absent, and
    the tokens RMK, AO2, 10100, 20078 and 53002 add nothing: without them the
    same fields are decoded. *)
#[warning="-inexact-float"]
Theorem real_METAR_1_overruns_val : forall past,
  let r := Metar_parse past real_METAR_1_text in
  (Metar_parse_checked declared past real_METAR_1_text = None /\
   token_strings past real_METAR_1_text
   = map lit ["KSTL"; "231751Z"; "27009KT"; "10SM"; "OVC015"; "09/06";
              "A3029"; "RMK"; "AO2"; "SLP260"; "T00940061"; "10100"; "20078";
              "53002"]%string /\
   dispatch (Metar_parse past "KSTL") (lit "231751Z") = Some BOt /\
   parse_ot_need (lit "231751Z") = 4%nat /\ ot_val declared = 3%nat) /\
  Metar_parse_checked (with_ot_val 4) past real_METAR_1_text = Some r /\
  (hasICAO r = true /\ _icao r = lit "KSTL") /\
  (_day r = 23 /\ _hour r = 17 /\ _min r = 51)%Z /\
  (_wind_dir r = 270 /\ _wind_spd r = 9)%Z /\
  _wind_speed_units r = Some WIND_SPEED_KT /\
  (_vis r = 10%float /\ _vis_units r = Some VIS_UNITS_SM) /\
  _layers r = [mkSky (lit "OVC") 1500 None] /\
  (_temp r = 9 /\ _dew r = 6)%Z /\
  (hasAltimeterA r = true /\ _altimeterA r = 30.29%float) /\
  (hasSeaLevelPressure r = true /\ _slp r = 1026.0%float) /\
  (_ftemp r = 9.4%float /\ _fdew r = 6.1%float) /\
  (hasMETAR r = false /\ hasWindGust r = false /\ _vrb r = false /\
   hasMinWindDirection r = false /\ hasMaxWindDirection r = false /\
   _vis_lt r = false /\ _cavok r = false /\
   hasVerticalVisibility r = false /\ hasAltimeterQ r = false) /\
  r = set_previous_element (Some (lit "53002"))
        (Metar_parse past real_METAR_1_without_remarks).
Proof.
  intros past r. subst r. vm_compute. repeat split; reflexivity.
Qed.

(** ** Temperature tokens *)

(** C4: the token "M07/05", with an M-prefixed left side and a plain right
    side, is not recognized: [is_temp] has no pattern for it, although it has
    one for each of the other four forms and [parse_temp] itself would decode
    it to -7 and 5.  Decoding the report "M07/05" leaves temperature and dew
    point absent. *)
Theorem temp_M_left_plain_right_unrecognized : forall past,
  is_temp (lit "M07/05") = false /\
  hasTemperature (Metar_parse past "M07/05") = false /\
  hasDewPoint (Metar_parse past "M07/05") = false /\
  (_temp (parse_temp Metar_init (lit "M07/05")) = -7 /\
   _dew (parse_temp Metar_init (lit "M07/05")) = 5)%Z /\
  map is_temp [lit "07/05"; lit "07/M05"; lit "M07/M05"; lit "07/"; lit "M07/"]
  = [true; true; true; true; true].
Proof.
  intros past. vm_compute. repeat split; reflexivity.
Qed.

(** ** The token "RASN" *)


(** ** First occurrence wins *)




(** ** Visibility and CAVOK *)





(** ** The station identifier *)

(** C10: [is_icao] accepts exactly the tokens of four alphabetic characters;
    for every input the station identifier is present if and only if some
    token is of that shape, and it is then the first such token, whatever the
    token means. *)
Theorem icao_is_first_four_letter_token (past : nat -> ascii) (s : string) :
  let r := Metar_parse past s in
  let ts := token_strings past s in
  (forall t, is_icao t = true <->
             length t = 4%nat /\ Forall (fun c => isalpha c = true) t)
  /\ (hasICAO r = true <-> exists t, In t ts /\ is_icao t = true)
  /\ (forall pre t post,
        ts = pre ++ t :: post ->
        Forall (fun x => is_icao x = false) pre -> is_icao t = true ->
        _icao r = t).
Proof.
  intros r ts. split; [exact is_icao_iff|].
  assert (E : _icao r = match find is_icao ts with
                        | Some t => t | None => []
                        end).
  { exact (icao_of_tokens (tokens_of past s) Metar_init eq_refl). }
  split; [split|].
  - intros H. unfold hasICAO in H. rewrite E in H.
    destruct (find is_icao ts) as [t|] eqn:F; [|discriminate H].
    apply find_some in F. exists t. exact F.
  - intros [t [Hin Ht]]. unfold hasICAO. rewrite E.
    destruct (find is_icao ts) as [t'|] eqn:F.
    + apply find_some in F. destruct F as [_ F].
      apply match_length in F. destruct t'; [discriminate F|reflexivity].
    + pose proof (find_none _ _ F t Hin) as N. congruence.
  - intros pre t post Hts Hpre Ht. rewrite E, Hts.
    rewrite (find_first _ is_icao pre post t Hpre Ht). reflexivity.
Qed.

Lemma icao_is_first_four_letter_token_witness :
  token_strings no_past "RASN KSTL" = [] ++ lit "RASN" :: [lit "KSTL"] /\
  Forall (fun x => is_icao x = false) [] /\
  is_icao (lit "RASN") = true /\
  _icao (Metar_parse no_past "RASN KSTL") = lit "RASN".
Proof.
  split; [reflexivity|]. split; [constructor|]. split; [reflexivity|].
  exact (proj2 (proj2 (icao_is_first_four_letter_token no_past "RASN KSTL"))
           [] (lit "RASN") [lit "KSTL"] eq_refl (Forall_nil _) eq_refl).
Defined.

(** ** The two altimeter fields *)

(** The claim fails on a report that carries both groups: each group is
    guarded by its own presence predicate only. *)
#[warning="-inexact-float"]
Lemma both_altimeters_present :
  hasAltimeterA (Metar_parse no_past "A3029 Q1020") = true /\
  hasAltimeterQ (Metar_parse no_past "A3029 Q1020") = true /\
  _altimeterA (Metar_parse no_past "A3029 Q1020") = 30.29%float /\
  _altimeterQ (Metar_parse no_past "A3029 Q1020") = 1020%Z.
Proof.
  vm_compute. repeat split; reflexivity.
Qed.

(** C5 (amended): for every input the inHg altimeter is present exactly when
    some token has the shape "A####", and the hPa altimeter exactly when some
    token has the shape "Q####"; so the report has both exactly when the input
    contains tokens of both shapes, and never both otherwise. *)
Theorem altimeter_fields_follow_tokens (past : nat -> ascii) (s : string) :
  let r := Metar_parse past s in
  let ts := token_strings past s in
  hasAltimeterA r = existsb is_altA ts /\
  hasAltimeterQ r = existsb is_altQ ts /\
  (hasAltimeterA r && hasAltimeterQ r = true <->
   (exists t, In t ts /\ is_altA t = true) /\
   (exists t, In t ts /\ is_altQ t = true)).
Proof.
  intros r ts.
  assert (EA : hasAltimeterA r = existsb is_altA ts).
  { exact (closed_iff_token BAltA (tokens_of past s) ltac:(discriminate)
             ltac:(discriminate) altA_exclusive Metar_init eq_refl). }
  assert (EQ : hasAltimeterQ r = existsb is_altQ ts).
  { exact (closed_iff_token BAltQ (tokens_of past s) ltac:(discriminate)
             ltac:(discriminate) altQ_exclusive Metar_init eq_refl). }
  split; [exact EA|]. split; [exact EQ|].
  rewrite EA, EQ, andb_true_iff, !existsb_exists. reflexivity.
Qed.

(** ** Sea-level pressure *)

(** C9: a token made of "SLP" and three digits ddd has the sea-level
    pressure shape; decoded while the field is absent, and in particular as a
    report of its own, it makes the sea-level pressure present with the value
    ddd / 10 + 1000 computed in double precision, for every ddd. *)
Theorem slp_token_decoded (a b c : ascii) :
  isdigit a = true -> isdigit b = true -> isdigit c = true ->
  let str := lit "SLP" ++ [a; b; c] in
  let v := three_digits a b c in
  is_slp str = true
  /\ (forall m el, tok el = str -> hasSeaLevelPressure m = false ->
        hasSeaLevelPressure (parse_element m el) = true /\
        _slp (parse_element m el) = (float_of_Z v / 10 + 1000)%float)
  /\ (forall past,
        let r := Metar_parse past (string_of_list_ascii str) in
        hasSeaLevelPressure r = true /\
        _slp r = (float_of_Z v / 10 + 1000)%float).
Proof.
  intros Ha Hb Hc str v.
  assert (Hs : is_slp str = true).
  { subst str. eval_shape. reflexivity. }
  assert (Hstep : forall m el, tok el = str -> hasSeaLevelPressure m = false ->
            hasSeaLevelPressure (parse_element m el) = true /\
            _slp (parse_element m el) = (float_of_Z v / 10 + 1000)%float).
  { intros m el Ht Hm.
    assert (Hd : dispatch m (tok el) = Some BSlp).
    { rewrite Ht. apply dispatch_only_shape;
        [apply slp_exclusive; exact Hs|exact Hs|exact Hm]. }
    destruct (field_slp_eq _ _ (parse_element_dispatched m el BSlp Hd))
      as [-> ->].
    split.
    - apply (sub_parser_closes BSlp); [discriminate|discriminate|].
      rewrite Ht. exact Hs.
    - cbn [sub_parser]. rewrite Ht. unfold parse_slp. fields.
      subst str. cbn [lit list_ascii_of_string app skipn].
      rewrite (atof_digit a _ Ha).
      destruct (digits_val_three a b c Ha Hb Hc) as [-> _]. reflexivity. }
  split; [exact Hs|]. split; [exact Hstep|].
  intros past r. subst r. unfold Metar_parse.
  subst str. rewrite (tokens_of_SLP past a b c Ha Hb Hc).
  cbn [parse_tokens fold_left]. apply Hstep; reflexivity.
Qed.

#[warning="-inexact-float"]
Lemma slp_token_decoded_witness :
  isdigit "1" = true /\ isdigit "7" = true /\
  three_digits "1" "7" "7" = 177%Z /\
  hasSeaLevelPressure (Metar_parse no_past "SLP177") = true /\
  _slp (Metar_parse no_past "SLP177") = 1017.7%float.
Proof.
  split; [reflexivity|]. split; [reflexivity|]. split; [reflexivity|].
  exact (proj2 (proj2 (slp_token_decoded "1" "7" "7" eq_refl eq_refl eq_refl))
           no_past).
Defined.

(** ** Fractional visibility *)

(** The claim fails for a token whose numerator has five digits when no wind
    has been decoded: the token has the visibility shape, but the wind branch
    comes first and takes it. *)
Lemma long_numerator_taken_as_wind :
  fraction_token false (lit "12345") (lit "6") = lit "12345/6SM" /\
  token_strings no_past "12345/6SM" = [lit "12345/6SM"] /\
  is_vis (lit "12345/6SM") = true /\
  hasVisibility (Metar_parse no_past "12345/6SM") = false /\
  field BWind (Metar_parse no_past "12345/6SM")
  = FWind 123 45 INT_MIN (Some WIND_SPEED_KT) false.
Proof.
  vm_compute. repeat split; reflexivity.
Qed.

(** C6 (amended): a token "N/DSM", with N and D non-empty strings of digits
    and possibly a leading "M", is a visibility token.  When at most three
    characters stand in front of the "/" and D has at most two digits, the
    copies of [parse_vis] stay inside [char val[4]], and [parse_vis] decodes
    the token to N / D in statute miles, computed in double precision; the
    leading "M" sets the less-than flag and otherwise the flag is unchanged;
    when the previous token is a single digit W the value is N / D + W, and
    N / D alone when it is not; met while visibility and CAVOK are absent,
    the token is handed to [parse_vis].  A token without "M" whose numerator
    has five digits or more, met while the wind is absent, is handed to
    [parse_wind] and leaves the visibility as it was.  Nothing is stated for
    the other tokens: there the copies of [parse_vis] leave the array. *)
Theorem fraction_visibility (m : Metar) (lt : bool) (N D : cstring) :
  N <> [] -> D <> [] -> all_digits N -> all_digits D ->
  let str := fraction_token lt N D in
  let q := (float_of_Z (decimal N) / float_of_Z (decimal D))%float in
  let r := parse_vis m str in
  is_vis str = true /\
  (((if lt then 1 else 0) + length N <= 3)%nat -> (length D <= 2)%nat ->
   (parse_vis_need str <= parse_vis_val)%nat /\
   _vis_units r = Some VIS_UNITS_SM /\
   _vis_lt r = (if lt then true else _vis_lt m) /\
   (previous_is_digit m = false -> _vis r = q) /\
   (forall w, _previous_element m = Some [w] -> isdigit w = true ->
      _vis r = (q + float_of_Z (digit_val w))%float) /\
   (hasVisibility m = false -> _cavok m = false ->
    forall el, tok el = str ->
      parse_element_checked declared m el = Some (parse_element m el) /\
      field BVis (parse_element m el) = field BVis r)) /\
  (lt = false -> (5 <= length N)%nat -> hasWindSpeed m = false ->
   forall el, tok el = str ->
     parse_element_checked declared m el = Some (parse_element m el) /\
     field BWind (parse_element m el) = field BWind (parse_wind m str) /\
     field BVis (parse_element m el) = field BVis m).
Proof.
  intros HN HD HNd HDd str q r.
  assert (Hs : is_vis str = true) by (apply fraction_is_vis; assumption).
  split; [exact Hs|]. split.
  - intros HfN HfD.
    assert (Hneed : (parse_vis_need str <= parse_vis_val)%nat).
    { unfold str. rewrite (fraction_need lt N D HN HNd HDd).
      unfold parse_vis_val. lia. }
    split; [exact Hneed|].
    assert (Hdisp : hasVisibility m = false -> _cavok m = false ->
              forall el, tok el = str ->
                parse_element_checked declared m el
                = Some (parse_element m el) /\
                field BVis (parse_element m el) = field BVis r).
    { intros Hv Hc el Ht.
      assert (Hd : dispatch m (tok el) = Some BVis).
      { rewrite Ht. apply fraction_dispatch; try assumption.
        destruct lt; [left; reflexivity|right; left; cbn in HfN; lia]. }
      split.
      - apply (parse_element_checked_fits declared m el BVis Hd).
        cbn [copies_fit declared vis_val]. rewrite Ht.
        apply Nat.leb_le. exact Hneed.
      - rewrite (parse_element_dispatched m el BVis Hd).
        cbn [sub_parser]. rewrite Ht. reflexivity. }
    clear Hneed Hs.
    subst r str. rewrite (fraction_parse lt N D HN HD HNd HDd m) in *.
    cbv zeta in *. fold q in Hdisp. fold q.
    split; [reflexivity|]. split.
    + destruct (previous_is_digit m), lt; reflexivity.
    + split; [|split; [|exact Hdisp]].
      * intros ->. reflexivity.
      * intros w Hw Hd.
        assert (P : previous_is_digit m = true).
        { unfold previous_is_digit. rewrite Hw. unfold lit.
          cbn [list_ascii_of_string].
          rewrite match_cons, match_character_digit, Hd. reflexivity. }
        rewrite P. fields. unfold atof_previous. rewrite Hw.
        rewrite (atof_digit w [] Hd). cbn [digits_val]. rewrite Hd.
        reflexivity.
  - intros Hlt HL Hw el Ht.
    destruct (vis_not_before _ Hs) as (_ & Hi & Ho & _).
    assert (Hd : dispatch m (tok el) = Some BWind).
    { rewrite Ht. apply dispatch_wind; [exact Hw| |left; exact Hi|left; exact Ho].
      unfold str. rewrite Hlt. apply long_fraction_is_wind; assumption. }
    split; [|split].
    + apply (parse_element_checked_fits declared m el BWind Hd).
      cbn [copies_fit declared wind_val]. apply Nat.leb_le, parse_wind_fits.
    + rewrite (parse_element_dispatched m el BWind Hd).
      cbn [sub_parser]. rewrite Ht. reflexivity.
    + apply parse_element_other. rewrite Hd. discriminate.
Qed.

Lemma fraction_visibility_witness :
  let m := parse_tokens Metar_init [mkElem (lit "2") no_past] in
  (lit "1" <> [] /\ lit "2" <> [] /\ all_digits (lit "1") /\ all_digits (lit "2")) /\
  ((0 + length (lit "1") <= 3)%nat /\ (length (lit "2") <= 2)%nat) /\
  fraction_token false (lit "1") (lit "2") = lit "1/2SM" /\
  _previous_element m = Some (lit "2") /\
  _vis (parse_vis m (lit "1/2SM")) = 2.5%float /\
  Metar_parse_checked declared no_past "2 1/2SM"
  = Some (Metar_parse no_past "2 1/2SM") /\
  _vis (Metar_parse no_past "2 1/2SM") = 2.5%float.
Proof.
  intros m.
  assert (H1 : lit "1" <> []) by discriminate.
  assert (H2 : lit "2" <> []) by discriminate.
  assert (H3 : all_digits (lit "1")) by (repeat constructor).
  assert (H4 : all_digits (lit "2")) by (repeat constructor).
  assert (H5 : (0 + length (lit "1") <= 3)%nat) by (cbn; lia).
  assert (H6 : (length (lit "2") <= 2)%nat) by (cbn; lia).
  split; [auto|]. split; [auto|]. split; [reflexivity|].
  split; [reflexivity|].
  split; [|split; reflexivity].
  exact (proj1 (proj2 (proj2 (proj2 (proj2
           (proj1 (proj2 (fraction_visibility m false (lit "1") (lit "2")
                            H1 H2 H3 H4)) H5 H6)))))
           "2"%char eq_refl eq_refl).
Defined.

(** ** Cloud layers *)

(** The claim fails on a report of a station whose identifier begins with a
    cover code: "SKCL" has the cloud-layer shape and no layer is present yet,
    but the token is taken as the station identifier and adds no layer; met
    after three layers, it is not ignored either. *)
Lemma cloud_shaped_token_taken_as_station :
  token_strings no_past "SKCL FEW015" = [lit "SKCL"; lit "FEW015"] /\
  is_cloud_layer (lit "SKCL") = true /\
  _layers (Metar_parse no_past "SKCL FEW015") = [mkSky (lit "FEW") 1500 None] /\
  _icao (Metar_parse no_past "SKCL FEW015") = lit "SKCL" /\
  length (_layers (Metar_parse no_past "FEW010 SCT020 BKN030 SKCL")) = 3%nat /\
  _icao (Metar_parse no_past "FEW010 SCT020 BKN030 SKCL") = lit "SKCL".
Proof.
  vm_compute. repeat split; reflexivity.
Qed.

(** C3 (amended): for every input the decoded report has at most 3 cloud
    layers; the layers are those of a subsequence of the tokens, each with the
    cloud-layer shape and each adding exactly one layer, in the order of the
    input; a token with the cloud-layer shape met while fewer than 3 layers
    are present is appended, whatever that number is, unless it is a
    four-letter token met while the station identifier is absent; once 3
    layers are present no token changes them. *)
Theorem cloud_layers_capped_and_ordered :
  (forall past s, (length (_layers (Metar_parse past s)) <= 3)%nat)
  /\ (forall past s, exists accepted,
        subseq accepted (tokens_of past s) /\
        Forall (fun el => is_cloud_layer (tok el) = true) accepted /\
        Forall (fun el => length (layer_of el) = 1%nat) accepted /\
        _layers (Metar_parse past s) = flat_map layer_of accepted)
  /\ (forall m el,
        (length (_layers m) < 3)%nat -> is_cloud_layer (tok el) = true ->
        hasICAO m = true \/ is_icao (tok el) = false ->
        _layers (parse_element m el) = _layers m ++ layer_of el /\
        length (layer_of el) = 1%nat)
  /\ (forall m el,
        (3 <= length (_layers m))%nat ->
        _layers (parse_element m el) = _layers m).
Proof.
  split; [|split; [|split]].
  - intros past s. apply parse_tokens_cap. cbn. lia.
  - intros past s.
    destruct (parse_tokens_layers (tokens_of past s) Metar_init)
      as (acc & Hsub & Hall & E).
    exists acc. split; [exact Hsub|]. split; [exact Hall|]. split; [|exact E].
    apply Forall_forall. intros el Hin.
    destruct (layer_of_one el (proj1 (Forall_forall _ _) Hall el Hin))
      as (sc & _ & _ & ->).
    reflexivity.
  - intros m el Hn Hs Hi. rewrite parse_element_layers.
    rewrite (dispatch_cloud m (tok el) Hn Hs Hi). split; [reflexivity|].
    destruct (layer_of_one el Hs) as (sc & _ & _ & ->). reflexivity.
  - intros m el Hn. apply field_layers_eq, parse_element_closed.
    cbn [closed]. unfold _num_layers, _MAX_CLOUD_LAYERS.
    apply negb_true_iff, Nat.ltb_ge. exact Hn.
Qed.

Lemma cloud_layers_capped_and_ordered_witness :
  let m := parse_tokens Metar_init [mkElem (lit "FEW004") no_past] in
  let el := mkElem (lit "SCT080CB") no_past in
  ((length (_layers m) < 3)%nat /\ is_cloud_layer (tok el) = true /\
   (hasICAO m = true \/ is_icao (tok el) = false)) /\
  _layers (parse_element m el)
  = [mkSky (lit "FEW") 400 None; mkSky (lit "SCT") 8000 (Some (lit "CB"))].
Proof.
  intros m el.
  assert (H1 : (length (_layers m) < 3)%nat) by (vm_compute; lia).
  assert (H2 : is_cloud_layer (tok el) = true) by reflexivity.
  assert (H3 : hasICAO m = true \/ is_icao (tok el) = false)
    by (right; reflexivity).
  split; [auto|].
  exact (proj1 (proj1 (proj2 (proj2 cloud_layers_capped_and_ordered))
                  m el H1 H2 H3)).
Defined.

(** * Further properties of the decoder *)

(** ** Strings, patterns and tokens *)

(** X1: a report that holds blanks only, the empty report included, has no
    token, and decoding it leaves every data member as the constructor set
    it. *)
Theorem blank_report_is_initial (past : nat -> ascii) (s : string) :
  Forall (fun c => c = " "%char) (lit s) ->
  tokens_of past s = [] /\ Metar_parse past s = Metar_init.
Proof.
  intros H.
  assert (E : tokens_of past s = []).
  { unfold tokens_of. rewrite c_str_no_NUL.
    - apply tokenize_blank. exact H.
    - intros Hin. rewrite Forall_forall in H. specialize (H _ Hin).
      discriminate H. }
  split; [exact E|]. unfold Metar_parse. rewrite E. reflexivity.
Qed.

Lemma blank_report_is_initial_witness :
  Forall (fun c => c = " "%char) (lit "   ") /\
  Metar_parse no_past "   " = Metar_init.
Proof.
  assert (H : Forall (fun c => c = " "%char) (lit "   "))
    by (repeat constructor).
  split; [exact H|].
  exact (proj2 (blank_report_is_initial no_past "   " H)).
Defined.

(** X2: [match(pattern, str)] holds exactly when the two strings have the
    same length and every character of [str] is accepted by the pattern
    character at its position. *)
Theorem match_is_pointwise (p s : cstring) :
  match_ p s = true <->
  length p = length s /\
  forall i, (i < length p)%nat ->
       match_character (nth i p NUL) (nth i s NUL) = true.
Proof.
  rewrite match_iff_Forall2. split.
  - intros H. split; [exact (Forall2_length H)|].
    induction H as [|a c p s Hac _ IH]; intros i Hi; [inversion Hi|].
    destruct i as [|i]; [exact Hac|]. cbn [nth]. apply IH. cbn in Hi. lia.
  - revert s. induction p as [|a p IH]; intros s [Hl H].
    + destruct s; [constructor|discriminate Hl].
    + destruct s as [|c s]; [discriminate Hl|]. constructor.
      * exact (H 0%nat ltac:(cbn; lia)).
      * apply IH. split; [cbn in Hl; lia|].
        intros i Hi. exact (H (S i) ltac:(cbn; lia)).
Qed.

(** X3: [starts_with(pattern, str)] holds exactly when some initial segment
    of [str] matches the pattern; in particular a string that matches a
    pattern starts with it, and what follows the segment is not looked at. *)
Theorem starts_with_is_match_of_prefix (p s : cstring) :
  (starts_with p s = true <-> exists a b, s = a ++ b /\ match_ p a = true)
  /\ (match_ p s = true -> forall r, starts_with p (s ++ r) = true).
Proof.
  split; [apply starts_with_iff|].
  intros H r. apply starts_with_iff. exists s, r. split; [reflexivity|exact H].
Qed.

Lemma starts_with_is_match_of_prefix_witness :
  match_ (lit "VRB") (lit "VRB") = true /\
  starts_with (lit "VRB") (lit "VRB" ++ lit "05KT") = true.
Proof.
  assert (H : match_ (lit "VRB") (lit "VRB") = true) by reflexivity.
  split; [exact H|].
  exact (proj2 (starts_with_is_match_of_prefix (lit "VRB") (lit "VRB"))
           H (lit "05KT")).
Defined.

(** X4: the two gust patterns of [is_wind] add nothing: a token has the
    wind shape exactly when it starts with five digits or with "VRB",
    whatever follows. *)
Theorem is_wind_five_digits_or_VRB (str : cstring) :
  is_wind str = starts_with (lit "#####") str || starts_with (lit "VRB") str.
Proof.
  unfold is_wind.
  destruct (starts_with (lit "#####") str) eqn:E5; [reflexivity|].
  assert (E8 : starts_with (lit "#####G##") str = false).
  { destruct (starts_with (lit "#####G##") str) eqn:E; [|reflexivity].
    apply (starts_with_app (lit "#####") (lit "G##")) in E. congruence. }
  assert (E10 : starts_with (lit "######G###") str = false).
  { destruct (starts_with (lit "######G###") str) eqn:E; [|reflexivity].
    apply (starts_with_app (lit "#####") (lit "#G###")) in E. congruence. }
  rewrite E8, E10. reflexivity.
Qed.

(** X5: the tokens that [strtok] hands to the loop are words: none is
    empty, none holds a blank; and cutting up words joined by single blanks
    gives the words back, whatever memory lies behind the string. *)
Theorem tokens_are_the_words :
  (forall past s, Forall word (token_strings past s))
  /\ (forall past ts, Forall word ts ->
        token_strings past (string_of_list_ascii (unwords ts)) = ts).
Proof.
  split.
  - intros past s. unfold token_strings, tokens_of.
    apply tokenize_words; [intros []|intros []|apply c_str_spec].
  - intros past ts H. unfold token_strings, tokens_of, lit.
    rewrite list_ascii_of_string_of_list_ascii.
    rewrite c_str_no_NUL by (apply unwords_no_NUL; exact H).
    apply tokenize_unwords. exact H.
Qed.

Lemma tokens_are_the_words_witness :
  Forall word [lit "KSTL"; lit "10SM"] /\
  token_strings no_past "KSTL 10SM" = [lit "KSTL"; lit "10SM"].
Proof.
  assert (H : Forall word [lit "KSTL"; lit "10SM"]).
  { repeat constructor; try discriminate; cbn; intuition discriminate. }
  split; [exact H|].
  exact (proj2 tokens_are_the_words no_past [lit "KSTL"; lit "10SM"] H).
Defined.

(** ** Fields decided by one token *)



(** X7: the decoder sets nothing without a token for it: when the data
    members of a branch differ from what the constructor stored, the report
    holds a token with the shape of that branch.  This holds for every
    branch, wind, visibility and cloud layers included. *)
Theorem fields_need_tokens (past : nat -> ascii) (s : string) (b : branch) :
  field b (Metar_parse past s) <> field b Metar_init ->
  exists t, In t (token_strings past s) /\ shape b t = true.
Proof.
  intros H. unfold token_strings.
  destruct (existsb (shape b) (map tok (tokens_of past s))) eqn:E.
  - apply existsb_exists in E. exact E.
  - contradiction H. apply parse_tokens_no_shape. exact E.
Qed.

Lemma fields_need_tokens_witness :
  field BWind (Metar_parse no_past "KSTL 27009KT") <> field BWind Metar_init /\
  exists t, In t (token_strings no_past "KSTL 27009KT") /\ shape BWind t = true.
Proof.
  assert (H : field BWind (Metar_parse no_past "KSTL 27009KT")
              <> field BWind Metar_init) by (vm_compute; discriminate).
  split; [exact H|].
  exact (fields_need_tokens no_past "KSTL 27009KT" BWind H).
Defined.

(** ** Observation time *)

(** X8: a token of six digits and "Z" is an observation time, and the
    copies of [parse_ot] on it need an array of four bytes.  Met while the
    minute is absent, in the first position of the report or not, the token
    is handed to [parse_ot]: with the array [char val[3]] that the source
    declares the last copy leaves the array and the step has no defined
    result; with an array of four bytes or more the step stores the day, the
    hour and the minute that the three pairs of digits write, and the three
    are then present.  The pairs are not checked against a calendar or a
    clock: every value from 0 to 99 is stored. *)
Theorem observation_time_needs_a_fourth_byte (a b c d e f : ascii) :
  Forall (fun x => isdigit x = true) [a; b; c; d; e; f] ->
  let str := [a; b; c; d; e; f; "Z"%char] in
  is_ot str = true
  /\ parse_ot_need str = 4%nat
  /\ forall m el, tok el = str -> hasMinute m = false ->
       parse_element_checked declared m el = None
       /\ forall arr, (4 <= ot_val arr)%nat ->
            exists r, parse_element_checked arr m el = Some r
              /\ observation_time r
                 = (two_digits a b, two_digits c d, two_digits e f)
              /\ hasDay r = true /\ hasHour r = true /\ hasMinute r = true.
Proof.
  intros H str.
  pose proof (is_ot_digits a b c d e f H) as Hs.
  split; [exact Hs|]. split; [reflexivity|]. intros m el Ht Hm.
  assert (Hd : dispatch m (tok el) = Some BOt).
  { apply dispatch_by_shape; [in_decided| rewrite Ht; exact Hs | exact Hm]. }
  split.
  { unfold parse_element_checked. rewrite Hd. cbn [copies_fit]. rewrite Ht.
    reflexivity. }
  intros arr Harr. exists (parse_element m el). split.
  { apply (parse_element_checked_fits arr m el BOt Hd).
    cbn [copies_fit]. rewrite Ht. apply Nat.leb_le. exact Harr. }
  pose proof (parse_element_dispatched m el BOt Hd) as E.
  set (r := parse_element m el) in *.
  clearbody r. cbn [sub_parser] in E. rewrite Ht in E. unfold str in E.
  rewrite (parse_ot_digits m a b c d e f H) in E.
  cbn [field] in E. injection E as E1 E2 E3.
  all_digits_hyps.
  unfold observation_time, hasDay, hasHour, hasMinute. rewrite E1, E2, E3.
  split; [reflexivity|].
  repeat split; eapply int_defined_range;
    try (eapply decimal_two; eassumption); lia.
Qed.

Lemma observation_time_needs_a_fourth_byte_witness :
  let m := parse_tokens Metar_init [mkElem (lit "KSTL") no_past] in
  let el := mkElem (lit "231751Z") no_past in
  Forall (fun x => isdigit x = true)
         ["2"; "3"; "1"; "7"; "5"; "1"]%char /\
  hasMinute m = false /\
  parse_element_checked declared m el = None.
Proof.
  intros m el.
  assert (H : Forall (fun x => isdigit x = true)
                     ["2"; "3"; "1"; "7"; "5"; "1"]%char)
    by (repeat constructor).
  split; [exact H|]. split; [reflexivity|].
  exact (proj1 (proj2 (proj2
           (observation_time_needs_a_fourth_byte "2" "3" "1" "7" "5" "1" H))
           m el eq_refl eq_refl)).
Defined.

(** ** Groups of fixed width *)

(** X9: a token of three digits, "V" and three digits is a range of wind
    directions; met while the range is absent it is decoded to the two
    numbers that the digits write, from 0 to 999 each, and both bounds are
    then present. *)
Theorem wind_var_decoded (a b c d e f : ascii) :
  Forall (fun x => isdigit x = true) [a; b; c; d; e; f] ->
  let str := [a; b; c; "V"%char; d; e; f] in
  is_wind_var str = true
  /\ forall m el, tok el = str -> hasMinWindDirection m = false ->
       let r := parse_element m el in
       wind_var r = (three_digits a b c, three_digits d e f)
       /\ hasMinWindDirection r = true /\ hasMaxWindDirection r = true.
Proof.
  intros H str.
  pose proof (is_wind_var_digits a b c d e f H) as Hs.
  split; [exact Hs|]. intros m el Ht Hm r.
  assert (E : field BWindVar r = field BWindVar (sub_parser BWindVar m el)).
  { apply step_decided; [in_decided| rewrite Ht; exact Hs | exact Hm]. }
  clearbody r. cbn [sub_parser] in E. rewrite Ht in E. unfold str in E.
  rewrite (parse_wind_var_digits m a b c d e f H) in E.
  cbn [field] in E. injection E as E1 E2.
  all_digits_hyps.
  unfold wind_var, hasMinWindDirection, hasMaxWindDirection. rewrite E1, E2.
  split; [reflexivity|].
  split; eapply int_defined_range;
    try (eapply decimal_three; eassumption); lia.
Qed.

Lemma wind_var_decoded_witness :
  Forall (fun x => isdigit x = true)
         ["0"; "9"; "0"; "1"; "5"; "0"]%char /\
  wind_var (parse_element Metar_init (mkElem (lit "090V150") no_past))
  = (90, 150)%Z.
Proof.
  assert (H : Forall (fun x => isdigit x = true)
                     ["0"; "9"; "0"; "1"; "5"; "0"]%char)
    by (repeat constructor).
  split; [exact H|].
  exact (proj1 (proj2 (wind_var_decoded "0" "9" "0" "1" "5" "0" H)
                  Metar_init (mkElem (lit "090V150") no_past)
                  eq_refl eq_refl)).
Defined.

(** X10: a token "VV" with three digits is a vertical visibility; met while
    the field is absent it is decoded to one hundred times the number that
    the digits write, and the field is then present. *)
Theorem vert_vis_decoded (a b c : ascii) :
  isdigit a = true -> isdigit b = true -> isdigit c = true ->
  let str := lit "VV" ++ [a; b; c] in
  is_vert_vis str = true
  /\ forall m el, tok el = str -> hasVerticalVisibility m = false ->
       let r := parse_element m el in
       _vert_vis r = (three_digits a b c * 100)%Z
       /\ hasVerticalVisibility r = true.
Proof.
  intros Ha Hb Hc str.
  pose proof (is_vert_vis_digits a b c Ha Hb Hc) as Hs.
  split; [exact Hs|]. intros m el Ht Hm r.
  assert (E : field BVertVis r = field BVertVis (sub_parser BVertVis m el)).
  { apply step_decided; [in_decided| rewrite Ht; exact Hs | exact Hm]. }
  clearbody r. cbn [sub_parser field] in E. rewrite Ht in E. unfold str in E.
  rewrite (parse_vert_vis_digits m a b c Ha Hb Hc) in E.
  injection E as E. unfold hasVerticalVisibility. rewrite E.
  split; [reflexivity|].
  destruct (decimal_three a b c Ha Hb Hc) as [_ B].
  apply (int_defined_range _ 0 99900); lia.
Qed.

Lemma vert_vis_decoded_witness :
  (isdigit "0" = true /\ isdigit "7" = true) /\
  _vert_vis (parse_element Metar_init (mkElem (lit "VV007") no_past)) = 700%Z.
Proof.
  split; [split; reflexivity|].
  exact (proj1 (proj2 (vert_vis_decoded "0" "0" "7" eq_refl eq_refl eq_refl)
                  Metar_init (mkElem (lit "VV007") no_past)
                  eq_refl eq_refl)).
Defined.

(** X11: a token "A" with four digits, met while the inHg altimeter is
    absent, sets it to the number that the digits write divided by 100 in
    double precision, and leaves the hPa altimeter alone; a token "Q" with
    four digits, met while the hPa altimeter is absent, sets it to the number
    that the digits write and leaves the inHg altimeter alone. *)
Theorem altimeters_decoded (a b c d : ascii) :
  all_digits [a; b; c; d] ->
  let n := decimal [a; b; c; d] in
  forall m el,
    let r := parse_element m el in
    (tok el = "A"%char :: [a; b; c; d] -> hasAltimeterA m = false ->
       _altimeterA r = (float_of_Z n / 100)%float /\
       hasAltimeterA r = true /\ _altimeterQ r = _altimeterQ m)
    /\ (tok el = "Q"%char :: [a; b; c; d] -> hasAltimeterQ m = false ->
          _altimeterQ r = n /\
          hasAltimeterQ r = true /\ _altimeterA r = _altimeterA m).
Proof.
  intros H n m el r.
  destruct (is_alt_digits a b c d H) as [HA HQ].
  destruct (decimal_four a b c d H) as [_ B]. fold n in B.
  assert (En : atoi [a; b; c; d] = n).
  { apply atoi_digits; [discriminate|exact H|cbn; lia]. }
  split; intros Ht Hm.
  - assert (Hd : dispatch m (tok el) = Some BAltA).
    { apply dispatch_by_shape; [in_decided|rewrite Ht; exact HA|exact Hm]. }
    pose proof (parse_element_dispatched m el BAltA Hd) as E.
    pose proof (parse_element_other m el BAltQ
                  ltac:(rewrite Hd; discriminate)) as E'.
    fold r in E, E'. clearbody r.
    cbn [sub_parser field] in E, E'. rewrite Ht in E.
    rewrite (parse_alt_A m _ HA) in E. cbn [skipn] in E. rewrite En in E.
    injection E as E. injection E' as E'. fields.
    unfold hasAltimeterA. rewrite E.
    split; [reflexivity|]. split; [|exact E'].
    apply altA_defined. exact B.
  - assert (Hd : dispatch m (tok el) = Some BAltQ).
    { apply dispatch_by_shape; [in_decided|rewrite Ht; exact HQ|exact Hm]. }
    pose proof (parse_element_dispatched m el BAltQ Hd) as E.
    pose proof (parse_element_other m el BAltA
                  ltac:(rewrite Hd; discriminate)) as E'.
    fold r in E, E'. clearbody r.
    cbn [sub_parser field] in E, E'. rewrite Ht in E.
    rewrite (parse_alt_Q m _ HQ) in E. cbn [skipn] in E. rewrite En in E.
    injection E as E. injection E' as E'. fields.
    unfold hasAltimeterQ. rewrite E.
    split; [reflexivity|]. split; [|exact E'].
    apply (int_defined_range _ 0 9999); lia.
Qed.

#[warning="-inexact-float"]
Lemma altimeters_decoded_witness :
  all_digits (lit "2998") /\
  _altimeterA (parse_element Metar_init (mkElem (lit "A2998") no_past))
  = 29.98%float /\
  _altimeterQ (parse_element Metar_init (mkElem (lit "Q2998") no_past))
  = 2998%Z.
Proof.
  assert (H : all_digits (lit "2998")) by (repeat constructor).
  split; [exact H|]. split.
  - exact (proj1 (proj1 (altimeters_decoded "2" "9" "9" "8" H Metar_init
                           (mkElem (lit "A2998") no_past)) eq_refl eq_refl)).
  - exact (proj1 (proj2 (altimeters_decoded "2" "9" "9" "8" H Metar_init
                           (mkElem (lit "Q2998") no_past)) eq_refl eq_refl)).
Defined.

(** X12: a token "T" with eight digits, met while the precise temperature
    is absent, sets the precise temperature from the first four digits and
    the precise dew point from the last four, and both are then present.  Of
    four digits s, a, b, c the value is minus abc tenths when s is "1";
    otherwise s is read as a digit of the number, so the value is abc tenths
    when s is "0" and sabc tenths for any other s. *)
Theorem tempNA_decoded (s1 a b c s2 d e f : ascii) :
  all_digits [s1; a; b; c; s2; d; e; f] ->
  let tenths (s x y z : ascii) :=
    if Ascii.eqb s "1"
    then (PrimFloat.opp (float_of_Z (three_digits x y z)) / 10)%float
    else (float_of_Z (digit_val s * 1000 + three_digits x y z) / 10)%float in
  let str := "T"%char :: [s1; a; b; c; s2; d; e; f] in
  is_tempNA str = true
  /\ forall m el, tok el = str -> hasTemperatureNA m = false ->
       let r := parse_element m el in
       temperatureNA r = (tenths s1 a b c, tenths s2 d e f)
       /\ hasTemperatureNA r = true /\ hasDewPointNA r = true.
Proof.
  intros H tenths str.
  pose proof (is_tempNA_digits s1 a b c s2 d e f H) as Hs.
  split; [exact Hs|]. intros m el Ht Hm r.
  assert (E : field BTempNA r = field BTempNA (sub_parser BTempNA m el)).
  { apply step_decided; [in_decided| rewrite Ht; exact Hs | exact Hm]. }
  clearbody r. cbn [sub_parser field] in E. rewrite Ht in E. unfold str in E.
  unfold parse_tempNA in E. cbn [strncpy firstn skipn] in E.
  revert E. fields. intros E. injection E as E1 E2.
  assert (H1 : all_digits [s1; a; b; c]) by (all_digits_hyps; repeat constructor; assumption).
  assert (H2 : all_digits [s2; d; e; f]) by (all_digits_hyps; repeat constructor; assumption).
  rewrite (tempNA_digits s1 a b c H1) in E1.
  rewrite (tempNA_digits s2 d e f H2) in E2.
  unfold temperatureNA, hasTemperatureNA, hasDewPointNA. rewrite E1, E2.
  split; [reflexivity|].
  clear E1 E2 Hs. all_digits_hyps.
  split.
  - destruct (Ascii.eqb s1 "1").
    + apply minus_tenth_defined.
      destruct (decimal_three a b c) as [_ B]; [assumption..|]. lia.
    + apply tenth_defined.
      destruct (decimal_four s1 a b c) as [E B]; [repeat constructor; assumption|].
      rewrite <- E. exact B.
  - destruct (Ascii.eqb s2 "1").
    + apply minus_tenth_defined.
      destruct (decimal_three d e f) as [_ B]; [assumption..|]. lia.
    + apply tenth_defined.
      destruct (decimal_four s2 d e f) as [E B]; [repeat constructor; assumption|].
      rewrite <- E. exact B.
Qed.

#[warning="-inexact-float"]
Lemma tempNA_decoded_witness :
  all_digits (lit "01561006") /\
  temperatureNA (parse_element Metar_init (mkElem (lit "T01561006") no_past))
  = (15.6, -0.6)%float.
Proof.
  assert (H : all_digits (lit "01561006")) by (repeat constructor).
  split; [exact H|].
  exact (proj1 (proj2 (tempNA_decoded "0" "1" "5" "6" "1" "0" "0" "6" H)
                  Metar_init (mkElem (lit "T01561006") no_past)
                  eq_refl eq_refl)).
Defined.

(** X13: met while the temperature is absent, each of the five forms that
    [is_temp] lists is decoded: two digits give the temperature, two digits
    behind the "/" the dew point, an "M" in front of either makes it
    negative, and a token that ends with the "/" leaves the dew point as it
    was. *)
Theorem temperature_decoded (a b c d : ascii) :
  isdigit a = true -> isdigit b = true -> isdigit c = true -> isdigit d = true ->
  let t := two_digits a b in
  let dw := two_digits c d in
  forall m el, hasTemperature m = false ->
    let r := parse_element m el in
    (tok el = [a; b] ++ lit "/" ++ [c; d] -> temperature r = (t, dw))
    /\ (tok el = [a; b] ++ lit "/M" ++ [c; d] -> temperature r = (t, - dw)%Z)
    /\ (tok el = lit "M" ++ [a; b] ++ lit "/M" ++ [c; d] ->
          temperature r = (- t, - dw)%Z)
    /\ (tok el = [a; b] ++ lit "/" -> temperature r = (t, _dew m))
    /\ (tok el = lit "M" ++ [a; b] ++ lit "/" ->
          temperature r = ((- t)%Z, _dew m)).
Proof.
  intros Ha Hb Hc Hd t dw m el Hm r.
  destruct (recognized_temperature_forms m a b c d Ha Hb Hc Hd)
    as (R1 & R2 & R3 & R4 & R5).
  cbv zeta in R1, R2, R3, R4, R5. fold t in R1, R2, R3, R4, R5.
  fold dw in R1, R2, R3.
  assert (Step : forall str x y,
             (is_temp str, _temp (parse_temp m str), _dew (parse_temp m str))
             = (true, x, y) ->
             tok el = str -> temperature r = (x, y)).
  { intros str x y R Ht. injection R as Rs Rt Rd.
    assert (E : field BTemp r = field BTemp (sub_parser BTemp m el)).
    { apply step_decided; [in_decided| rewrite Ht; exact Rs | exact Hm]. }
    clearbody r. cbn [sub_parser field] in E. rewrite Ht in E.
    injection E as E1 E2. unfold temperature. congruence. }
  repeat split; apply Step; assumption.
Qed.

Lemma temperature_decoded_witness :
  (isdigit "1" = true /\ isdigit "6" = true /\ isdigit "0" = true) /\
  temperature (parse_element Metar_init (mkElem (lit "16/M01") no_past))
  = (16, -1)%Z.
Proof.
  split; [repeat split; reflexivity|].
  exact (proj1 (proj2 (temperature_decoded "1" "6" "0" "1"
                         eq_refl eq_refl eq_refl eq_refl
                         Metar_init (mkElem (lit "16/M01") no_past) eq_refl))
           eq_refl).
Defined.

(** ** Wind and whole-number visibility *)

(** X14: a wind token is made of a direction of three digits or "VRB", a
    speed of two or three digits, possibly "G" and a gust of two or three
    digits, and a unit "KT", "MPS", "KPH" or none.  Met while the wind speed
    is absent it is decoded to these numbers; the unit is the one written,
    knots when none is; "VRB" sets the variable flag and leaves the direction
    as it was; without "G" the gust stays as it was; the wind speed is then
    present. *)
Theorem wind_decoded (dir : option cstring) (S : cstring) (G : option cstring)
    (u : cstring) :
  (forall D, dir = Some D -> length D = 3%nat /\ all_digits D) ->
  two_or_three_digits S ->
  (forall g, G = Some g -> two_or_three_digits g) ->
  In u [WIND_SPEED_KT; WIND_SPEED_MPS; WIND_SPEED_KPH; []] ->
  let str := wind_token dir S G u in
  is_wind str = true
  /\ forall m el, tok el = str -> hasWindSpeed m = false ->
       let r := parse_element m el in
       wind r
       = (match dir with Some D => decimal D | None => _wind_dir m end,
          decimal S,
          match G with Some g => decimal g | None => _gust m end,
          Some match u with [] => WIND_SPEED_KT | _ :: _ => u end,
          match dir with Some _ => _vrb m | None => true end)
       /\ hasWindSpeed r = true.
Proof.
  intros HD HS HG Hu str.
  split.
  { exact (proj2 (proj2 (proj2 (proj1
             (wind_token_decoded dir S G u Metar_init HD HS HG Hu))))). }
  intros m el Ht Hm r.
  destruct (wind_token_decoded dir S G u m HD HS HG Hu)
    as [(H1 & H2 & H3 & H4) W]. fold str in H1, H2, H3, H4, W.
  assert (Hd : dispatch m (tok el) = Some BWind).
  { rewrite Ht. unfold dispatch, branches. cbn [find shape closed].
    rewrite H1, H2, H3, H4, Hm, !andb_false_r. reflexivity. }
  pose proof (parse_element_dispatched m el BWind Hd) as E.
  fold r in E. clearbody r. cbn [sub_parser field] in E. rewrite Ht in E.
  injection E as E1 E2 E3 E4 E5.
  assert (Er : wind r = wind (parse_wind m str)).
  { unfold wind. congruence. }
  split; [rewrite Er; exact W|].
  unfold hasWindSpeed. rewrite E2.
  rewrite W in Er. unfold wind in W. injection W as _ W _ _ _. rewrite W.
  destruct HS as [HS L].
  pose proof (decimal_lt S 3 HS ltac:(lia)) as B.
  change (10 ^ Z.of_nat 3)%Z with 1000%Z in B.
  apply (int_defined_range _ 0 999); lia.
Qed.

Lemma wind_decoded_witness :
  let m := parse_tokens Metar_init [mkElem (lit "KSTL") no_past] in
  wind_token (Some (lit "250")) (lit "05") (Some (lit "12")) WIND_SPEED_KT
  = lit "25005G12KT" /\
  wind (parse_element m (mkElem (lit "25005G12KT") no_past))
  = (250, 5, 12, Some WIND_SPEED_KT, false)%Z.
Proof.
  intros m. split; [reflexivity|].
  assert (HD : forall D, Some (lit "250") = Some D ->
                         length D = 3%nat /\ all_digits D).
  { intros D E. injection E as <-. split; [reflexivity|repeat constructor]. }
  assert (HS : two_or_three_digits (lit "05")).
  { split; [repeat constructor|left; reflexivity]. }
  assert (HG : forall g, Some (lit "12") = Some g -> two_or_three_digits g).
  { intros g E. injection E as <-. split; [repeat constructor|left; reflexivity]. }
  assert (Hu : In WIND_SPEED_KT
                  [WIND_SPEED_KT; WIND_SPEED_MPS; WIND_SPEED_KPH; []])
    by (left; reflexivity).
  exact (proj1 (proj2 (wind_decoded (Some (lit "250")) (lit "05")
                         (Some (lit "12")) WIND_SPEED_KT HD HS HG Hu)
                  m (mkElem (lit "25005G12KT") no_past) eq_refl eq_refl)).
Defined.

(** X15: a token of four digits is a visibility in metres, and a token of
    one to four digits followed by "SM" a visibility in statute miles.  Met
    while visibility and CAVOK are absent it sets the visibility to the
    number that the digits write and the unit to "M" or "SM"; the less-than
    flag stays as it was, and a single digit in the previous token is not
    added.  The visibility is then present. *)
Theorem whole_visibility_decoded (N : cstring) (sm : bool) :
  all_digits N -> (1 <= length N <= 4)%nat ->
  (sm = false -> length N = 4%nat) ->
  let str := N ++ (if sm then VIS_UNITS_SM else []) in
  is_vis str = true
  /\ forall m el, tok el = str -> hasVisibility m = false -> _cavok m = false ->
       let r := parse_element m el in
       visibility r
       = (float_of_Z (decimal N),
          Some (if sm then VIS_UNITS_SM else VIS_UNITS_M), _vis_lt m, false)
       /\ hasVisibility r = true.
Proof.
  intros H L Hsm str.
  split.
  { apply (whole_visibility_token N sm Metar_init H L Hsm). }
  intros m el Ht Hm Hc r.
  destruct (whole_visibility_token N sm m H L Hsm)
    as [(H1 & H2 & H3 & H4 & H5 & H6) V].
  fold str in H1, H2, H3, H4, H5, H6, V.
  assert (Hd : dispatch m (tok el) = Some BVis).
  { rewrite Ht. unfold dispatch, branches. cbn [find shape closed].
    rewrite H1, H2, H3, H4, H5, H6, Hm, Hc, !andb_false_r. reflexivity. }
  pose proof (parse_element_dispatched m el BVis Hd) as E.
  fold r in E. clearbody r. cbn [sub_parser field] in E. rewrite Ht in E.
  injection E as E1 E2 E3 E4.
  assert (Er : visibility r = visibility (parse_vis m str)).
  { unfold visibility. congruence. }
  rewrite V, Hc in Er. split; [exact Er|].
  unfold visibility in Er. injection Er as Er _ _ _.
  unfold hasVisibility. rewrite Er.
  apply int_float_defined.
  pose proof (decimal_lt N 4 H ltac:(lia)) as B.
  change (10 ^ Z.of_nat 4)%Z with 10000%Z in B. exact B.
Qed.

Lemma whole_visibility_decoded_witness :
  let m := parse_tokens Metar_init [mkElem (lit "2") no_past] in
  (all_digits (lit "10") /\ (1 <= length (lit "10") <= 4)%nat) /\
  visibility (parse_element m (mkElem (lit "10SM") no_past))
  = (10%float, Some VIS_UNITS_SM, false, false).
Proof.
  intros m.
  assert (H : all_digits (lit "10")) by (repeat constructor).
  assert (L : (1 <= length (lit "10") <= 4)%nat) by (cbn; lia).
  split; [split; assumption|].
  exact (proj1 (proj2 (whole_visibility_decoded (lit "10") true H L
                         ltac:(discriminate))
                  m (mkElem (lit "10SM") no_past) eq_refl eq_refl eq_refl)).
Defined.

(** ** Contents of a cloud layer *)

(** X16: a cover code alone adds a layer without altitude and without
    cloud type.  A cover code followed by three digits and by a rest that
    does not begin with a digit adds a layer whose altitude is one hundred
    times the number that the digits write; its cloud type is the rest when
    the rest is one of "TCU", "CB" and "ACC", and is absent for any other
    rest, the empty one included.  Both hold whenever fewer than three layers
    are present, and the layer is appended behind them. *)
Theorem cloud_layer_decoded (sc t : cstring) (a b c : ascii) :
  In sc sky_conditions ->
  isdigit a = true -> isdigit b = true -> isdigit c = true ->
  ~ In NUL t -> isdigit (hd NUL t) = false ->
  (forall m el, (length (_layers m) < 3)%nat ->
     (tok el = sc ->
        _layers (parse_element m el) = _layers m ++ [mkSky sc INT_MIN None])
     /\ (tok el = sc ++ [a; b; c] ++ t ->
           _layers (parse_element m el)
           = _layers m ++ [mkSky sc (three_digits a b c * 100)
                                 (find (streq t) cloud_types)]))
  /\ (In t cloud_types -> find (streq t) cloud_types = Some t)
  /\ (~ In t cloud_types -> find (streq t) cloud_types = None).
Proof.
  intros Hin Ha Hb Hc Hn Hd.
  split; [|apply find_cloud_type].
  intros m el Hl.
  destruct (sky_condition_length sc Hin) as (x & y & z & E).
  split; intros Ht.
  - rewrite (cloud_step m el sc []); [| exact Hin | | discriminate | exact Hl].
    + rewrite new_layer_bare; [reflexivity|]. rewrite Ht, E. reflexivity.
    + rewrite app_nil_r. exact Ht.
  - rewrite (cloud_step m el sc ([a; b; c] ++ t));
      [| exact Hin | exact Ht | cbn [app length]; lia | exact Hl].
    rewrite (new_layer_altitude sc t a b c el); [reflexivity| |assumption..].
    rewrite E. reflexivity.
Qed.

Lemma cloud_layer_decoded_witness :
  let m := parse_tokens Metar_init [mkElem (lit "FEW004") no_past] in
  (In (lit "SCT") sky_conditions /\ (length (_layers m) < 3)%nat) /\
  _layers (parse_element m (mkElem (lit "SCT080CB") no_past))
  = [mkSky (lit "FEW") 400 None; mkSky (lit "SCT") 8000 (Some (lit "CB"))].
Proof.
  intros m.
  assert (Hin : In (lit "SCT") sky_conditions) by (cbn; auto 10).
  assert (Hl : (length (_layers m) < 3)%nat) by (vm_compute; lia).
  assert (Hn : ~ In NUL (lit "CB")).
  { apply cloud_types_no_NUL. cbn. auto. }
  split; [split; assumption|].
  exact (proj2 (proj1 (cloud_layer_decoded (lit "SCT") (lit "CB") "0" "8" "0"
                         Hin eq_refl eq_refl eq_refl Hn eq_refl)
                  m (mkElem (lit "SCT080CB") no_past) Hl) eq_refl).
Defined.

(** ** Reading behind a token *)



(** X18: apart from that, decoding reads nothing behind the terminator of
    a token: when no cloud-shaped token of the report has four or five
    characters, the decoded report does not depend on the memory that lies
    behind the string. *)
Theorem decoding_reads_inside_the_string
    (past1 past2 : nat -> ascii) (s : string) :
  (forall t, In t (token_strings past1 s) -> is_cloud_layer t = true ->
             length t <> 4%nat /\ length t <> 5%nat) ->
  Metar_parse past1 s = Metar_parse past2 s.
Proof.
  intros H. unfold Metar_parse, tokens_of.
  apply tokenize_same; [intros []|apply c_str_spec|].
  apply Forall_forall. intros t Hin. exact (H t Hin).
Qed.

Lemma decoding_reads_inside_the_string_witness :
  (forall t, In t (token_strings no_past "KSTL OVC015 FEW") ->
             is_cloud_layer t = true ->
             length t <> 4%nat /\ length t <> 5%nat) /\
  Metar_parse no_past "KSTL OVC015 FEW"
  = Metar_parse (fun _ => "C"%char) "KSTL OVC015 FEW".
Proof.
  assert (H : forall t, In t (token_strings no_past "KSTL OVC015 FEW") ->
                        is_cloud_layer t = true ->
                        length t <> 4%nat /\ length t <> 5%nat).
  { intros t [<-|[<-|[<-|[]]]] C; try discriminate C; split; discriminate. }
  split; [exact H|].
  exact (decoding_reads_inside_the_string no_past (fun _ => "C"%char)
           "KSTL OVC015 FEW" H).
Defined.

(** X19: whatever the report, the cover code of every stored layer is one
    of the seven codes of [sky_conditions], and its cloud type, when it has
    one, is one of the three codes of [cloud_types]. *)
Theorem layers_come_from_the_tables (past : nat -> ascii) (s : string) :
  Forall (fun l => In (_cond l) sky_conditions /\
                   forall ty, _type l = Some ty -> In ty cloud_types)
         (_layers (Metar_parse past s)).
Proof.
  destruct (parse_tokens_layers (tokens_of past s) Metar_init)
    as (acc & _ & Hall & E).
  unfold Metar_parse. rewrite E. cbn [_layers Metar_init app]. clear E.
  induction Hall as [|el acc Hel _ IH]; [constructor|].
  cbn [flat_map]. destruct (layer_of_one el Hel) as (sc & Hsc & _ & ->).
  cbn [app]. constructor; [|exact IH].
  unfold new_layer.
  destruct (Ascii.eqb (char_at el 3) NUL);
    [|destruct (Ascii.eqb (char_at el 6) NUL)];
    cbn [_cond _type]; (split; [exact Hsc|]); intros ty F; try discriminate F.
  apply find_some in F. exact (proj1 F).
Qed.

(** ** Invariants of the decoded report *)

(** X20: values that one token carries together are present together:
    for every report the day, the hour and the minute are all present or all
    absent, so are the two bounds of the wind direction range, and so are the
    precise temperature and the precise dew point; a dew point is present
    only with a temperature. *)
Theorem grouped_fields_are_present_together (past : nat -> ascii) (s : string) :
  let r := Metar_parse past s in
  (hasDay r = hasMinute r /\ hasHour r = hasMinute r)
  /\ hasMaxWindDirection r = hasMinWindDirection r
  /\ hasDewPointNA r = hasTemperatureNA r
  /\ (hasDewPoint r = true -> hasTemperature r = true).
Proof.
  intros r. subst r. repeat split.
  - destruct (decided_field past s BOt ltac:(in_decided))
      as [E|(el & Hs & E)]; cbn [sub_parser shape] in *.
    + cbn [field] in E. injection E as E1 E2 E3. unfold hasDay, hasMinute. rewrite E1, E3.
      reflexivity.
    + destruct (is_ot_inv _ Hs) as (a & b & c & d & e & f & Ht & Hall).
      rewrite Ht, (parse_ot_digits _ a b c d e f Hall) in E.
      cbn [field] in E. injection E as E1 E2 E3. unfold hasDay, hasMinute. rewrite E1, E3.
      all_digits_hyps.
      rewrite !(int_defined_range _ 0 99);
        try (eapply decimal_two; eassumption); try lia; try reflexivity.
  - destruct (decided_field past s BOt ltac:(in_decided))
      as [E|(el & Hs & E)]; cbn [sub_parser shape] in *.
    + cbn [field] in E. injection E as E1 E2 E3. unfold hasHour, hasMinute. rewrite E2, E3.
      reflexivity.
    + destruct (is_ot_inv _ Hs) as (a & b & c & d & e & f & Ht & Hall).
      rewrite Ht, (parse_ot_digits _ a b c d e f Hall) in E.
      cbn [field] in E. injection E as E1 E2 E3. unfold hasHour, hasMinute. rewrite E2, E3.
      all_digits_hyps.
      rewrite !(int_defined_range _ 0 99);
        try (eapply decimal_two; eassumption); try lia; try reflexivity.
  - destruct (decided_field past s BWindVar ltac:(in_decided))
      as [E|(el & Hs & E)]; cbn [sub_parser shape] in *.
    + cbn [field] in E. injection E as E1 E2.
      unfold hasMaxWindDirection, hasMinWindDirection. rewrite E1, E2.
      reflexivity.
    + destruct (is_wind_var_inv _ Hs) as (a & b & c & d & e & f & Ht & Hall).
      rewrite Ht, (parse_wind_var_digits _ a b c d e f Hall) in E.
      cbn [field] in E. injection E as E1 E2.
      unfold hasMaxWindDirection, hasMinWindDirection. rewrite E1, E2.
      all_digits_hyps.
      rewrite !(int_defined_range _ 0 999);
        try (eapply decimal_three; eassumption); try lia; try reflexivity.
  - destruct (decided_field past s BTempNA ltac:(in_decided))
      as [E|(el & Hs & E)]; cbn [sub_parser shape] in *.
    + cbn [field] in E. injection E as E1 E2.
      unfold hasDewPointNA, hasTemperatureNA. rewrite E1, E2. reflexivity.
    + destruct (is_tempNA_inv _ Hs)
        as (s1 & a & b & c & s2 & d & e & f & Ht & Hall).
      rewrite Ht in E. unfold parse_tempNA in E.
      cbn [strncpy firstn skipn field] in E. revert E. fields. intros E.
      cbn [field] in E. injection E as E1 E2.
      unfold hasDewPointNA, hasTemperatureNA. rewrite E1, E2.
      all_digits_hyps.
      rewrite !tempNA_defined by (repeat constructor; assumption).
      reflexivity.
  - destruct (decided_field past s BTemp ltac:(in_decided))
      as [E|(el & Hs & E)]; cbn [sub_parser shape] in *.
    + cbn [field] in E. injection E as E1 E2. unfold hasDewPoint. rewrite E2. discriminate.
    + cbn [field] in E. injection E as E1 E2. intros _. unfold hasTemperature. rewrite E1.
      destruct (temp_token_range _ Hs) as [B _].
      apply (int_defined_range _ (-99) 99); [exact B|lia].
Qed.

Lemma grouped_fields_are_present_together_witness :
  hasDewPoint (Metar_parse no_past "KSTL 09/06") = true /\
  hasTemperature (Metar_parse no_past "KSTL 09/06") = true.
Proof.
  assert (H : hasDewPoint (Metar_parse no_past "KSTL 09/06") = true)
    by reflexivity.
  split; [exact H|].
  exact (proj2 (proj2 (proj2
           (grouped_fields_are_present_together no_past "KSTL 09/06"))) H).
Defined.



(** ** Consistency of the wind members *)

(** X22: the wind members of every decoded report agree with each other.
    When the wind speed is absent, the direction, the gust, the unit and the
    variable flag are as the constructor left them.  When it is present, the
    unit is one of "KT", "MPS" and "KPH", and the direction is present
    exactly when the variable flag is not set. *)
Theorem wind_fields_are_consistent (past : nat -> ascii) (s : string) :
  let r := Metar_parse past s in
  (hasWindSpeed r = false -> wind r = wind Metar_init)
  /\ (hasWindSpeed r = true ->
        (exists u, _wind_speed_units r = Some u /\
                   In u [WIND_SPEED_KT; WIND_SPEED_MPS; WIND_SPEED_KPH])
        /\ hasWindDirection r = negb (_vrb r)).
Proof.
  intros r.
  assert (H : wind_consistent r).
  { apply parse_tokens_wind_consistent. left. reflexivity. }
  clearbody r. destruct H as [H|(H1 & H2 & H3)].
  - cbn [field] in H. injection H as E1 E2 E3 E4 E5. split.
    + intros _. unfold wind. rewrite E1, E2, E3, E4, E5. reflexivity.
    + intros H. unfold hasWindSpeed in H. rewrite E2 in H. discriminate H.
  - split; [intros H; congruence|]. intros _. split; assumption.
Qed.

Lemma wind_fields_are_consistent_witness :
  let r := Metar_parse no_past "KSTL VRB04KT" in
  hasWindSpeed r = true /\ hasWindDirection r = negb (_vrb r).
Proof.
  intros r.
  assert (H : hasWindSpeed r = true) by reflexivity.
  split; [exact H|].
  exact (proj2 (proj2 (wind_fields_are_consistent no_past "KSTL VRB04KT") H)).
Defined.

(** ** Division by zero *)

(** X23: [parse_vis] divides without looking at the denominator.  A
    fraction token whose denominator is written with zeros only, short
    enough for the array of [parse_vis] and met while visibility and CAVOK
    are absent, makes the visibility present all the same: its value is plus infinity when the numerator is not zero and is
    not a number when the numerator is zero, with or without a digit in the
    previous token. *)
Theorem zero_denominator_is_not_rejected (lt : bool) (N D : cstring) :
  N <> [] -> all_digits N -> ((if lt then 1 else 0) + length N <= 3)%nat ->
  D <> [] -> all_digits D -> (length D <= 2)%nat -> decimal D = 0%Z ->
  forall m el, tok el = fraction_token lt N D ->
    hasVisibility m = false -> _cavok m = false ->
    let r := parse_element m el in
    hasVisibility r = true
    /\ ((0 < decimal N)%Z -> _vis r = infinity)
    /\ (decimal N = 0%Z -> PrimFloat.is_nan (_vis r) = true).
Proof.
  intros HN HNd HNf HD HDd HDl HD0 m el Ht Hv Hc r.
  assert (HNl : (length N <= 4)%nat) by (destruct lt; lia).
  assert (Hd : dispatch m (tok el) = Some BVis).
  { rewrite Ht. apply fraction_dispatch; auto. }
  pose proof (parse_element_dispatched m el BVis Hd) as E.
  fold r in E. clearbody r. cbn [sub_parser] in E. rewrite Ht in E.
  rewrite (fraction_parse lt N D HN HD HNd HDd m) in E.
  cbv zeta in E. rewrite HD0 in E.
  destruct (field_vis_eq _ _ E) as (Ev & _ & Eh). rewrite Eh, Ev. clear E Ev Eh.
  pose proof (decimal_lt N 4 HNd HNl) as B.
  change (10 ^ Z.of_nat 4)%Z with 10000%Z in B.
  unfold hasVisibility.
  destruct (previous_is_digit m) eqn:P; fields.
  - destruct (previous_digit_value m P) as (w & Hw & ->).
    destruct (Z.eq_dec (decimal N) 0) as [Z0|Z0].
    + rewrite Z0.
      destruct (zero_over_zero_plus_digit w Hw) as (_ & _ & Q1 & Q2).
      split; [exact Q2|]. split; [lia|]. intros _. exact Q1.
    + rewrite positive_over_zero by lia. rewrite infinity_plus_digit by exact Hw.
      split; [reflexivity|]. split; [reflexivity|]. intros Z1. contradiction.
  - destruct (Z.eq_dec (decimal N) 0) as [Z0|Z0].
    + rewrite Z0.
      destruct (zero_over_zero_plus_digit 0 ltac:(lia)) as (Q1 & Q2 & _).
      split; [exact Q2|]. split; [lia|]. intros _. exact Q1.
    + rewrite positive_over_zero by lia.
      split; [reflexivity|]. split; [reflexivity|]. intros Z1. contradiction.
Qed.

Lemma zero_denominator_is_not_rejected_witness :
  (all_digits (lit "1") /\ all_digits (lit "0") /\ decimal (lit "0") = 0%Z) /\
  fraction_token false (lit "1") (lit "0") = lit "1/0SM" /\
  _vis (parse_element Metar_init (mkElem (lit "1/0SM") no_past)) = infinity.
Proof.
  assert (H1 : all_digits (lit "1")) by (repeat constructor).
  assert (H2 : all_digits (lit "0")) by (repeat constructor).
  split; [repeat split; assumption|]. split; [reflexivity|].
  exact (proj1 (proj2 (zero_denominator_is_not_rejected false (lit "1")
                         (lit "0") ltac:(discriminate) H1 ltac:(cbn; lia)
                         ltac:(discriminate) H2 ltac:(cbn; lia) eq_refl
                         Metar_init (mkElem (lit "1/0SM") no_past)
                         eq_refl eq_refl eq_refl))
           ltac:(vm_compute; reflexivity)).
Defined.

(** ** Decoding in two parts *)

(** X24: decoding goes from left to right and composes: the report made
    of [s1], a blank and [s2] is decoded as [s2] is, starting from the
    decoded [s1] instead of a fresh report.  This holds when [s1] holds no
    terminator and no cloud-shaped token of the whole report has four or five
    characters. *)
Theorem decoding_composes (past : nat -> ascii) (s1 s2 : string) :
  ~ In NUL (lit s1) ->
  (forall t, In t (token_strings past (s1 ++ " " ++ s2)%string) ->
             is_cloud_layer t = true ->
             length t <> 4%nat /\ length t <> 5%nat) ->
  Metar_parse past (s1 ++ " " ++ s2)%string
  = parse_tokens (Metar_parse past s1) (tokens_of past s2).
Proof.
  intros Hn H. unfold Metar_parse. rewrite <- parse_tokens_app.
  apply parse_tokens_same_tok.
  - rewrite map_app. unfold tokens_of.
    rewrite lit_append, c_str_app by exact Hn.
    change (lit (" " ++ s2)%string) with (" "%char :: lit s2). cbn [c_str].
    change (Ascii.eqb " " NUL) with false. cbv iota.
    rewrite (c_str_no_NUL (lit s1)) by exact Hn.
    apply tokenize_app_tok.
  - assert (W : Forall word (map tok (tokens_of past (s1 ++ " " ++ s2)%string))).
    { apply tokenize_words; [intros []|intros []|apply c_str_spec]. }
    unfold token_strings in H.
    rewrite Forall_forall in *. intros t Hin. split.
    + apply (W t Hin).
    + intros C. exact (H t Hin C).
Qed.

Lemma decoding_composes_witness :
  ~ In NUL (lit "KSTL 231751Z") /\
  Metar_parse no_past "KSTL 231751Z 27009KT"
  = parse_tokens (Metar_parse no_past "KSTL 231751Z")
      (tokens_of no_past "27009KT").
Proof.
  assert (Hn : ~ In NUL (lit "KSTL 231751Z")).
  { cbn. intros H. repeat (destruct H as [H|H]; [discriminate H|]). exact H. }
  split; [exact Hn|].
  apply (decoding_composes no_past "KSTL 231751Z" "27009KT" Hn).
  intros t [<-|[<-|[<-|[]]]] C; discriminate C.
Defined.

(** ** Scratch buffers *)

(** X25: the last copy of [parse_ot] does not fit its array: for every
    token with the observation-time shape, [strcpy(val, str + 4)] copies the
    two digits of the minute, the "Z" and the terminator, four bytes, into
    [char val[3]]. *)
Theorem observation_time_copy_exceeds_val (str : cstring) :
  is_ot str = true ->
  strcpy_need (skipn 4 str) = 4%nat
  /\ parse_ot_need str = 4%nat
  /\ (parse_ot_val < parse_ot_need str)%nat.
Proof.
  intros H. destruct (is_ot_inv _ H) as (a & b & c & d & e & f & -> & _).
  repeat split. unfold parse_ot_val, parse_ot_need, strncpy_need, strcpy_need.
  cbn [skipn length Nat.max]. lia.
Qed.

Lemma observation_time_copy_exceeds_val_witness :
  is_ot (lit "231751Z") = true /\
  (parse_ot_val < parse_ot_need (lit "231751Z"))%nat.
Proof.
  assert (H : is_ot (lit "231751Z") = true) by reflexivity.
  split; [exact H|].
  exact (proj2 (proj2 (observation_time_copy_exceeds_val (lit "231751Z") H))).
Defined.

(** X26: the other fixed-width sub-parsers stay inside their arrays: on
    every token [parse_wind] writes at most the four bytes of its [val], and
    on every token of their shape so do [parse_wind_var] and [parse_temp],
    and [parse_tempNA] at most the five bytes of its [val]. *)
Theorem fixed_width_copies_fit :
  (forall str, (parse_wind_need str <= parse_wind_val)%nat)
  /\ (forall str, is_wind_var str = true ->
        (parse_wind_var_need str <= parse_wind_var_val)%nat)
  /\ (forall str, is_temp str = true ->
        (parse_temp_need str <= parse_temp_val)%nat)
  /\ (forall str, is_tempNA str = true ->
        (parse_tempNA_need str <= parse_tempNA_val)%nat).
Proof.
  split; [|split; [|split]].
  - intros str. unfold parse_wind_need, parse_wind_val, strncpy_need.
    destruct (negb (found (strstr str (lit "VRB"))));
      destruct (strstr str (lit "G")); cbn; lia.
  - intros str H.
    destruct (is_wind_var_inv _ H) as (a & b & c & d & e & f & -> & _).
    unfold parse_wind_var_val, parse_wind_var_need, strncpy_need, strcpy_need.
    cbn [skipn length Nat.max]. lia.
  - exact temp_need.
  - intros str H.
    destruct (is_tempNA_inv _ H) as (a & b & c & d & e & f & g & h & -> & _).
    unfold parse_tempNA_val, parse_tempNA_need, strncpy_need, strcpy_need.
    cbn [skipn length Nat.max]. lia.
Qed.

Lemma fixed_width_copies_fit_witness :
  is_temp (lit "M10/M12") = true /\
  (parse_temp_need (lit "M10/M12") <= parse_temp_val)%nat.
Proof.
  assert (H : is_temp (lit "M10/M12") = true) by reflexivity.
  split; [exact H|].
  exact (proj1 (proj2 (proj2 fixed_width_copies_fit)) (lit "M10/M12") H).
Defined.

(** X27: [parse_vis] copies the numerator and the denominator of a
    fraction token into [char val[4]] without looking at their length.  For
    the token "N/DSM", with a leading "M" or not, the copies write one byte
    more than the characters in front of the "/" and two bytes more than the
    digits of D; they fit exactly when at most three characters stand in
    front of the "/" and D has at most two digits. *)
Theorem fraction_copies_fit_iff (lt : bool) (N D : cstring) :
  N <> [] -> all_digits N -> all_digits D ->
  let str := fraction_token lt N D in
  let front := ((if lt then 1 else 0) + length N)%nat in
  parse_vis_need str = Nat.max (S front) (S (S (length D)))
  /\ ((parse_vis_need str <= parse_vis_val)%nat <->
      (front <= 3)%nat /\ (length D <= 2)%nat).
Proof.
  intros HN HNd HDd str front.
  assert (E : parse_vis_need str = Nat.max (S front) (S (S (length D)))).
  { unfold parse_vis_need, str.
    rewrite (fraction_not_CAVOK lt N D HN HNd).
    rewrite (fraction_unit lt N D HNd HDd).
    rewrite (fraction_slash lt N D HNd).
    unfold strncpy_need, front. rewrite length_app.
    replace (length (if lt then ["M"%char] else []))
      with (if lt then 1%nat else 0%nat) by (destruct lt; reflexivity).
    f_equal. f_equal. lia. }
  split; [exact E|]. rewrite E. unfold parse_vis_val. lia.
Qed.

Lemma fraction_copies_fit_iff_witness :
  (all_digits (lit "5") /\ all_digits (lit "16")) /\
  fraction_token false (lit "5") (lit "16") = lit "5/16SM" /\
  parse_vis_need (lit "5/16SM") = 4%nat.
Proof.
  assert (H1 : all_digits (lit "5")) by (repeat constructor).
  assert (H2 : all_digits (lit "16")) by (repeat constructor).
  split; [split; assumption|]. split; [reflexivity|].
  exact (proj1 (fraction_copies_fit_iff false (lit "5") (lit "16")
                  ltac:(discriminate) H1 H2)).
Defined.
